(** * Checkstyle Analyzer client: the analysis-session flow

    A shallow embedding of the session logic of the React client:
    - [services/api.ts]    : [startAnalysis], [checkStatus], [pollStatus],
                             [fetchResults];
    - [services/socket.ts] : [connectWebSocket], [disconnectWebSocket] and the
                             callbacks registered on the STOMP client;
    - [App.tsx]            : [getStatusMessage], [handleAnalysisStart],
                             [handleCodeAnalysis].

    Asynchronous code is written in a small monad over the state of the page
    (React state, the module variable [stompClient], the STOMP clients that
    were created) with three outcomes: a value, a thrown value, or a
    computation that is still suspended in an [await].  The answers of the
    backend are an explicit script; every answer comes with the channel
    events that the event loop dispatches while the caller is suspended.

    Strings are byte strings holding the UTF-8 encoding of the source's
    literals; JavaScript numbers that the code prints are integers.

    The second part covers the code around the session flow:
    - [App.tsx]                  : [loadHistoryResults];
    - [components/AnalysisForm]  : the form's state and [handleSubmit];
    - [services/auth.ts]         : the stored credentials and the calls of
                                   the service;
    - [context/AuthContext]      : the provider's user;
    - [components/AuthModal]     : [handleRegister];
    - [components/UserDashboard] : [loadData], the repositories extracted
                                   from the history, [getTopRepositories];
    - [components/HistoryModal]  : [loadData];
    - [components/ConfigurationModal] and [data/checkstyleRules.ts] : the
                                   bulk actions, the counter and the tables
                                   of rules;
    - [context/ThemeContext]     : the stored theme.
    There the state is passed explicitly: the items of [localStorage], the
    React state of the component, and the requests sent as ghost state.
    A configuration object is a finite map from field names to values. *)

From stdpp Require Import base option list strings sorting gmap.
From Stdlib Require Import ZArith DecimalString.

Open Scope string_scope.
Open Scope list_scope.

(** ** Data model *)

(** [LogEntry] of services/socket.ts. *)
Inductive Level := IGNORE | INFO | WARNING | ERROR.

Record LogEntry := { level : Level; message : string }.

(** [AnalysisStatus] and [AnalysisResult] of services/api.ts. *)
Inductive StatusName := PENDING | CLONING | ANALYZING | COMPLETED | FAILED.

Record AnalysisStatus := {
  st_id : Z;
  status : StatusName;
  errorMessage : option string;   (* string | null *)
  createdAt : string
}.

Record AnalysisResult := {
  res_id : Z;
  filePath : string;
  lineNumber : Z;
  severity : string;
  res_message : string
}.

#[global] Instance Level_eq_dec : EqDecision Level.
Proof. solve_decision. Defined.

(** A value that JavaScript code can throw: an [Error] object with its
    message, or anything else. *)
Inductive Thrown := JsError (msg : string) | NonError.

(** Template literals print numbers in decimal. *)
Definition show_nat (n : nat) : string := NilZero.string_of_uint (Nat.to_uint n).
Definition show_N (n : N) : string := NilZero.string_of_uint (N.to_uint n).
Definition show_Z (z : Z) : string := NilZero.string_of_int (Z.to_int z).

(** ** The backend's answers *)

(** What [fetch] and the body readers give to [startAnalysis]: the call
    rejects, the response is not [ok] (status code, status text and body
    text), or it is [ok] and its JSON body, passed through [String], is the
    request identifier. *)
Inductive SubmitReply :=
| SubmitThrows (e : Thrown)
| SubmitNotOk (code : N) (statusText errorText : string)
| SubmitOk (requestId : string).

Inductive StatusReply :=
| StatusThrows (e : Thrown)
| StatusNotOk
| StatusOk (body : AnalysisStatus).

Inductive ResultsReply :=
| ResultsThrows (e : Thrown)
| ResultsNotOk
| ResultsOk (body : list AnalysisResult).

(** Events of the real-time channel, as the STOMP library dispatches them to
    the callbacks that socket.ts registered. *)
Inductive ChanEvent :=
| Connected (c : nat)                         (* [onConnect] of client [c] *)
| Frame (c k : nat) (entry : LogEntry)        (* a message for subscription [k] of client [c] *)
| StompError (c : nat).                       (* [onStompError] of client [c] *)

(** One suspension of the caller: the channel events dispatched while it
    waits, then the answer. *)
Record Turn (A : Type) := { during : list ChanEvent; reply : A }.
Arguments during {A}.
Arguments reply {A}.

(** ** Observable actions (a ghost trace) *)

Inductive Event :=
| CallStartAnalysis (repoUrl : string)
| CallCheckStatus (requestId : string)
| CallFetchResults (requestId : string)
| CallAnalyzeCode (code : string) (fileName : option string) (checkCompilation : bool)
| StatusUpdate (s : AnalysisStatus)     (* [onStatusUpdate] is invoked *)
| Activate (c : nat)                    (* [activate] on client [c] *)
| Subscribe (c : nat) (topic : string)  (* [subscribe] on client [c] *)
| CompletionSignal (requestId : string) (* [onAnalysisComplete] is invoked *)
| DisconnectCall                        (* [disconnectWebSocket] is entered *)
| Deactivate (c : nat).                 (* [deactivate] on client [c] *)

Definition is_api_call (e : Event) : bool :=
  match e with
  | CallStartAnalysis _ | CallCheckStatus _ | CallFetchResults _
  | CallAnalyzeCode _ _ _ => true
  | _ => false
  end.

Definition is_fetch_results (e : Event) : bool :=
  match e with CallFetchResults _ => true | _ => false end.

Definition is_check_status (e : Event) : bool :=
  match e with CallCheckStatus _ => true | _ => false end.

Definition is_status_update (e : Event) : bool :=
  match e with StatusUpdate _ => true | _ => false end.

Definition is_completion_signal (e : Event) : bool :=
  match e with CompletionSignal _ => true | _ => false end.

Definition is_disconnect_call (e : Event) : bool :=
  match e with DisconnectCall => true | _ => false end.

Definition is_deactivate (e : Event) : bool :=
  match e with Deactivate _ => true | _ => false end.

Definition is_activate (e : Event) : bool :=
  match e with Activate _ => true | _ => false end.

Definition count (p : Event -> bool) (tr : list Event) : nat :=
  length (List.filter p tr).

(** ** services/socket.ts *)

Section Socket.

(** The state that the callbacks given to [connectWebSocket] act on. *)
Variable S : Type.

(** The closure that [connectWebSocket] builds: the request identifier and
    the two callbacks. *)
Record Handler := {
  h_requestId : string;
  onLogReceived : LogEntry -> S -> S;
  onAnalysisComplete : S -> S
}.

(** A [Client] object: the configuration it was created with, whether it is
    active, whether its STOMP connection is established ([client.connected];
    the library sets it before it calls [onConnect]), and the subscriptions
    made on it.  The loss of a connection is not among the events of the
    model, and [connected] is read for the client that the module variable
    holds only. *)
Record Client := {
  config : Handler;
  active : bool;
  connected : bool;
  subscriptions : list Handler
}.

(** The page: the callbacks' state, the heap of clients (a client's
    identity is its index), the module variable [stompClient], and the
    trace. *)
Record World := {
  ui : S;
  clients : list Client;
  stompClient : option nat;
  trace : list Event
}.

Definition set_ui (f : S -> S) (w : World) : World :=
  {| ui := f (ui w); clients := clients w; stompClient := stompClient w;
     trace := trace w |}.

Definition note (e : Event) (w : World) : World :=
  {| ui := ui w; clients := clients w; stompClient := stompClient w;
     trace := trace w ++ [e] |}.

Definition set_clients (f : list Client -> list Client) (w : World) : World :=
  {| ui := ui w; clients := f (clients w); stompClient := stompClient w;
     trace := trace w |}.

Definition set_stompClient (p : option nat) (w : World) : World :=
  {| ui := ui w; clients := clients w; stompClient := p; trace := trace w |}.

Definition set_active (b : bool) (c : Client) : Client :=
  {| config := config c; active := b; connected := connected c;
     subscriptions := subscriptions c |}.

Definition set_connected (b : bool) (c : Client) : Client :=
  {| config := config c; active := active c; connected := b;
     subscriptions := subscriptions c |}.

Definition add_subscription (h : Handler) (c : Client) : Client :=
  {| config := config c; active := active c; connected := connected c;
     subscriptions := subscriptions c ++ [h] |}.

(** [disconnectWebSocket]: [stompClient?.deactivate(); stompClient = null]. *)
Definition disconnectWebSocket (w : World) : World :=
  let w := note DisconnectCall w in
  let w :=
    match stompClient w with
    | Some d => note (Deactivate d) (set_clients (alter (set_active false) d) w)
    | None => w
    end in
  set_stompClient None w.

Definition completionMarker : string := "Аналіз завершено".

(** [logEntry.message.startsWith(marker) || logEntry.level === 'ERROR'].
    On well-formed strings, a prefix in UTF-16 code units is a prefix of the
    UTF-8 bytes. *)
Definition signalsCompletion (logEntry : LogEntry) : bool :=
  String.prefix completionMarker (message logEntry)
  || bool_decide (level logEntry = ERROR).

(** The callback given to [subscribe], applied to a decoded message. *)
Definition messageHandler (h : Handler) (logEntry : LogEntry) (w : World) : World :=
  let w := set_ui (onLogReceived h logEntry) w in
  if signalsCompletion logEntry then
    let w := note (CompletionSignal (h_requestId h))
                  (set_ui (onAnalysisComplete h) w) in
    disconnectWebSocket w
  else w.

(** [onConnect]: the confirmation line, then [stompClient?.subscribe] on
    whatever client the module variable holds at that moment.  The
    library's [subscribe] throws a [TypeError] when that client has no
    STOMP connection: the callback ends there and nothing is subscribed. *)
Definition onConnect (h : Handler) (w : World) : World :=
  let w := set_ui (onLogReceived h
             {| level := INFO; message := "WebSocket з'єднано. Очікую логи..." |}) w in
  match stompClient w with
  | Some d =>
      match clients w !! d with
      | Some held =>
          if connected held then
            note (Subscribe d ("/topic/logs/" +:+ h_requestId h))
                 (set_clients (alter (add_subscription h) d) w)
          else w
      | None => w
      end
  | None => w
  end.

(** [onStompError]. *)
Definition onStompError (h : Handler) (w : World) : World :=
  let w := set_ui (onLogReceived h
             {| level := ERROR; message := "Помилка STOMP. Оновіть сторінку." |}) w in
  note (CompletionSignal (h_requestId h)) (set_ui (onAnalysisComplete h) w).

(** [connectWebSocket]: a new client is stored in [stompClient] (the client
    it held before is neither deactivated nor forgotten by the library) and
    activated. *)
Definition connectWebSocket (requestId : string)
  (onLog : LogEntry -> S -> S) (onComplete : S -> S) (w : World) : World :=
  let h := {| h_requestId := requestId; onLogReceived := onLog;
              onAnalysisComplete := onComplete |} in
  let c := length (clients w) in
  let w := set_clients (fun cs => cs ++ [{| config := h; active := false;
                                             connected := false;
                                             subscriptions := [] |}]) w in
  let w := set_stompClient (Some c) w in
  note (Activate c) (set_clients (alter (set_active true) c) w).

(** Dispatch of one channel event; an event for a client or a subscription
    that does not exist is dropped.  Which events arrive, and when, is the
    library's and the network's business: the dispatch does not look at
    [active], so that frames which are still delivered after [deactivate]
    was called can be expressed.  When [onConnect] of a client is called,
    the client's connection is established. *)
Definition dispatch (ev : ChanEvent) (w : World) : World :=
  match ev with
  | Connected c =>
      match clients w !! c with
      | Some cl =>
          onConnect (config cl) (set_clients (alter (set_connected true) c) w)
      | None => w
      end
  | Frame c k logEntry =>
      match clients w !! c with
      | Some cl =>
          match subscriptions cl !! k with
          | Some h => messageHandler h logEntry w
          | None => w
          end
      | None => w
      end
  | StompError c =>
      match clients w !! c with
      | Some cl => onStompError (config cl) w
      | None => w
      end
  end.

Definition deliver (evs : list ChanEvent) (w : World) : World :=
  foldl (fun w ev => dispatch ev w) w evs.

(** ** Asynchronous computations *)

Inductive Outcome (A : Type) :=
| Returned (a : A)
| Threw (e : Thrown)
| Awaiting.                  (* suspended in an [await] that has no answer yet *)

Definition M (A : Type) : Type := World -> Outcome A * World.

Definition ret {A} (a : A) : M A := fun w => (Returned A a, w).

Definition throw {A} (e : Thrown) : M A := fun w => (Threw A e, w).

Definition suspended {A} : M A := fun w => (Awaiting A, w).

Definition bind {A B} (m : M A) (k : A -> M B) : M B :=
  fun w =>
    match m w with
    | (Returned _ a, w') => k a w'
    | (Threw _ e, w') => (Threw B e, w')
    | (Awaiting _, w') => (Awaiting B, w')
    end.

Definition act (f : World -> World) : M unit := fun w => (Returned unit tt, f w).

(** [await]: the channel events of the turn are dispatched, then the answer
    is there. *)
Definition await {A} (t : Turn A) : M A :=
  fun w => (Returned A (reply t), deliver (during t) w).

(** [try { body } catch (error) { handler } finally { final }]; nothing runs
    after a body that is still suspended. *)
Definition try_catch_finally (body : M unit) (handler : Thrown -> M unit)
  (final : M unit) : M unit :=
  fun w =>
    match body w with
    | (Returned _ _, w') => final w'
    | (Awaiting _, w') => (Awaiting unit, w')
    | (Threw _ e, w') =>
        match handler e w' with
        | (Returned _ _, w'') => final w''
        | (Awaiting _, w'') => (Awaiting unit, w'')
        | (Threw _ e', w'') => bind final (fun _ => throw e') w''
        end
    end.

End Socket.

Arguments h_requestId {S}.
Arguments onLogReceived {S}.
Arguments onAnalysisComplete {S}.
Arguments config {S}.
Arguments active {S}.
Arguments connected {S}.
Arguments subscriptions {S}.
Arguments ui {S}.
Arguments clients {S}.
Arguments stompClient {S}.
Arguments trace {S}.
Arguments set_ui {S}.
Arguments note {S}.
Arguments set_clients {S}.
Arguments set_stompClient {S}.
Arguments set_active {S}.
Arguments set_connected {S}.
Arguments add_subscription {S}.
Arguments disconnectWebSocket {S}.
Arguments messageHandler {S}.
Arguments onConnect {S}.
Arguments onStompError {S}.
Arguments connectWebSocket {S}.
Arguments dispatch {S}.
Arguments deliver {S}.
Arguments Returned {A}.
Arguments Threw {A}.
Arguments Awaiting {A}.
Arguments ret {S A}.
Arguments throw {S A}.
Arguments suspended {S A}.
Arguments bind {S A B}.
Arguments act {S}.
Arguments await {S A}.
Arguments try_catch_finally {S}.

Notation "'let!' x ':=' m 'in' k" := (bind m (fun x => k))
  (at level 10, x name, m at level 100, k at level 200).
Notation "m '>>' k" := (bind m (fun _ => k))
  (at level 100, k at level 200, right associativity).

(** [for (const x of l) body]. *)
Fixpoint for_of {S A} (l : list A) (body : A -> M S unit) : M S unit :=
  match l with
  | [] => ret tt
  | x :: rest => body x >> for_of rest body
  end.

(** ** services/api.ts *)

(** [startAnalysis]. *)
Definition startAnalysis {S} (answer : Turn SubmitReply) (repoUrl : string)
  : M S string :=
  act (note (CallStartAnalysis repoUrl)) >>
  let! response := await answer in
  match response with
  | SubmitThrows e => throw e
  | SubmitNotOk code statusText errorText =>
      throw (JsError ("Помилка серверу: " +:+ show_N code +:+ " " +:+ statusText
                      +:+ ". " +:+ errorText))
  | SubmitOk requestId => ret requestId
  end.

(** [checkStatus]. *)
Definition checkStatus {S} (answer : Turn StatusReply) (requestId : string)
  : M S AnalysisStatus :=
  act (note (CallCheckStatus requestId)) >>
  let! response := await answer in
  match response with
  | StatusThrows e => throw e
  | StatusNotOk => throw (JsError "Не вдалося отримати статус аналізу.")
  | StatusOk body => ret body
  end.

(** [a || d] on [string | null]: [null] and the empty string are falsy. *)
Definition or_else (a : option string) (d : string) : string :=
  match a with
  | Some (String _ _ as s) => s
  | _ => d
  end.

Definition genericFailure : string := "Аналіз завершився з помилкою".

(** [if (onStatusUpdate) { onStatusUpdate(status); }]. *)
Definition notify {S} (onStatusUpdate : option (AnalysisStatus -> M S unit))
  (st : AnalysisStatus) : M S unit :=
  match onStatusUpdate with
  | Some callback => act (note (StatusUpdate st)) >> callback st
  | None => ret tt
  end.

(** [pollStatus]: the [while (true)] loop.  Every iteration waits two
    seconds, awaits one answer of [checkStatus] and consumes one turn of the
    script, so the loop is a recursion on the script; the channel events of
    the turn are those dispatched during the wait and the request.  When
    the script is used up the loop is suspended in its [await]. *)
Fixpoint pollStatus {S} (answers : list (Turn StatusReply)) (requestId : string)
  (onStatusUpdate : option (AnalysisStatus -> M S unit)) : M S AnalysisStatus :=
  match answers with
  | [] => suspended
  | answer :: later =>
      let! st := checkStatus answer requestId in
      notify onStatusUpdate st >>
      match status st with
      | COMPLETED => ret st
      | FAILED => throw (JsError (or_else (errorMessage st) genericFailure))
      | PENDING | CLONING | ANALYZING => pollStatus later requestId onStatusUpdate
      end
  end.

(** [fetchResults]. *)
Definition fetchResults {S} (answer : Turn ResultsReply) (requestId : string)
  : M S (list AnalysisResult) :=
  act (note (CallFetchResults requestId)) >>
  let! response := await answer in
  match response with
  | ResultsThrows e => throw e
  | ResultsNotOk => throw (JsError "Не вдалося завантажити результати.")
  | ResultsOk body => ret body
  end.

(** Modelled from the spec: [analyzeCode] and the type of its result are not
    among the sources.  The spec describes a single call accepting
    [{ code, fileName?, checkCompilation? }] and returning violations,
    optional compilation diagnostics ([{ lineNumber, message }] per error)
    and a numeric quality score; the fields below are the ones that
    [handleCodeAnalysis] reads, optional where it tests them against
    [undefined]. *)
Record CompilationError := { ce_lineNumber : Z; ce_message : string }.

Record Violation := {
  v_filePath : string;
  v_lineNumber : Z;
  v_severity : string;
  v_message : string
}.

Record CodeAnalysisResult := {
  success : bool;
  ca_errorMessage : option string;
  compilationSuccess : option bool;
  compilationErrors : list CompilationError;
  violations : list Violation;
  violationCount : Z;
  qualityScore : option Z
}.

Inductive AnalyzeReply :=
| AnalyzeThrows (e : Thrown)
| AnalyzeOk (body : CodeAnalysisResult).

Definition analyzeCode {S} (answer : Turn AnalyzeReply) (code : string)
  (fileName : option string) (checkCompilation : bool) : M S CodeAnalysisResult :=
  act (note (CallAnalyzeCode code fileName checkCompilation)) >>
  let! response := await answer in
  match response with
  | AnalyzeThrows e => throw e
  | AnalyzeOk body => ret body
  end.

(** ** App.tsx *)

(** The React state of [App] that the session flow uses. *)
Record AppState := {
  logs : list LogEntry;
  results : list AnalysisResult;
  isAnalyzing : bool;
  currentRequestId : option string;
  analysisStatus : option StatusName
}.

Definition setLogs (f : list LogEntry -> list LogEntry) (s : AppState) : AppState :=
  {| logs := f (logs s); results := results s; isAnalyzing := isAnalyzing s;
     currentRequestId := currentRequestId s; analysisStatus := analysisStatus s |}.

Definition setResults (r : list AnalysisResult) (s : AppState) : AppState :=
  {| logs := logs s; results := r; isAnalyzing := isAnalyzing s;
     currentRequestId := currentRequestId s; analysisStatus := analysisStatus s |}.

Definition setIsAnalyzing (b : bool) (s : AppState) : AppState :=
  {| logs := logs s; results := results s; isAnalyzing := b;
     currentRequestId := currentRequestId s; analysisStatus := analysisStatus s |}.

Definition setCurrentRequestId (r : option string) (s : AppState) : AppState :=
  {| logs := logs s; results := results s; isAnalyzing := isAnalyzing s;
     currentRequestId := r; analysisStatus := analysisStatus s |}.

Definition setAnalysisStatus (a : option StatusName) (s : AppState) : AppState :=
  {| logs := logs s; results := results s; isAnalyzing := isAnalyzing s;
     currentRequestId := currentRequestId s; analysisStatus := a |}.

Definition App := World AppState.

Definition set (f : AppState -> AppState) : M AppState unit := act (set_ui f).

Definition info (m : string) : LogEntry := {| level := INFO; message := m |}.
Definition warning (m : string) : LogEntry := {| level := WARNING; message := m |}.
Definition error (m : string) : LogEntry := {| level := ERROR; message := m |}.

(** [setLogs(prev => [...prev, entry])]. *)
Definition appendLog (entry : LogEntry) : M AppState unit :=
  set (setLogs (fun prev => prev ++ [entry])).

(** [getStatusMessage]; every status has an entry in the table, so the
    fallback [|| status] is never taken. *)
Definition getStatusMessage (s : StatusName) : string :=
  match s with
  | PENDING => "⏳ Очікування початку аналізу..."
  | CLONING => "📥 Клонування репозиторію..."
  | ANALYZING => "🔍 Аналіз Java файлів..."
  | COMPLETED => "✅ Аналіз завершено"
  | FAILED => "❌ Помилка аналізу"
  end.

(** The updater that the [onStatusUpdate] callback gives to [setLogs]. *)
Definition appendStatusLine (statusMsg : string) (prev : list LogEntry)
  : list LogEntry :=
  match last prev with
  | Some lastLog =>
      if decide (message lastLog = statusMsg) then prev
      else prev ++ [info statusMsg]
  | None => prev ++ [info statusMsg]
  end.

Definition onStatusUpdate (st : AnalysisStatus) : M AppState unit :=
  set (setAnalysisStatus (Some (status st))) >>
  set (setLogs (appendStatusLine (getStatusMessage (status st)))).

(** The two callbacks that [handleAnalysisStart] gives to
    [connectWebSocket]. *)
Definition onLogEntry (logEntry : LogEntry) (s : AppState) : AppState :=
  setLogs (fun prev => prev ++ [logEntry]) s.

Definition onSocketClosed (s : AppState) : AppState :=
  setLogs (fun prev => prev ++ [info "З'єднання WebSocket закрито."]) s.

(** [(error instanceof Error) ? error.message : 'Невідома помилка']. *)
Definition errorMessageOf (e : Thrown) : string :=
  match e with
  | JsError m => m
  | NonError => "Невідома помилка"
  end.

(** The [catch] block shared by both handlers. *)
Definition onCaught (e : Thrown) : M AppState unit :=
  appendLog (error ("Помилка: " +:+ errorMessageOf e)) >>
  set (setAnalysisStatus (Some FAILED)).

(** The answers of the backend to one run of [handleAnalysisStart]. *)
Record UrlAnswers := {
  submitAnswer : Turn SubmitReply;
  statusAnswers : list (Turn StatusReply);
  resultsAnswer : Turn ResultsReply
}.

(** The [try] block of [handleAnalysisStart]. *)
Definition tryAnalysisStart (env : UrlAnswers) (url : string) : M AppState unit :=
  appendLog (info "Надсилаю запит на аналіз...") >>
  let! requestId := startAnalysis (submitAnswer env) url in
  set (setCurrentRequestId (Some requestId)) >>
  appendLog (info ("Запит створено. ID: " +:+ requestId
                   +:+ ". Підключаюсь до логів...")) >>
  act (connectWebSocket requestId onLogEntry onSocketClosed) >>
  appendLog (info "Перевіряю статус аналізу...") >>
  let! _ := pollStatus (statusAnswers env) requestId (Some onStatusUpdate) in
  appendLog (info "Завантажую результати...") >>
  let! analysisResults := fetchResults (resultsAnswer env) requestId in
  set (setResults analysisResults) >>
  appendLog (info ("Знайдено " +:+ show_nat (length analysisResults)
                   +:+ " порушень")).

(** [handleAnalysisStart].  The guard reads [isAnalyzing] as the render
    that created the handler saw it; the model reads the current state. *)
Definition handleAnalysisStart (env : UrlAnswers) (url : string) : M AppState unit :=
  fun w =>
  if isAnalyzing (ui w) then ret tt w else
  (set (setIsAnalyzing true) >>
   set (setLogs (fun _ => [])) >>
   set (setResults []) >>
   set (setCurrentRequestId None) >>
   set (setAnalysisStatus None) >>
   try_catch_finally (tryAnalysisStart env url) onCaught
     (set (setIsAnalyzing false))) w.

(** [fileName] as a condition: [undefined] and the empty string are falsy. *)
Definition truthy (fileName : option string) : option string :=
  match fileName with
  | Some (String _ _ as f) => Some f
  | _ => None
  end.

(** [${x}] for an optional string. *)
Definition show_optional (s : option string) : string :=
  match s with
  | Some m => m
  | None => "undefined"
  end.

Definition scoreEmoji (q : Z) : string :=
  if (80 <=? q)%Z then "🌟" else if (60 <=? q)%Z then "👍" else "⚠️".

(** [result.violations.map((v, index) => ({ id: index, ... }))]. *)
Definition toResults (vs : list Violation) : list AnalysisResult :=
  imap (fun index v =>
          {| res_id := Z.of_nat index; filePath := v_filePath v;
             lineNumber := v_lineNumber v; severity := v_severity v;
             res_message := v_message v |}) vs.

(** The block of [handleCodeAnalysis] that logs the compilation results. *)
Definition reportCompilation (result : CodeAnalysisResult) : M AppState unit :=
  match compilationSuccess result with
  | Some true => appendLog (info "✅ Код успішно компілюється")
  | Some false =>
      appendLog (warning "❌ Код не компілюється") >>
      for_of (compilationErrors result) (fun err =>
        appendLog (error ("Рядок " +:+ show_Z (ce_lineNumber err)
                          +:+ ": " +:+ ce_message err)))
  | None => ret tt
  end.

(** The part of [handleCodeAnalysis] that follows a successful result. *)
Definition reportCodeAnalysis (result : CodeAnalysisResult) : M AppState unit :=
  reportCompilation result >>
  appendLog (info "Запуск аналізу Checkstyle...") >>
  set (setResults (toResults (violations result))) >>
  match qualityScore result with
  | Some q =>
      appendLog (info (scoreEmoji q +:+ " Оцінка якості коду: "
                       +:+ show_Z q +:+ "/100"))
  | None => ret tt
  end >>
  appendLog (info ("Аналіз завершено. Знайдено "
                   +:+ show_Z (violationCount result) +:+ " порушень.")) >>
  set (setAnalysisStatus (Some COMPLETED)).

(** The [try] block of [handleCodeAnalysis]. *)
Definition tryCodeAnalysis (answer : Turn AnalyzeReply) (code : string)
  (fileName : option string) : M AppState unit :=
  appendLog (info "Починаю аналіз коду...") >>
  match truthy fileName with
  | Some f => appendLog (info ("Файл: " +:+ f))
  | None => ret tt
  end >>
  appendLog (info "Перевірка компіляції...") >>
  let! result := analyzeCode answer code fileName true in
  if negb (success result) then
    appendLog (error ("Помилка: " +:+ show_optional (ca_errorMessage result))) >>
    set (setAnalysisStatus (Some FAILED))
  else reportCodeAnalysis result.

(** [handleCodeAnalysis]. *)
Definition handleCodeAnalysis (answer : Turn AnalyzeReply) (code : string)
  (fileName : option string) : M AppState unit :=
  fun w =>
  if isAnalyzing (ui w) then ret tt w else
  (set (setIsAnalyzing true) >>
   set (setLogs (fun _ => [])) >>
   set (setResults []) >>
   set (setAnalysisStatus None) >>
   try_catch_finally (tryCodeAnalysis answer code fileName) onCaught
     (set (setIsAnalyzing false))) w.

(** ** The page as a transition system *)

(** What can happen to the page: the user submits a URL or a piece of code
    (with the backend's answers to that run), or the STOMP library
    dispatches a channel event outside of any run. *)
Inductive Action :=
| SubmitUrl (env : UrlAnswers) (url : string)
| SubmitCode (answer : Turn AnalyzeReply) (code : string) (fileName : option string)
| Channel (ev : ChanEvent).

Definition step (a : Action) (w : App) : App :=
  match a with
  | SubmitUrl env url => snd (handleAnalysisStart env url w)
  | SubmitCode answer code fileName => snd (handleCodeAnalysis answer code fileName w)
  | Channel ev => dispatch ev w
  end.

Definition run (actions : list Action) (w : App) : App :=
  foldl (fun w a => step a w) w actions.

Definition initialState : AppState :=
  {| logs := []; results := []; isAnalyzing := false;
     currentRequestId := None; analysisStatus := None |}.

Definition initialApp : App :=
  {| ui := initialState; clients := []; stompClient := None; trace := [] |}.

(** ** Vocabulary of the statements *)

(** A turn after which the loop of [pollStatus] goes on: the status check
    succeeds and the status is one of PENDING, CLONING, ANALYZING. *)
Definition keepsPolling (t : Turn StatusReply) : bool :=
  match reply t with
  | StatusOk st =>
      match status st with
      | PENDING | CLONING | ANALYZING => true
      | COMPLETED | FAILED => false
      end
  | _ => false
  end.

(** The statuses carried by a list of turns. *)
Definition statusesOf (ts : list (Turn StatusReply)) : list AnalysisStatus :=
  omap (fun t => match reply t with StatusOk st => Some st | _ => None end) ts.

(** A callback that returns normally. *)
Definition returns {S A} (callback : A -> M S unit) : Prop :=
  forall a w, fst (callback a w) = Returned tt.

(** The optional callback of [pollStatus], when there is one, returns. *)
Definition callbackReturns {S} (cb : option (AnalysisStatus -> M S unit)) : Prop :=
  forall f, cb = Some f -> returns f.

(** A callback that only updates the callbacks' state. *)
Definition updatesUi {S A} (callback : A -> M S unit) (f : A -> S -> S) : Prop :=
  forall a w, callback a w = (Returned tt, set_ui (f a) w).

(** What [onStatusUpdate] does to the React state. *)
Definition statusUpdater (st : AnalysisStatus) (s : AppState) : AppState :=
  setLogs (appendStatusLine (getStatusMessage (status st)))
          (setAnalysisStatus (Some (status st)) s).

(** The page after the first lines of [handleAnalysisStart], before its
    [try] block. *)
Definition resetForUrl (w : App) : App :=
  set_ui (fun s => setAnalysisStatus None (setCurrentRequestId None
            (setResults [] (setLogs (fun _ => []) (setIsAnalyzing true s))))) w.

(** The page when [startAnalysis] is answered. *)
Definition afterSubmit (env : UrlAnswers) (url : string) (w : App) : App :=
  deliver (during (submitAnswer env))
    (note (CallStartAnalysis url)
       (set_ui (setLogs (fun prev => prev ++ [info "Надсилаю запит на аналіз..."])) w)).

(** The page after the channel was opened. *)
Definition afterConnect (rid : string) (w : App) : App :=
  set_ui (setLogs (fun prev => prev ++ [info "Перевіряю статус аналізу..."]))
    (connectWebSocket rid onLogEntry onSocketClosed
       (set_ui (setLogs (fun prev => prev ++
                  [info ("Запит створено. ID: " +:+ rid
                         +:+ ". Підключаюсь до логів...")]))
          (set_ui (setCurrentRequestId (Some rid)) w))).

(** The page when the polling loop of a run of [handleAnalysisStart] is
    entered. *)
Definition pollingStart (env : UrlAnswers) (url rid : string) (w : App) : App :=
  afterConnect rid (afterSubmit env url (resetForUrl w)).

(** The page after the answers [pre], all of which keep the loop going. *)
Definition polled (rid : string) (pre : list (Turn StatusReply)) (w : App) : App :=
  snd (pollStatus pre rid (Some onStatusUpdate) w).

(** The page after one more answered status check. *)
Definition answered (rid : string) (t : Turn StatusReply) (st : AnalysisStatus)
  (w : App) : App :=
  set_ui (statusUpdater st)
    (note (StatusUpdate st) (deliver (during t) (note (CallCheckStatus rid) w))).

(** What a status check that fails throws. *)
Definition checkFailure (r : StatusReply) : option Thrown :=
  match r with
  | StatusThrows e => Some e
  | StatusNotOk => Some (JsError "Не вдалося отримати статус аналізу.")
  | StatusOk _ => None
  end.

(** The rest of the [try] block once the polling loop has returned. *)
Definition fetchPhase (env : UrlAnswers) (rid : string) : M AppState unit :=
  appendLog (info "Завантажую результати...") >>
  let! analysisResults := fetchResults (resultsAnswer env) rid in
  set (setResults analysisResults) >>
  appendLog (info ("Знайдено " +:+ show_nat (length analysisResults)
                   +:+ " порушень")).

(** The page after the first lines of [handleCodeAnalysis], before its
    [try] block. *)
Definition resetForCode (w : App) : App :=
  set_ui (fun s => setAnalysisStatus None
            (setResults [] (setLogs (fun _ => []) (setIsAnalyzing true s)))) w.

(** The page when [analyzeCode] is answered. *)
Definition afterAnalyze (answer : Turn AnalyzeReply) (code : string)
  (fileName : option string) (w : App) : App :=
  let w := set_ui (setLogs (fun prev => prev ++ [info "Починаю аналіз коду..."])) w in
  let w := match truthy fileName with
           | Some f => set_ui (setLogs (fun prev => prev ++ [info ("Файл: " +:+ f)])) w
           | None => w
           end in
  deliver (during answer)
    (note (CallAnalyzeCode code fileName true)
       (set_ui (setLogs (fun prev => prev ++ [info "Перевірка компіляції..."])) w)).

(** The log lines of a successful result. *)
Definition compilationLines (r : CodeAnalysisResult) : list LogEntry :=
  match compilationSuccess r with
  | Some true => [info "✅ Код успішно компілюється"]
  | Some false =>
      warning "❌ Код не компілюється"
      :: map (fun err => error ("Рядок " +:+ show_Z (ce_lineNumber err)
                                +:+ ": " +:+ ce_message err))
             (compilationErrors r)
  | None => []
  end.

Definition qualityLine (q : Z) : LogEntry :=
  info (scoreEmoji q +:+ " Оцінка якості коду: " +:+ show_Z q +:+ "/100").

Definition summaryLine (r : CodeAnalysisResult) : LogEntry :=
  info ("Аналіз завершено. Знайдено " +:+ show_Z (violationCount r) +:+ " порушень.").

(** What the report of a successful result does to the React state. *)
Definition reportUpdate (r : CodeAnalysisResult) (s : AppState) : AppState :=
  {| logs := logs s ++ compilationLines r
             ++ [info "Запуск аналізу Checkstyle..."]
             ++ match qualityScore r with Some q => [qualityLine q] | None => [] end
             ++ [summaryLine r];
     results := toResults (violations r);
     isAnalyzing := isAnalyzing s;
     currentRequestId := currentRequestId s;
     analysisStatus := Some COMPLETED |}.

(** Whether a log entry is a quality-score line. *)
Definition isQualityLine (e : LogEntry) : bool :=
  match String.index 0 "Оцінка якості коду" (message e) with
  | Some _ => true
  | None => false
  end.

(** The [catch] and [finally] blocks applied to the outcome of a [try]
    block. *)
Definition finish (r : Outcome unit * App) : Outcome unit * App :=
  match r with
  | (Returned _, w) => (Returned tt, set_ui (setIsAnalyzing false) w)
  | (Threw e, w) =>
      (Returned tt,
       set_ui (setIsAnalyzing false)
         (set_ui (setAnalysisStatus (Some FAILED))
            (set_ui (setLogs (fun prev => prev ++
                       [error ("Помилка: " +:+ errorMessageOf e)])) w)))
  | (Awaiting, w) => (Awaiting, w)
  end.

(** The session's own events: calls of the API and of [onStatusUpdate]. *)
Definition is_session_event (e : Event) : bool :=
  is_api_call e || is_status_update e.

(** The trace of polls that were answered with the statuses [sts]. *)
Definition pollEvents (rid : string) (sts : list AnalysisStatus) : list Event :=
  flat_map (fun st => [CallCheckStatus rid; StatusUpdate st]) sts.

(** Events that the dispatch of channel events can add to the trace. *)
Definition is_channel_event (e : Event) : bool :=
  match e with
  | Subscribe _ _ | CompletionSignal _ | DisconnectCall | Deactivate _ => true
  | _ => false
  end.

(** [w'] is [w] with channel events added to the trace. *)
Definition channelTrace {S} (w w' : World S) : Prop :=
  exists added, trace w' = trace w ++ added
                /\ Forall (fun e => is_channel_event e = true) added.

(** The handlers that [handleAnalysisStart] registers, and the worlds in
    which every client was created by it. *)
Definition appHandler (h : Handler AppState) : Prop :=
  onLogReceived h = onLogEntry /\ onAnalysisComplete h = onSocketClosed.

Definition appClient (c : Client AppState) : Prop :=
  appHandler (config c) /\ Forall appHandler (subscriptions c).

Definition appWorld (w : App) : Prop := Forall appClient (clients w).

(** The React state apart from the log sequence. *)
Definition sameSession (s s' : AppState) : Prop :=
  results s' = results s /\ isAnalyzing s' = isAnalyzing s
  /\ currentRequestId s' = currentRequestId s
  /\ analysisStatus s' = analysisStatus s.

(** Only the log sequence changed, and it was extended. *)
Definition logsGrow (s s' : AppState) : Prop :=
  sameSession s s' /\ exists extra, logs s' = logs s ++ extra.

(** A session is in flight: between the first line of a handler and its
    [finally] block. *)
Definition inFlight (w : App) : Prop :=
  appWorld w /\ isAnalyzing (ui w) = true.

(** The log lines that handling [entries] appends. *)
Definition channelLines (entries : list LogEntry) : list LogEntry :=
  flat_map (fun e => if signalsCompletion e
                     then [e; info "З'єднання WebSocket закрито."]
                     else [e]) entries.

(** The subscription callback applied to a sequence of messages, in the
    order of their arrival. *)
Definition handleAll {S} (h : Handler S) (entries : list LogEntry) (w : World S)
  : World S :=
  foldl (fun w e => messageHandler h e w) w entries.

(** The number of messages that signal completion. *)
Definition completionMessages (entries : list LogEntry) : nat :=
  length (List.filter signalsCompletion entries).

(** A turn in which no channel event is dispatched. *)
Definition quiet {A} (a : A) : Turn A := {| during := []; reply := a |}.

(** Sample answers, after the tests of the service. *)
Definition statusBody (s : StatusName) (msg : option string) : AnalysisStatus :=
  {| st_id := 1; status := s; errorMessage := msg; createdAt := "2025-11-17" |}.

Definition says (s : StatusName) : Turn StatusReply :=
  quiet (StatusOk (statusBody s None)).

Definition sampleUrl : string := "https://github.com/user/repo".

Definition sampleViolation : AnalysisResult :=
  {| res_id := 1; filePath := "src/Main.java"; lineNumber := 42;
     severity := "ERROR"; res_message := "Line is too long" |}.

Definition answers (submit : SubmitReply) (polls : list (Turn StatusReply))
  (res : ResultsReply) : UrlAnswers :=
  {| submitAnswer := quiet submit; statusAnswers := polls;
     resultsAnswer := quiet res |}.

(** The handler that [handleAnalysisStart] registers for a request. *)
Definition appHandlerFor (rid : string) : Handler AppState :=
  {| h_requestId := rid; onLogReceived := onLogEntry;
     onAnalysisComplete := onSocketClosed |}.

(** Two sessions in a row.  The first one sees COMPLETED by polling before
    its channel has delivered a completion message; a message of its
    channel arrives while the second one waits for its submission. *)
Definition firstSession : UrlAnswers :=
  {| submitAnswer := quiet (SubmitOk "1");
     statusAnswers := [ {| during := [Connected 0];
                           reply := StatusOk (statusBody COMPLETED None) |} ];
     resultsAnswer := quiet (ResultsOk []) |}.

Definition secondSession : UrlAnswers :=
  {| submitAnswer := {| during := [Frame 0 0 (info "Знайдено 10 Java файлів")];
                        reply := SubmitOk "2" |};
     statusAnswers := [];
     resultsAnswer := quiet (ResultsOk []) |}.

Definition afterFirstSession : App :=
  run [SubmitUrl firstSession sampleUrl] initialApp.

Definition duringSecondSession : App :=
  run [SubmitUrl secondSession "https://github.com/user/other"] afterFirstSession.

(** An inline analysis that succeeds, with and without a quality score. *)
Definition sampleCodeViolation : Violation :=
  {| v_filePath := "Main.java"; v_lineNumber := 3; v_severity := "WARNING";
     v_message := "Missing javadoc" |}.

Definition scoredResult : CodeAnalysisResult :=
  {| success := true; ca_errorMessage := None; compilationSuccess := Some true;
     compilationErrors := []; violations := [sampleCodeViolation];
     violationCount := 1; qualityScore := Some 85%Z |}.

Definition unscoredResult : CodeAnalysisResult :=
  {| success := true; ca_errorMessage := None; compilationSuccess := Some true;
     compilationErrors := []; violations := [sampleCodeViolation];
     violationCount := 1; qualityScore := None |}.

(** A session whose polling loop waits for its second answer. *)
Definition pollingPage : App :=
  snd (handleAnalysisStart
         (answers (SubmitOk "42") [says PENDING] (ResultsOk [])) sampleUrl initialApp).

(** A page on which the channel of request 42 was opened, and two PENDING
    answers: the channel connects during the first one and delivers a
    message during the second one. *)
Definition channelOpened : App := afterConnect "42" initialApp.

Definition pendingWhileConnecting : Turn StatusReply :=
  {| during := [Connected 0]; reply := StatusOk (statusBody PENDING None) |}.

Definition pendingAfterMessage : Turn StatusReply :=
  {| during := [Frame 0 0 (info "Клонування репозиторія...")];
     reply := StatusOk (statusBody PENDING None) |}.

(** ** Vocabulary of the further statements *)

Definition submitLine : LogEntry := info "Надсилаю запит на аналіз...".

(** The page of a session of [handleAnalysisStart] that has not reached
    [setResults] nor its [finally] block; [rid] is the request identifier,
    if the submission was answered. *)
Definition sessionPage (rid : option string) (w : App) : Prop :=
  appWorld w /\ isAnalyzing (ui w) = true /\ results (ui w) = []
  /\ currentRequestId (ui w) = rid
  /\ exists extra, logs (ui w) = submitLine :: extra.

(** The page when [fetchResults] is answered. *)
Definition afterFetch (env : UrlAnswers) (rid : string) (w : App) : App :=
  deliver (during (resultsAnswer env))
    (note (CallFetchResults rid)
       (set_ui (setLogs (fun prev => prev ++ [info "Завантажую результати..."])) w)).

(** The ways in which the [try] block of [handleAnalysisStart] ends or is
    suspended on a page that was reset by the handler's first lines. *)
Inductive TryOutcome (env : UrlAnswers) (url : string) (w : App)
  : Outcome unit * App -> Prop :=
| TrySubmitThrew e :
    reply (submitAnswer env) = SubmitThrows e ->
    TryOutcome env url w (Threw e, afterSubmit env url (resetForUrl w))
| TrySubmitRejected code statusText errorText :
    reply (submitAnswer env) = SubmitNotOk code statusText errorText ->
    TryOutcome env url w
      (Threw (JsError ("Помилка серверу: " +:+ show_N code +:+ " " +:+ statusText
                       +:+ ". " +:+ errorText)),
       afterSubmit env url (resetForUrl w))
| TryPolling rid :
    reply (submitAnswer env) = SubmitOk rid ->
    forallb keepsPolling (statusAnswers env) = true ->
    TryOutcome env url w
      (Awaiting, polled rid (statusAnswers env) (pollingStart env url rid w))
| TryCheckFailed rid pre t later e :
    reply (submitAnswer env) = SubmitOk rid ->
    statusAnswers env = pre ++ t :: later ->
    forallb keepsPolling pre = true ->
    checkFailure (reply t) = Some e ->
    TryOutcome env url w
      (Threw e,
       deliver (during t)
         (note (CallCheckStatus rid) (polled rid pre (pollingStart env url rid w))))
| TryStatusFailed rid pre t later st :
    reply (submitAnswer env) = SubmitOk rid ->
    statusAnswers env = pre ++ t :: later ->
    forallb keepsPolling pre = true ->
    reply t = StatusOk st -> status st = FAILED ->
    TryOutcome env url w
      (Threw (JsError (or_else (errorMessage st) genericFailure)),
       answered rid t st (polled rid pre (pollingStart env url rid w)))
| TryFetchFailed rid pre t later st e :
    reply (submitAnswer env) = SubmitOk rid ->
    statusAnswers env = pre ++ t :: later ->
    forallb keepsPolling pre = true ->
    reply t = StatusOk st -> status st = COMPLETED ->
    match reply (resultsAnswer env) with
    | ResultsThrows e' => e = e'
    | ResultsNotOk => e = JsError "Не вдалося завантажити результати."
    | ResultsOk _ => False
    end ->
    TryOutcome env url w
      (Threw e,
       afterFetch env rid (answered rid t st (polled rid pre (pollingStart env url rid w))))
| TryFetched rid pre t later st body :
    reply (submitAnswer env) = SubmitOk rid ->
    statusAnswers env = pre ++ t :: later ->
    forallb keepsPolling pre = true ->
    reply t = StatusOk st -> status st = COMPLETED ->
    reply (resultsAnswer env) = ResultsOk body ->
    TryOutcome env url w
      (Returned tt,
       set_ui (setLogs (fun prev => prev ++
                 [info ("Знайдено " +:+ show_nat (length body) +:+ " порушень")]))
         (set_ui (setResults body)
            (afterFetch env rid
               (answered rid t st (polled rid pre (pollingStart env url rid w)))))).

(** A client as channel events can leave it: the same configuration, not
    re-activated, with subscriptions only added. *)
Definition agedClient {S} (cl cl' : Client S) : Prop :=
  config cl' = config cl
  /\ (active cl' = true -> active cl = true)
  /\ exists more, subscriptions cl' = subscriptions cl ++ more.

(** The module variable [stompClient], when set, holds a client that exists
    and is active. *)
Definition currentIsActive {S} (w : World S) : Prop :=
  forall d, stompClient w = Some d ->
            exists cl, clients w !! d = Some cl /\ active cl = true.

(** Client [c] is open although the module variable does not hold it: no
    later [disconnectWebSocket] can reach it. *)
Definition leftOpen {S} (c : nat) (w : World S) : Prop :=
  (exists cl, clients w !! c = Some cl /\ active cl = true)
  /\ stompClient w <> Some c.

(** ** App.tsx: results of an earlier request *)

(** [loadHistoryResults]: the results of an earlier request replace the
    results and the whole log; a failure is written to the console only.
    [String(requestId)] is the decimal numeral of an integer identifier. *)
Definition loadHistoryResults (answer : Turn ResultsReply) (requestId : Z)
  : M AppState unit :=
  try_catch_finally
    (let! historyResults := fetchResults answer (show_Z requestId) in
     set (setResults historyResults) >>
     set (setLogs (fun _ =>
            [info ("Завантажено " +:+ show_nat (length historyResults)
                   +:+ " результатів з історії")])))
    (fun _ => ret tt)
    (ret tt).

(** ** components/AnalysisForm.tsx *)



(** [s.endsWith(suffix)]. *)
Fixpoint endsWith (s suffix : string) : bool :=
  if String.eqb s suffix then true
  else match s with
       | "" => false
       | String _ rest => endsWith rest suffix
       end.

Inductive InputMode := UrlMode | CodeMode.

(** The form's own React state. *)
Record FormState := {
  mode : InputMode;
  repoUrl : string;
  code : string;
  fileName : option string;
  checkCompilation : bool
}.

Definition setMode (m : InputMode) (st : FormState) : FormState :=
  {| mode := m; repoUrl := repoUrl st; code := code st; fileName := fileName st;
     checkCompilation := checkCompilation st |}.

Definition setRepoUrl (v : string) (st : FormState) : FormState :=
  {| mode := mode st; repoUrl := v; code := code st; fileName := fileName st;
     checkCompilation := checkCompilation st |}.

Definition setCode (v : string) (st : FormState) : FormState :=
  {| mode := mode st; repoUrl := repoUrl st; code := v; fileName := fileName st;
     checkCompilation := checkCompilation st |}.

Definition setFileName (v : option string) (st : FormState) : FormState :=
  {| mode := mode st; repoUrl := repoUrl st; code := code st; fileName := v;
     checkCompilation := checkCompilation st |}.

Definition setCheckCompilation (b : bool) (st : FormState) : FormState :=
  {| mode := mode st; repoUrl := repoUrl st; code := code st; fileName := fileName st;
     checkCompilation := b |}.

Definition initialForm : FormState :=
  {| mode := UrlMode; repoUrl := ""; code := ""; fileName := None;
     checkCompilation := false |}.

(** The effect on [externalUrl]. *)
Definition onExternalUrl (externalUrl : option string) (st : FormState) : FormState :=
  match truthy externalUrl with
  | Some u => setRepoUrl u (setMode UrlMode st)
  | None => st
  end.

(** [handleFileSelect], when the file has been read ([read] is its text)
    or could not be read; both updates are made after the [await]. *)
Definition handleFileSelect (name : string) (read : option string) (st : FormState)
  : FormState :=
  if negb (endsWith name ".java") then st
  else match read with
       | Some text => setFileName (Some name) (setCode text st)
       | None => st
       end.

Definition clearCode (st : FormState) : FormState := setFileName None (setCode "" st).

(** [onChange] of the code text area. *)
Definition onCodeChange (value : string) (st : FormState) : FormState :=
  let st' := setCode value st in
  match truthy (fileName st) with
  | Some _ => if negb (String.eqb value (code st)) then setFileName None st' else st'
  | None => st'
  end.

(** The value of the URL field, an [<input type="url">], when its text is
    [typed]: the browser removes the line breaks and then the ASCII white
    space (tab, line feed, form feed, carriage return, space) at both ends
    before [onChange] reads [e.target.value]. *)
Definition isNewline (a : Ascii.ascii) : bool :=
  let x := Ascii.N_of_ascii a in ((x =? 10) || (x =? 13))%N.

Definition isAsciiWhitespace (a : Ascii.ascii) : bool :=
  let x := Ascii.N_of_ascii a in
  ((x =? 9) || (x =? 10) || (x =? 12) || (x =? 13) || (x =? 32))%N.

Fixpoint stripNewlines (s : string) : string :=
  match s with
  | "" => ""
  | String a rest =>
      if isNewline a then stripNewlines rest else String a (stripNewlines rest)
  end.

Fixpoint stripLeading (s : string) : string :=
  match s with
  | "" => ""
  | String a rest => if isAsciiWhitespace a then stripLeading rest else s
  end.

Fixpoint stripTrailing (s : string) : string :=
  match s with
  | "" => ""
  | String a rest =>
      match stripTrailing rest with
      | "" => if isAsciiWhitespace a then "" else String a ""
      | kept => String a kept
      end
  end.

Definition urlFieldValue (typed : string) : string :=
  stripTrailing (stripLeading (stripNewlines typed)).

(** What the user and the parent component do to the form; [TypeUrl]
    carries the text of the URL field after the edit. *)
Inductive FormEvent :=
| ClickMode (m : InputMode)
| TypeUrl (typed : string)
| ExternalUrl (externalUrl : option string)
| TypeCode (value : string)
| SelectFile (name : string) (read : option string)
| ClearCode
| CheckCompilation (checked : bool).

Definition formStep (ev : FormEvent) (st : FormState) : FormState :=
  match ev with
  | ClickMode m => setMode m st
  | TypeUrl typed => setRepoUrl (urlFieldValue typed) st
  | ExternalUrl u => onExternalUrl u st
  | TypeCode v => onCodeChange v st
  | SelectFile name read => handleFileSelect name read st
  | ClearCode => clearCode st
  | CheckCompilation b => setCheckCompilation b st
  end.

Definition formRun (evs : list FormEvent) (st : FormState) : FormState :=
  foldl (fun st ev => formStep ev st) st evs.



(** A successful result for code that does not compile. *)
Definition failedCompilation : CodeAnalysisResult :=
  {| success := true; ca_errorMessage := None; compilationSuccess := Some false;
     compilationErrors :=
       [ {| ce_lineNumber := 3; ce_message := "';' expected" |};
         {| ce_lineNumber := 7; ce_message := "cannot find symbol" |} ];
     violations := [sampleCodeViolation]; violationCount := 1;
     qualityScore := Some 40%Z |}.

(** The file name, when set, ends in [.java] and names a file, selected
    among the events [seen], whose text is the code. *)
Definition fileInvariant (seen : list FormEvent) (st : FormState) : Prop :=
  forall n, fileName st = Some n ->
            endsWith n ".java" = true
            /\ In (SelectFile n (Some (code st))) seen.


(** A form with an uploaded file, in code mode, compilation check off. *)
Definition uploadedForm : FormState :=
  formRun [ClickMode CodeMode; SelectFile "Main.java" (Some "class Main {}");
           TypeCode "class Main {}"; CheckCompilation false] initialForm.

(** ** services/auth.ts *)

Inductive ExperienceLevel := STUDENT | JUNIOR | ADVANCED.

Record User := {
  username : string;
  email : string;
  role : string;
  experienceLevel : ExperienceLevel
}.

(** [AuthResponse]; its fields besides [token] are those of [User]. *)
Record AuthResponse := {
  token : string;
  resp_username : string;
  resp_email : string;
  resp_role : string;
  resp_experienceLevel : ExperienceLevel
}.

Record RegisterRequest := {
  reg_username : string;
  reg_email : string;
  reg_password : string
}.

Record LoginRequest := {
  login_username : string;
  login_password : string
}.

(** [Partial<User>]: a field is given or absent. *)
Record UserUpdates := {
  new_username : option string;
  new_email : option string;
  new_role : option string;
  new_experienceLevel : option ExperienceLevel
}.

(** The JSON body of a response that is not [ok], as [register] and [login]
    read it. *)
Record ErrorBody := {
  err_error : option string;
  err_username : option string;
  err_email : option string;
  err_password : option string
}.

(** What [fetch] and the body reader give: one of them rejects, the
    response is not [ok], or it is [ok] with its JSON body. *)
Inductive Reply (E A : Type) :=
| ReplyRejects (e : Thrown)
| ReplyNotOk (error : E)
| ReplyOk (body : A).

Arguments ReplyRejects {E A}.
Arguments ReplyNotOk {E A}.
Arguments ReplyOk {E A}.

(** The requests of the module, whose bodies are left out, and the two
    requests that the dashboard makes itself; [bearer] is the token of the
    [Authorization] header, [authorization] the header, if it is sent. *)
Inductive Request :=
| PostRegister (data : RegisterRequest)
| PostLogin (data : LoginRequest)
| GetMe (bearer : string)
| GetHistory (bearer : string)
| GetStatistics (bearer : string)
| GetSettings (bearer : string)
| PutSettings (bearer : string)
| PatchExperience (bearer : string) (level : ExperienceLevel)
| FetchStatistics (authorization : option string)
| FetchHistory (authorization : option string).

(** The two items of [localStorage] that the module owns, and, as ghost
    state, the requests sent so far.  The item under [USER_KEY] is the JSON
    text of a user; the model keeps the user that [JSON.parse] gives back
    for it.  No other code writes the items while a call is pending. *)
Record Browser := {
  tokenItem : option string;
  userItem : option User;
  sent : list Request
}.

Definition send (r : Request) (b : Browser) : Browser :=
  {| tokenItem := tokenItem b; userItem := userItem b; sent := sent b ++ [r] |}.

Definition getToken (b : Browser) : option string := tokenItem b.

Definition getUser (b : Browser) : option User := userItem b.

Definition storeAuthData (response : AuthResponse) (b : Browser) : Browser :=
  {| tokenItem := Some (token response);
     userItem := Some {| username := resp_username response;
                         email := resp_email response;
                         role := resp_role response;
                         experienceLevel := resp_experienceLevel response |};
     sent := sent b |}.

(** [{ ...currentUser, ...updates }]. *)
Definition spread (currentUser : User) (updates : UserUpdates) : User :=
  {| username := default (username currentUser) (new_username updates);
     email := default (email currentUser) (new_email updates);
     role := default (role currentUser) (new_role updates);
     experienceLevel :=
       default (experienceLevel currentUser) (new_experienceLevel updates) |}.

Definition updateStoredUser (updates : UserUpdates) (b : Browser)
  : option User * Browser :=
  match getUser b with
  | None => (None, b)
  | Some currentUser =>
      let updatedUser := spread currentUser updates in
      (Some updatedUser,
       {| tokenItem := tokenItem b; userItem := Some updatedUser; sent := sent b |})
  end.

Definition clearAuthData (b : Browser) : Browser :=
  {| tokenItem := None; userItem := None; sent := sent b |}.

(** [!!getToken()]. *)
Definition isAuthenticated (b : Browser) : bool :=
  match truthy (getToken b) with
  | Some _ => true
  | None => false
  end.

(** [getAuthHeaders]: the value of the [Authorization] header, if any. *)
Definition getAuthHeaders (b : Browser) : option string :=
  match truthy (getToken b) with
  | Some t => Some ("Bearer " +:+ t)
  | None => None
  end.

Definition register (data : RegisterRequest) (answer : Reply ErrorBody AuthResponse)
  (b : Browser) : Outcome AuthResponse * Browser :=
  let b := send (PostRegister data) b in
  match answer with
  | ReplyRejects e => (Threw e, b)
  | ReplyNotOk error =>
      (Threw (JsError (or_else (err_error error)
                        (or_else (err_username error)
                           (or_else (err_email error)
                              (or_else (err_password error) "Помилка реєстрації"))))),
       b)
  | ReplyOk authResponse => (Returned authResponse, storeAuthData authResponse b)
  end.

Definition login (data : LoginRequest) (answer : Reply ErrorBody AuthResponse)
  (b : Browser) : Outcome AuthResponse * Browser :=
  let b := send (PostLogin data) b in
  match answer with
  | ReplyRejects e => (Threw e, b)
  | ReplyNotOk error =>
      (Threw (JsError (or_else (err_error error)
                         "Невірне ім'я користувача або пароль")), b)
  | ReplyOk authResponse => (Returned authResponse, storeAuthData authResponse b)
  end.

Definition logout (b : Browser) : Browser := clearAuthData b.

Definition getCurrentUser (answer : Reply unit User) (b : Browser)
  : Outcome (option User) * Browser :=
  match truthy (getToken b) with
  | None => (Returned None, b)
  | Some t =>
      let b := send (GetMe t) b in
      match answer with
      | ReplyRejects _ => (Returned None, clearAuthData b)
      | ReplyNotOk _ => (Returned None, clearAuthData b)
      | ReplyOk user => (Returned (Some user), b)
      end
  end.

Definition notAuthorized : Thrown := JsError "Не авторизовано".

Definition getAnalysisHistory {A} (answer : Reply unit A) (b : Browser)
  : Outcome A * Browser :=
  match truthy (getToken b) with
  | None => (Threw notAuthorized, b)
  | Some t =>
      let b := send (GetHistory t) b in
      match answer with
      | ReplyRejects e => (Threw e, b)
      | ReplyNotOk _ => (Threw (JsError "Не вдалося завантажити історію"), b)
      | ReplyOk body => (Returned body, b)
      end
  end.

Definition getUserStatistics {A} (answer : Reply unit A) (b : Browser)
  : Outcome A * Browser :=
  match truthy (getToken b) with
  | None => (Threw notAuthorized, b)
  | Some t =>
      let b := send (GetStatistics t) b in
      match answer with
      | ReplyRejects e => (Threw e, b)
      | ReplyNotOk _ => (Threw (JsError "Не вдалося завантажити статистику"), b)
      | ReplyOk body => (Returned body, b)
      end
  end.

Definition getUserSettings {A} (answer : Reply unit A) (b : Browser)
  : Outcome A * Browser :=
  match truthy (getToken b) with
  | None => (Threw notAuthorized, b)
  | Some t =>
      let b := send (GetSettings t) b in
      match answer with
      | ReplyRejects e => (Threw e, b)
      | ReplyNotOk _ => (Threw (JsError "Не вдалося завантажити налаштування"), b)
      | ReplyOk body => (Returned body, b)
      end
  end.

Definition updateUserSettings {A} (answer : Reply unit A) (b : Browser)
  : Outcome A * Browser :=
  match truthy (getToken b) with
  | None => (Threw notAuthorized, b)
  | Some t =>
      let b := send (PutSettings t) b in
      match answer with
      | ReplyRejects e => (Threw e, b)
      | ReplyNotOk _ => (Threw (JsError "Не вдалося зберегти налаштування"), b)
      | ReplyOk body => (Returned body, b)
      end
  end.

(** [updateExperienceLevel]; the body of the response is not read. *)
Definition updateExperienceLevel (level : ExperienceLevel) (answer : Reply unit unit)
  (b : Browser) : Outcome User * Browser :=
  match truthy (getToken b) with
  | None => (Threw notAuthorized, b)
  | Some t =>
      let b := send (PatchExperience t level) b in
      match answer with
      | ReplyRejects e => (Threw e, b)
      | ReplyNotOk _ => (Threw (JsError "Не вдалося оновити рівень досвіду"), b)
      | ReplyOk _ =>
          match updateStoredUser
                  {| new_username := None; new_email := None; new_role := None;
                     new_experienceLevel := Some level |} b with
          | (None, b') => (Threw (JsError "Не вдалося оновити дані користувача"), b')
          | (Some updatedUser, b') => (Returned updatedUser, b')
          end
      end
  end.

(** ** context/AuthContext.tsx *)

(** The provider's React state. *)
Record AuthState := {
  user : option User;
  isLoading : bool
}.

Definition initialAuthState : AuthState := {| user := None; isLoading := true |}.

Definition userOf (response : AuthResponse) : User :=
  {| username := resp_username response; email := resp_email response;
     role := resp_role response; experienceLevel := resp_experienceLevel response |}.

(** The effect that runs when the provider is mounted. *)
Definition onMount (p : AuthState * Browser) : AuthState * Browser :=
  let b := snd p in
  ({| user := match getUser b with
              | Some storedUser =>
                  if isAuthenticated b then Some storedUser else user (fst p)
              | None => user (fst p)
              end;
      isLoading := false |}, b).

(** The provider's [login], [register], [logout] and [updateUser]; the
    first three wrap the functions of the service. *)
Definition providerLogin (data : LoginRequest) (answer : Reply ErrorBody AuthResponse)
  (p : AuthState * Browser) : Outcome AuthResponse * (AuthState * Browser) :=
  match login data answer (snd p) with
  | (Returned response, b) =>
      (Returned response,
       ({| user := Some (userOf response); isLoading := isLoading (fst p) |}, b))
  | (Threw e, b) => (Threw e, (fst p, b))
  | (Awaiting, b) => (Awaiting, (fst p, b))
  end.

Definition providerRegister (data : RegisterRequest)
  (answer : Reply ErrorBody AuthResponse) (p : AuthState * Browser)
  : Outcome AuthResponse * (AuthState * Browser) :=
  match register data answer (snd p) with
  | (Returned response, b) =>
      (Returned response,
       ({| user := Some (userOf response); isLoading := isLoading (fst p) |}, b))
  | (Threw e, b) => (Threw e, (fst p, b))
  | (Awaiting, b) => (Awaiting, (fst p, b))
  end.

Definition providerLogout (p : AuthState * Browser) : AuthState * Browser :=
  ({| user := None; isLoading := isLoading (fst p) |}, logout (snd p)).

Definition updateUser (updates : UserUpdates) (p : AuthState * Browser)
  : AuthState * Browser :=
  match user (fst p) with
  | Some u => ({| user := Some (spread u updates); isLoading := isLoading (fst p) |},
               snd p)
  | None => p
  end.

Definition ExperienceLevel_eqb (x y : ExperienceLevel) : bool :=
  match x, y with
  | STUDENT, STUDENT | JUNIOR, JUNIOR | ADVANCED, ADVANCED => true
  | _, _ => false
  end.

(** The block of [handleSave] of the configuration modal that saves the
    experience level: only for a user whose level differs, and a failure
    is caught. *)
Definition saveExperienceLevel (level : ExperienceLevel) (answer : Reply unit unit)
  (p : AuthState * Browser) : AuthState * Browser :=
  match user (fst p) with
  | Some u =>
      if negb (ExperienceLevel_eqb level (experienceLevel u)) then
        match updateExperienceLevel level answer (snd p) with
        | (Returned updatedUser, b) =>
            updateUser {| new_username := None; new_email := None; new_role := None;
                          new_experienceLevel := Some (experienceLevel updatedUser) |}
              (fst p, b)
        | (_, b) => (fst p, b)
        end
      else p
  | None => p
  end.

(** What the application does with the provider. *)
Inductive AuthAction :=
| Mount
| Login (data : LoginRequest) (answer : Reply ErrorBody AuthResponse)
| Register (data : RegisterRequest) (answer : Reply ErrorBody AuthResponse)
| Logout
| SaveExperience (level : ExperienceLevel) (answer : Reply unit unit).

Definition authStep (a : AuthAction) (p : AuthState * Browser) : AuthState * Browser :=
  match a with
  | Mount => onMount p
  | Login data answer => snd (providerLogin data answer p)
  | Register data answer => snd (providerRegister data answer p)
  | Logout => providerLogout p
  | SaveExperience level answer => saveExperienceLevel level answer p
  end.

Definition authRun (actions : list AuthAction) (p : AuthState * Browser)
  : AuthState * Browser :=
  foldl (fun p a => authStep a p) p actions.

(** The provider's user, when set, is the stored user, and a token is
    stored. *)
Definition providerAgrees (p : AuthState * Browser) : Prop :=
  forall u, user (fst p) = Some u ->
            getUser (snd p) = Some u /\ exists t, getToken (snd p) = Some t.

Definition emptyBrowser : Browser := {| tokenItem := None; userItem := None; sent := [] |}.

Definition sampleResponse : AuthResponse :=
  {| token := "eyJhbGciOiJIUzI1NiJ9"; resp_username := "olena";
     resp_email := "olena@example.com"; resp_role := "USER";
     resp_experienceLevel := STUDENT |}.

Definition sampleLogin : LoginRequest :=
  {| login_username := "olena"; login_password := "secret" |}.

(** The browser after a successful login. *)
Definition loggedIn : Browser :=
  snd (login sampleLogin (ReplyOk sampleResponse) emptyBrowser).

(** A call that signs in: it sends [request]; an [ok] response is returned
    and replaces the stored token and user, after which a request of the
    service carries the new token, unless it is empty; any other answer
    makes the call throw, with a message that is not empty when the
    response was not [ok], and leaves the stored items as they were. *)
Definition storesCredentials
  (call : Reply ErrorBody AuthResponse -> Browser -> Outcome AuthResponse * Browser)
  (request : Request) : Prop :=
  forall answer b,
    let r := call answer b in
    sent (snd r) = sent b ++ [request]
    /\ (forall response, answer = ReplyOk response ->
          fst r = Returned response
          /\ getToken (snd r) = Some (token response)
          /\ getUser (snd r) = Some (userOf response)
          /\ (isAuthenticated (snd r) = true <-> token response <> "")
          /\ (token response <> "" ->
              forall (next : Reply unit unit),
                sent (snd (getAnalysisHistory next (snd r)))
                = sent (snd r) ++ [GetHistory (token response)]))
    /\ ((forall response, answer <> ReplyOk response) ->
          (exists e, fst r = Threw e
                     /\ forall error, answer = ReplyNotOk error ->
                                      exists m, e = JsError m /\ m <> "")
          /\ getToken (snd r) = getToken b
          /\ getUser (snd r) = getUser b).

(** ** The user dashboard *)

Record AnalysisHistoryItem := {
  item_id : Z;
  item_status : string;
  item_errorMessage : option string;
  item_createdAt : string;
  item_repoUrl : string;
  violationsCount : option Z
}.

Record SavedRepository := {
  repo_id : nat;
  repo_repoUrl : string;
  repo_name : string;
  lastAnalyzedAt : option string;
  analysisCount : nat
}.

Fixpoint dropChars (n : nat) (s : string) : string :=
  match n, s with
  | 0, _ => s
  | S n', String _ rest => dropChars n' rest
  | S _, "" => ""
  end.

(** [s.replace(pattern, '')] for a string pattern: its first occurrence is
    removed. *)
Fixpoint removeFirst (pattern s : string) : string :=
  if String.prefix pattern s then dropChars (String.length pattern) s
  else match s with
       | "" => ""
       | String c rest => String c (removeFirst pattern rest)
       end.

(** [s.split(sep)] for a separator of one character. *)
Fixpoint split (sep : Ascii.ascii) (s : string) : list string :=
  match s with
  | "" => [""]
  | String c rest =>
      if Ascii.eqb c sep then "" :: split sep rest
      else match split sep rest with
           | part :: parts => String c part :: parts
           | [] => [String c ""]
           end
  end.

(** The character [/]. *)
Definition slash : Ascii.ascii := Ascii.ascii_of_nat 47.

(** [extractRepoName] of the dashboard. *)
Definition extractRepoName (url : string) : string :=
  String.concat "/" (take 2 (split slash (removeFirst "https://github.com/" url))).

(** A [Map] from URL to repository: the entries in insertion order. *)
Definition RepoMap : Type := list (string * SavedRepository).

Definition has (url : string) (m : RepoMap) : bool :=
  existsb (fun kv => String.eqb (fst kv) url) m.

(** [repoMap.get(url)!.analysisCount++]. *)
Definition countUp (r : SavedRepository) : SavedRepository :=
  {| repo_id := repo_id r; repo_repoUrl := repo_repoUrl r; repo_name := repo_name r;
     lastAnalyzedAt := lastAnalyzedAt r; analysisCount := S (analysisCount r) |}.

Definition increment (url : string) (m : RepoMap) : RepoMap :=
  map (fun kv => if String.eqb (fst kv) url then (fst kv, countUp (snd kv)) else kv) m.

(** The callback of [historyData.forEach] in [loadData]. *)
Definition addItem (index : nat) (item : AnalysisHistoryItem) (m : RepoMap) : RepoMap :=
  let url := item_repoUrl item in
  if negb (has url m) then
    m ++ [(url, {| repo_id := index; repo_repoUrl := url;
                   repo_name := extractRepoName url;
                   lastAnalyzedAt := Some (item_createdAt item);
                   analysisCount := 1 |})]
  else increment url m.

Fixpoint forEachFrom (index : nat) (items : list AnalysisHistoryItem) (m : RepoMap)
  : RepoMap :=
  match items with
  | [] => m
  | item :: rest => forEachFrom (S index) rest (addItem index item m)
  end.

(** The repositories that [loadData] extracts from the history:
    [Array.from(repoMap.values())]. *)
Definition collectRepositories (historyData : list AnalysisHistoryItem)
  : list SavedRepository :=
  map snd (forEachFrom 0 historyData []).

(** [Array.prototype.sort] with [(a, b) => b.analysisCount - a.analysisCount]:
    the sort is stable, which fixes its result. *)
Fixpoint insertByCount (r : SavedRepository) (sorted : list SavedRepository)
  : list SavedRepository :=
  match sorted with
  | [] => [r]
  | y :: rest =>
      if (analysisCount r <? analysisCount y)%nat then y :: insertByCount r rest
      else r :: sorted
  end.

Definition sortByCount (l : list SavedRepository) : list SavedRepository :=
  foldr insertByCount [] l.

(** [getTopRepositories]: [sort] sorts the array of the state in place and
    [slice] copies its first five.  The result is the copy, paired with
    the array of the state as the call leaves it. *)
Definition getTopRepositories (savedRepos : list SavedRepository)
  : list SavedRepository * list SavedRepository :=
  let sorted := sortByCount savedRepos in
  (take 5 sorted, sorted).

(** How often [url] occurs in a history. *)
Definition occurrences (url : string) (items : list AnalysisHistoryItem) : nat :=
  length (List.filter (fun item => String.eqb (item_repoUrl item) url) items).

(** The item at [index] is the first one of [url]; it was created at
    [created]. *)
Definition firstOf (items : list AnalysisHistoryItem) (url : string) (index : nat)
  (created : option string) : Prop :=
  (exists item, items !! index = Some item /\ item_repoUrl item = url
                /\ created = Some (item_createdAt item))
  /\ forall j item, j < index -> items !! j = Some item -> item_repoUrl item <> url.

(** What the map holds after the items [done]. *)
Definition collected (done : list AnalysisHistoryItem) (m : RepoMap) : Prop :=
  NoDup (map fst m)
  /\ (forall url, has url m = true <-> 0 < occurrences url done)
  /\ Forall (fun kv =>
               repo_repoUrl (snd kv) = fst kv
               /\ repo_name (snd kv) = extractRepoName (fst kv)
               /\ analysisCount (snd kv) = occurrences (fst kv) done
               /\ firstOf done (fst kv) (repo_id (snd kv)) (lastAnalyzedAt (snd kv))) m
  /\ StronglySorted lt (map (fun kv => repo_id (snd kv)) m)
  /\ Forall (fun kv => repo_id (snd kv) < length done) m
  /\ sum_list (map (fun kv => analysisCount (snd kv)) m) = length done.

Definition sampleItem (id : Z) (url created : string) : AnalysisHistoryItem :=
  {| item_id := id; item_status := "COMPLETED"; item_errorMessage := None;
     item_createdAt := created; item_repoUrl := url; violationsCount := Some 3%Z |}.

Definition sampleHistory : list AnalysisHistoryItem :=
  [ sampleItem 9 "https://github.com/user/repo" "2025-11-17T10:00:00";
    sampleItem 8 "https://github.com/user/other" "2025-11-16T10:00:00";
    sampleItem 7 "https://github.com/user/repo" "2025-11-15T10:00:00" ].

(** The order that the comparator of [getTopRepositories] asks for. *)
Definition byCountDescending (a b : SavedRepository) : Prop :=
  analysisCount b <= analysisCount a.

(** ** data/checkstyleRules.ts *)

Record RuleInfo := {
  rule_name : string;
  rule_description : string;
  category : string
}.

(** [CHECKSTYLE_RULES]: the keys of the object with their values, in the
    order of the literal, which is the order of [Object.keys]. *)
Definition CHECKSTYLE_RULES : list (string * RuleInfo) :=
  [ ("severity",
     {| rule_name := "Рівень суворості";
        rule_description :=
          "Визначає базовий рівень суворості для всіх перевірок (warning, error, info)";
        category := "Загальні" |});
    ("lineLength",
     {| rule_name := "Максимальна довжина рядка";
        rule_description :=
          "Максимальна кількість символів у рядку коду";
        category := "Загальні" |});
    ("avoidStarImport",
     {| rule_name := "Уникати зіркових імпортів";
        rule_description :=
          "Забороняє використання import з * (наприклад, import java.util.*)";
        category := "Імпорти" |});
    ("oneTopLevelClass",
     {| rule_name := "Один клас верхнього рівня";
        rule_description :=
          "Один файл повинен містити лише один клас верхнього рівня";
        category := "Структура класу" |});
    ("outerTypeFilename",
     {| rule_name := "Відповідність імені файлу";
        rule_description :=
          "Ім'я зовнішнього типу повинно відповідати імені файлу";
        category := "Структура класу" |});
    ("finalClass",
     {| rule_name := "Final клас";
        rule_description :=
          "Клас з лише приватними конструкторами має бути final";
        category := "Структура класу" |});
    ("hideUtilityClassConstructor",
     {| rule_name := "Приховати конструктор утилітного класу";
        rule_description :=
          "Утилітні класи не повинні мати публічного конструктора";
        category := "Структура класу" |});
    ("interfaceIsType",
     {| rule_name := "Інтерфейс як тип";
        rule_description :=
          "Інтерфейс повинен описувати тип, а не лише константи";
        category := "Структура класу" |});
    ("visibilityModifier",
     {| rule_name := "Модифікатори видимості";
        rule_description :=
          "Перевіряє видимість змінних класу (поля мають бути приватними)";
        category := "Структура класу" |});
    ("noLineWrap",
     {| rule_name := "Заборона переносу рядків";
        rule_description :=
          "Заборона переносу рядків для package та import виразів";
        category := "Форматування" |});
    ("leftCurly",
     {| rule_name := "Ліва фігурна дужка";
        rule_description :=
          "Перевіряє розміщення лівої фігурної дужки";
        category := "Форматування" |});
    ("rightCurly",
     {| rule_name := "Права фігурна дужка";
        rule_description :=
          "Перевіряє розміщення правої фігурної дужки";
        category := "Форматування" |});
    ("emptyBlock",
     {| rule_name := "Порожні блоки";
        rule_description :=
          "Перевіряє порожні блоки коду (catch, finally, try тощо)";
        category := "Блоки" |});
    ("needBraces",
     {| rule_name := "Обов'язкові фігурні дужки";
        rule_description :=
          "Вимагає фігурні дужки для if, else, for, while навіть для однорядкового коду";
        category := "Блоки" |});
    ("emptyStatement",
     {| rule_name := "Порожні вирази";
        rule_description :=
          "Виявляє порожні вирази (зайві крапки з комою)";
        category := "Якість коду" |});
    ("equalsHashCode",
     {| rule_name := "Equals і HashCode";
        rule_description :=
          "Перевіряє, що клас перевизначає equals() і hashCode() разом";
        category := "Якість коду" |});
    ("illegalInstantiation",
     {| rule_name := "Заборонена ініціалізація";
        rule_description :=
          "Забороняє створення екземплярів певних класів (Boolean, String)";
        category := "Якість коду" |});
    ("missingSwitchDefault",
     {| rule_name := "Відсутня гілка default у switch";
        rule_description :=
          "Вимагає наявності default гілки в конструкції switch";
        category := "Якість коду" |});
    ("simplifyBooleanExpression",
     {| rule_name := "Спростити булеві вирази";
        rule_description :=
          "Виявляє надмірно складні булеві вирази";
        category := "Якість коду" |});
    ("simplifyBooleanReturn",
     {| rule_name := "Спростити булеве повернення";
        rule_description :=
          "Виявляє надмірно складні булеві return вирази";
        category := "Якість коду" |});
    ("illegalTokenText",
     {| rule_name := "Заборонений текст токенів";
        rule_description :=
          "Виявляє використання escape-послідовностей замість Unicode";
        category := "Токени" |});
    ("avoidEscapedUnicodeCharacters",
     {| rule_name := "Уникати екранованих Unicode";
        rule_description :=
          "Обмежує використання Unicode escape-послідовностей";
        category := "Токени" |}) ].


Definition RULE_CATEGORIES : list string :=
  [ "Загальні"; "Імпорти"; "Структура класу"; "Форматування"; "Блоки";
    "Якість коду"; "Токени" ].

(** [CHECKSTYLE_RULES[key]]. *)
Definition ruleInfo (key : string) : option RuleInfo :=
  snd <$> List.find (fun kv => String.eqb (fst kv) key) CHECKSTYLE_RULES.

Definition getRulesByCategory (cat : string) : list string :=
  List.filter (fun key => match ruleInfo key with
                          | Some rule => String.eqb (category rule) cat
                          | None => false
                          end)
    (map fst CHECKSTYLE_RULES).

(** ** components/ConfigurationModal.tsx *)

(** The values of the fields of a configuration object. *)
Inductive Value :=
| VBool (b : bool)
| VNumber (n : Z)
| VString (s : string).

(** A configuration object: its fields by name. *)
Abbreviation Config := (gmap string Value).

(** Whether [config[field]] is truthy; an absent field is [undefined]. *)
Definition truthyValue (v : option Value) : bool :=
  match v with
  | Some (VBool b) => b
  | Some (VNumber n) => negb (n =? 0)%Z
  | Some (VString s) => negb (String.eqb s "")
  | None => false
  end.

(** The fields that [handleEnableAll] sets, in the order of its object
    literal. *)
Definition enabledByEnableAll : list string :=
  [ "avoidStarImport"; "oneTopLevelClass"; "noLineWrap"; "emptyBlock";
    "needBraces"; "leftCurly"; "rightCurly"; "emptyStatement";
    "equalsHashCode"; "illegalInstantiation"; "missingSwitchDefault";
    "simplifyBooleanExpression"; "simplifyBooleanReturn"; "finalClass";
    "hideUtilityClassConstructor"; "interfaceIsType"; "visibilityModifier";
    "outerTypeFilename"; "illegalTokenText"; "avoidEscapedUnicodeCharacters" ].

(** The fields that [handleDisableAll] sets. *)
Definition disabledByDisableAll : list string :=
  [ "avoidStarImport"; "oneTopLevelClass"; "noLineWrap"; "emptyBlock";
    "needBraces"; "leftCurly"; "rightCurly"; "emptyStatement";
    "equalsHashCode"; "illegalInstantiation"; "missingSwitchDefault";
    "simplifyBooleanExpression"; "simplifyBooleanReturn"; "finalClass";
    "hideUtilityClassConstructor"; "interfaceIsType"; "visibilityModifier";
    "outerTypeFilename"; "illegalTokenText"; "avoidEscapedUnicodeCharacters" ].

(** [booleanFields] of [getEnabledRulesCount]. *)
Definition booleanFields : list string :=
  [ "avoidStarImport"; "oneTopLevelClass"; "noLineWrap"; "emptyBlock";
    "needBraces"; "leftCurly"; "rightCurly"; "emptyStatement";
    "equalsHashCode"; "illegalInstantiation"; "missingSwitchDefault";
    "simplifyBooleanExpression"; "simplifyBooleanReturn"; "finalClass";
    "hideUtilityClassConstructor"; "interfaceIsType"; "visibilityModifier";
    "outerTypeFilename"; "illegalTokenText"; "avoidEscapedUnicodeCharacters" ].

(** [{ ...config, field1: b, field2: b, ... }]. *)
Definition setFields (b : bool) (fields : list string) (config : Config) : Config :=
  foldl (fun c field => <[field := VBool b]> c) config fields.

(** The handlers act on the [config] of the state, which is [null] until
    the configuration is loaded. *)
Definition handleEnableAll (config : option Config) : option Config :=
  match config with
  | None => None
  | Some c => Some (setFields true enabledByEnableAll c)
  end.

Definition handleDisableAll (config : option Config) : option Config :=
  match config with
  | None => None
  | Some c => Some (setFields false disabledByDisableAll c)
  end.

Definition updateField (field : string) (value : Value) (config : option Config)
  : option Config :=
  match config with
  | None => None
  | Some c => Some (<[field := value]> c)
  end.

Definition getEnabledRulesCount (config : option Config) : nat :=
  match config with
  | None => 0
  | Some c => length (List.filter (fun field => truthyValue (c !! field)) booleanFields)
  end.

(** The fields of [updateDto] in [handleSave]. *)
Definition updateDtoFields : list string :=
  [ "charset"; "severity"; "lineLength"; "avoidStarImport";
    "oneTopLevelClass"; "noLineWrap"; "emptyBlock"; "needBraces";
    "leftCurly"; "rightCurly"; "emptyStatement"; "equalsHashCode";
    "illegalInstantiation"; "missingSwitchDefault";
    "simplifyBooleanExpression"; "simplifyBooleanReturn"; "finalClass";
    "hideUtilityClassConstructor"; "interfaceIsType"; "visibilityModifier";
    "outerTypeFilename"; "illegalTokenText"; "avoidEscapedUnicodeCharacters" ].

(** [updateDto] as it is serialised: a field that the configuration lacks
    is [undefined] and left out. *)
Definition updateDto (config : Config) : Config :=
  foldl (fun dto field => match config !! field with
                          | Some v => <[field := v]> dto
                          | None => dto
                          end) ∅ updateDtoFields.

(** The rules that the modal shows with a check box: those of every
    category but the general one, category by category. *)
Definition shownRules : list string :=
  flat_map getRulesByCategory
    (List.filter (fun cat => negb (String.eqb cat "Загальні")) RULE_CATEGORIES).

(** [config?.[field]]. *)
Definition fieldOf (config : option Config) (field : string) : option Value :=
  match config with
  | Some c => c !! field
  | None => None
  end.

(** ** context/ThemeContext.tsx *)

Inductive Theme := light | dark.

Definition themeName (t : Theme) : string :=
  match t with
  | light => "light"
  | dark => "dark"
  end.

(** The provider's state, the item of [localStorage] under [THEME_KEY]
    and the [data-theme] attribute of the document. *)
Record ThemePage := {
  theme : Theme;
  themeItem : option string;
  dataTheme : option string
}.

(** The initialiser of [useState]. *)
Definition savedTheme (item : option string) : Theme :=
  match item with
  | Some saved =>
      if String.eqb saved "light" then light
      else if String.eqb saved "dark" then dark
      else dark
  | None => dark
  end.

(** The effect on [theme]. *)
Definition themeEffect (p : ThemePage) : ThemePage :=
  {| theme := theme p; themeItem := Some (themeName (theme p));
     dataTheme := Some (themeName (theme p)) |}.

(** The provider is mounted in a browser that holds [item]. *)
Definition mountTheme (item : option string) : ThemePage :=
  themeEffect {| theme := savedTheme item; themeItem := item; dataTheme := None |}.

Definition toggleTheme (p : ThemePage) : ThemePage :=
  themeEffect {| theme := match theme p with dark => light | light => dark end;
                 themeItem := themeItem p; dataTheme := dataTheme p |}.

(** ** components/HistoryModal.tsx *)

Record UserStatistics := {
  totalAnalyses : Z;
  completedAnalyses : Z;
  failedAnalyses : Z;
  totalViolations : Z;
  uniqueRepositories : Z
}.

(** The modal's React state that [loadData] sets. *)
Record HistoryPage := {
  history : list AnalysisHistoryItem;
  stats : option UserStatistics;
  historyLoading : bool
}.

(** [loadData]: [Promise.all] is given the promises of both calls, so both
    calls have run to their first [await] before either answer is read. *)
Definition loadData (historyAnswer : Reply unit (list AnalysisHistoryItem))
  (statsAnswer : Reply unit UserStatistics) (p : HistoryPage * Browser)
  : HistoryPage * Browser :=
  let historyCall := getAnalysisHistory historyAnswer (snd p) in
  let statsCall := getUserStatistics statsAnswer (snd historyCall) in
  match fst historyCall, fst statsCall with
  | Returned historyData, Returned statsData =>
      ({| history := historyData; stats := Some statsData; historyLoading := false |},
       snd statsCall)
  | _, _ =>
      ({| history := history (fst p); stats := stats (fst p);
          historyLoading := false |},
       snd statsCall)
  end.

(** ** The dashboard's page *)

(** What the dashboard's own [fetch] gives: the call rejects, the response
    is not [ok], or it is [ok] and its body reader gives the JSON body or
    rejects. *)
Inductive Fetched (A : Type) :=
| FetchRejected (e : Thrown)
| ResponseNotOk
| ResponseOk (json : option A).

Arguments FetchRejected {A}.
Arguments ResponseNotOk {A}.
Arguments ResponseOk {A}.

(** The dashboard's React state that [loadData] sets. *)
Record DashboardPage := {
  statistics : option UserStatistics;
  dashboardHistory : list AnalysisHistoryItem;
  savedRepos : list SavedRepository;
  dashboardLoading : bool
}.

Definition initialDashboard : DashboardPage :=
  {| statistics := None; dashboardHistory := []; savedRepos := [];
     dashboardLoading := true |}.

Definition setStatistics (stats : UserStatistics) (d : DashboardPage) : DashboardPage :=
  {| statistics := Some stats; dashboardHistory := dashboardHistory d;
     savedRepos := savedRepos d; dashboardLoading := dashboardLoading d |}.

Definition setHistoryAndRepos (historyData : list AnalysisHistoryItem)
  (d : DashboardPage) : DashboardPage :=
  {| statistics := statistics d; dashboardHistory := historyData;
     savedRepos := collectRepositories historyData;
     dashboardLoading := dashboardLoading d |}.

Definition setDashboardLoading (b : bool) (d : DashboardPage) : DashboardPage :=
  {| statistics := statistics d; dashboardHistory := dashboardHistory d;
     savedRepos := savedRepos d; dashboardLoading := b |}.

(** The [try] block of the dashboard's [loadData] after both requests
    were sent; the flag tells whether it ran to its end. *)
Definition readResponses (statsRes : Fetched UserStatistics)
  (historyRes : Fetched (list AnalysisHistoryItem)) (d : DashboardPage)
  : DashboardPage * bool :=
  match statsRes, historyRes with
  | FetchRejected _, _ | _, FetchRejected _ => (d, false)
  | ResponseOk None, _ => (d, false)
  | ResponseOk (Some stats), ResponseOk None => (setStatistics stats d, false)
  | ResponseOk (Some stats), ResponseOk (Some historyData) =>
      (setHistoryAndRepos historyData (setStatistics stats d), true)
  | ResponseOk (Some stats), ResponseNotOk => (setStatistics stats d, true)
  | ResponseNotOk, ResponseOk None => (d, false)
  | ResponseNotOk, ResponseOk (Some historyData) =>
      (setHistoryAndRepos historyData d, true)
  | ResponseNotOk, ResponseNotOk => (d, true)
  end.

(** The dashboard's [loadData]: both requests are sent with the headers of
    [getAuthHeaders]; an error is written to the console only. *)
Definition dashboardLoadData (statsRes : Fetched UserStatistics)
  (historyRes : Fetched (list AnalysisHistoryItem)) (p : DashboardPage * Browser)
  : DashboardPage * Browser :=
  let b := send (FetchHistory (getAuthHeaders (snd p)))
             (send (FetchStatistics (getAuthHeaders (snd p))) (snd p)) in
  (setDashboardLoading false
     (fst (readResponses statsRes historyRes (setDashboardLoading true (fst p)))),
   b).

(** Rendering the overview tab calls [getTopRepositories], which sorts the
    array of the state. *)
Definition renderOverview (p : DashboardPage * Browser) : DashboardPage * Browser :=
  ({| statistics := statistics (fst p); dashboardHistory := dashboardHistory (fst p);
      savedRepos := snd (getTopRepositories (savedRepos (fst p)));
      dashboardLoading := dashboardLoading (fst p) |}, snd p).

Inductive DashboardAction :=
| LoadData (statsRes : Fetched UserStatistics)
    (historyRes : Fetched (list AnalysisHistoryItem))
| RenderOverview.

Definition dashboardStep (a : DashboardAction) (p : DashboardPage * Browser)
  : DashboardPage * Browser :=
  match a with
  | LoadData statsRes historyRes => dashboardLoadData statsRes historyRes p
  | RenderOverview => renderOverview p
  end.

Definition dashboardRun (actions : list DashboardAction) (p : DashboardPage * Browser)
  : DashboardPage * Browser :=
  foldl (fun p a => dashboardStep a p) p actions.

(** The repositories of the state are those of the history of the state,
    in some order. *)
Definition reposOfHistory (d : DashboardPage) : Prop :=
  savedRepos d ≡ₚ collectRepositories (dashboardHistory d).

(** ** components/AuthModal.tsx *)

(** [s.length]: the number of UTF-16 code units of the string whose UTF-8
    bytes are [s].  A byte below 0x80 and the first byte of a sequence of
    two or three bytes stand for one code unit, the first byte of a
    sequence of four bytes for two, a continuation byte for none. *)
Fixpoint utf16Length (s : string) : nat :=
  match s with
  | "" => 0
  | String c rest =>
      let n := Ascii.N_of_ascii c in
      (if (n <? 0x80)%N then 1
       else if (n <? 0xC0)%N then 0
       else if (n <? 0xF0)%N then 1
       else 2) + utf16Length rest
  end.

Inductive Toast :=
| ToastSuccess (text : string)
| ToastError (text : string).

(** The modal's React state that [handleRegister] uses and, as ghost state,
    the toasts shown and the number of calls of [onClose]. *)
Record AuthModalState := {
  isSubmitting : bool;
  loginUsername : string;
  loginPassword : string;
  registerUsername : string;
  registerEmail : string;
  registerPassword : string;
  registerConfirmPassword : string;
  toasts : list Toast;
  closed : nat
}.

Definition showToast (t : Toast) (m : AuthModalState) : AuthModalState :=
  {| isSubmitting := isSubmitting m; loginUsername := loginUsername m;
     loginPassword := loginPassword m; registerUsername := registerUsername m;
     registerEmail := registerEmail m; registerPassword := registerPassword m;
     registerConfirmPassword := registerConfirmPassword m;
     toasts := toasts m ++ [t]; closed := closed m |}.

Definition setIsSubmitting (b : bool) (m : AuthModalState) : AuthModalState :=
  {| isSubmitting := b; loginUsername := loginUsername m;
     loginPassword := loginPassword m; registerUsername := registerUsername m;
     registerEmail := registerEmail m; registerPassword := registerPassword m;
     registerConfirmPassword := registerConfirmPassword m;
     toasts := toasts m; closed := closed m |}.

Definition onClose (m : AuthModalState) : AuthModalState :=
  {| isSubmitting := isSubmitting m; loginUsername := loginUsername m;
     loginPassword := loginPassword m; registerUsername := registerUsername m;
     registerEmail := registerEmail m; registerPassword := registerPassword m;
     registerConfirmPassword := registerConfirmPassword m;
     toasts := toasts m; closed := S (closed m) |}.

Definition resetForms (m : AuthModalState) : AuthModalState :=
  {| isSubmitting := isSubmitting m; loginUsername := ""; loginPassword := "";
     registerUsername := ""; registerEmail := ""; registerPassword := "";
     registerConfirmPassword := ""; toasts := toasts m; closed := closed m |}.

(** [handleRegister]; [register] is the provider's. *)
Definition handleRegister (answer : Reply ErrorBody AuthResponse)
  (w : AuthModalState * (AuthState * Browser))
  : AuthModalState * (AuthState * Browser) :=
  let m := fst w in
  if negb (String.eqb (registerPassword m) (registerConfirmPassword m)) then
    (showToast (ToastError "Паролі не співпадають") m, snd w)
  else if (utf16Length (registerPassword m) <? 6)%nat then
    (showToast (ToastError "Пароль має бути не менше 6 символів") m, snd w)
  else
    let m := setIsSubmitting true m in
    match providerRegister {| reg_username := registerUsername m;
                              reg_email := registerEmail m;
                              reg_password := registerPassword m |}
            answer (snd w) with
    | (Returned _, p) =>
        (setIsSubmitting false
           (resetForms (onClose (showToast (ToastSuccess "Реєстрація успішна!") m))),
         p)
    | (Threw e, p) =>
        (setIsSubmitting false
           (showToast (ToastError match e with
                                  | JsError text => text
                                  | NonError => "Помилка реєстрації"
                                  end) m),
         p)
    | (Awaiting, p) => (m, p)
    end.

(** The registration form filled in, with a password of six Cyrillic
    letters. *)
Definition filledRegistration : AuthModalState :=
  {| isSubmitting := false; loginUsername := ""; loginPassword := "";
     registerUsername := "olena"; registerEmail := "olena@example.com";
     registerPassword := "пароль"; registerConfirmPassword := "пароль";
     toasts := []; closed := 0 |}.

(** ** Basic facts *)

Lemma prefix_spec (p s : string) :
  String.prefix p s = true <-> exists rest, s = p +:+ rest.
Proof.
  revert s. induction p as [|a p IH]; intros [|b s]; simpl.
  - split; [intros _; exists ""; reflexivity | reflexivity].
  - split; [intros _; exists (String b s); reflexivity | reflexivity].
  - split; [discriminate | intros [rest H]; discriminate].
  - destruct (Ascii.ascii_dec a b) as [->|Hne].
    + rewrite IH. split; intros [rest H]; exists rest.
      * now rewrite H.
      * now inversion H.
    + split; [discriminate | intros [rest H]; inversion H; congruence].
Qed.

Lemma signalsCompletion_spec (e : LogEntry) :
  signalsCompletion e = true
  <-> (exists rest, message e = completionMarker +:+ rest) \/ level e = ERROR.
Proof.
  unfold signalsCompletion. rewrite orb_true_iff, prefix_spec, bool_decide_eq_true.
  tauto.
Qed.

Lemma count_app (p : Event -> bool) (a b : list Event) :
  count p (a ++ b) = count p a + count p b.
Proof. unfold count. now rewrite List.filter_app, length_app. Qed.

Lemma filter_channel_nil (p : Event -> bool) (added : list Event) :
  (forall e, is_channel_event e = true -> p e = false) ->
  Forall (fun e => is_channel_event e = true) added ->
  List.filter p added = [].
Proof.
  intros Hp. induction 1 as [|e l He _ IH]; simpl; [reflexivity|].
  now rewrite (Hp e He).
Qed.

Section TraceFacts.
Context {S : Type}.
Implicit Types w : World S.

Lemma channelTrace_refl w : channelTrace w w.
Proof. exists []. split; [now rewrite app_nil_r | constructor]. Qed.

Lemma channelTrace_same w w' : trace w' = trace w -> channelTrace w w'.
Proof. intros H. exists []. split; [now rewrite app_nil_r | constructor]. Qed.

Lemma channelTrace_one e w w' :
  trace w' = trace w ++ [e] -> is_channel_event e = true -> channelTrace w w'.
Proof. intros H He. exists [e]. split; [exact H | now constructor]. Qed.

Lemma channelTrace_trans w1 w2 w3 :
  channelTrace w1 w2 -> channelTrace w2 w3 -> channelTrace w1 w3.
Proof.
  intros (a & Ha & Fa) (b & Hb & Fb). exists (a ++ b). split.
  - now rewrite Hb, Ha, app_assoc.
  - now apply Forall_app.
Qed.

Lemma channelTrace_filter (p : Event -> bool) w w' :
  (forall e, is_channel_event e = true -> p e = false) ->
  channelTrace w w' ->
  List.filter p (trace w') = List.filter p (trace w).
Proof.
  intros Hp (added & -> & Hadded).
  now rewrite List.filter_app, (filter_channel_nil p added Hp Hadded), app_nil_r.
Qed.

Lemma disconnect_channelTrace w : channelTrace w (disconnectWebSocket w).
Proof.
  unfold disconnectWebSocket. cbn. destruct (stompClient w) as [d|]; cbn.
  - exists [DisconnectCall; Deactivate d]. split.
    + cbn. now rewrite <- app_assoc.
    + repeat constructor.
  - exists [DisconnectCall]. split; [reflexivity | repeat constructor].
Qed.

Lemma messageHandler_channelTrace (h : Handler S) e w :
  channelTrace w (messageHandler h e w).
Proof.
  unfold messageHandler. destruct (signalsCompletion e).
  - eapply channelTrace_trans; [|apply disconnect_channelTrace].
    now apply (channelTrace_one (CompletionSignal (h_requestId h))).
  - now apply channelTrace_same.
Qed.

Lemma dispatch_channelTrace ev w : channelTrace w (dispatch ev w).
Proof.
  destruct ev as [c|c k e|c]; cbn.
  - destruct (clients w !! c) as [cl|]; [|apply channelTrace_refl].
    unfold onConnect. cbn. destruct (stompClient w) as [d|].
    + destruct (alter (set_connected true) c (clients w) !! d) as [held|].
      * destruct (connected held).
        -- eapply channelTrace_one; reflexivity.
        -- exists []. now rewrite app_nil_r.
      * exists []. now rewrite app_nil_r.
    + exists []. now rewrite app_nil_r.
  - destruct (clients w !! c) as [cl|]; [|apply channelTrace_refl].
    destruct (subscriptions cl !! k) as [h|]; [|apply channelTrace_refl].
    apply messageHandler_channelTrace.
  - destruct (clients w !! c) as [cl|]; [|apply channelTrace_refl].
    eapply channelTrace_one; reflexivity.
Qed.

Lemma deliver_channelTrace evs w : channelTrace w (deliver evs w).
Proof.
  revert w. induction evs as [|ev evs IH]; intros w; simpl.
  - apply channelTrace_refl.
  - eapply channelTrace_trans; [apply dispatch_channelTrace | apply IH].
Qed.

Lemma deliver_filter (p : Event -> bool) evs w :
  (forall e, is_channel_event e = true -> p e = false) ->
  List.filter p (trace (deliver evs w)) = List.filter p (trace w).
Proof. intros Hp. apply channelTrace_filter; [exact Hp | apply deliver_channelTrace]. Qed.

End TraceFacts.

(** ** The page's invariant: every client carries the App's callbacks *)

Lemma sameSession_refl s : sameSession s s.
Proof. now repeat split. Qed.

Lemma logsGrow_refl s : logsGrow s s.
Proof. split; [apply sameSession_refl | exists []; now rewrite app_nil_r]. Qed.

Lemma logsGrow_trans s1 s2 s3 : logsGrow s1 s2 -> logsGrow s2 s3 -> logsGrow s1 s3.
Proof.
  intros [(r1 & a1 & c1 & t1) [x1 l1]] [(r2 & a2 & c2 & t2) [x2 l2]].
  split; [repeat split; congruence|].
  exists (x1 ++ x2). now rewrite l2, l1, app_assoc.
Qed.

Lemma logsGrow_append s entry : logsGrow s (setLogs (fun prev => prev ++ [entry]) s).
Proof. split; [now repeat split | now exists [entry]]. Qed.

Lemma appWorld_initial : appWorld initialApp.
Proof. constructor. Qed.

Lemma appWorld_ui (f : AppState -> AppState) w : appWorld w -> appWorld (set_ui f w).
Proof. exact id. Qed.

Lemma appWorld_note e w : appWorld w -> appWorld (note e w).
Proof. exact id. Qed.

Lemma appWorld_disconnect w : appWorld w -> appWorld (disconnectWebSocket w).
Proof.
  unfold appWorld, disconnectWebSocket. cbn. intros H.
  destruct (stompClient w) as [d|]; cbn; [|exact H].
  apply Forall_alter; [exact H|]. now intros c _ [Hc Hs].
Qed.

Lemma appWorld_connect requestId w :
  appWorld w -> appWorld (connectWebSocket requestId onLogEntry onSocketClosed w).
Proof.
  unfold appWorld, connectWebSocket. cbn. intros H.
  apply Forall_alter; [|now intros c _ [Hc Hs]].
  apply Forall_app. split; [exact H|].
  repeat constructor.
Qed.

Lemma messageHandler_app (h : Handler AppState) e w :
  appHandler h -> appWorld w ->
  appWorld (messageHandler h e w) /\ logsGrow (ui w) (ui (messageHandler h e w))
  /\ length (clients (messageHandler h e w)) = length (clients w).
Proof.
  intros [Hlog Hdone] Hw. unfold messageHandler. rewrite Hlog, Hdone.
  destruct (signalsCompletion e).
  - split; [now apply appWorld_disconnect|]. split.
    + unfold disconnectWebSocket; cbn. destruct (stompClient w); cbn;
        (eapply logsGrow_trans; [apply logsGrow_append|apply logsGrow_append]).
    + unfold disconnectWebSocket; cbn. destruct (stompClient w); cbn;
        [apply length_alter | reflexivity].
  - split; [exact Hw|]. split; [apply logsGrow_append | reflexivity].
Qed.

Lemma dispatch_app ev w :
  appWorld w ->
  appWorld (dispatch ev w) /\ logsGrow (ui w) (ui (dispatch ev w))
  /\ length (clients (dispatch ev w)) = length (clients w).
Proof.
  intros Hw.
  assert (Hsame : appWorld w /\ logsGrow (ui w) (ui w)
                  /\ length (clients w) = length (clients w))
    by (split; [exact Hw | split; [apply logsGrow_refl | reflexivity]]).
  destruct ev as [c|c k e|c]; cbn.
  - destruct (clients w !! c) as [cl|] eqn:Hc; [|exact Hsame].
    destruct (Forall_lookup_1 _ _ _ _ Hw Hc) as [[Hlog Hdone] Hsubs].
    assert (Hw' : Forall (fun x => appHandler (config x)
                                   /\ Forall appHandler (subscriptions x))
                         (alter (set_connected true) c (clients w)))
      by (apply Forall_alter; [exact Hw | now intros x _ [Hx Hxs]]).
    unfold onConnect. cbn. rewrite Hlog.
    destruct (stompClient w) as [d|]; cbn.
    + destruct (alter (set_connected true) c (clients w) !! d) as [held|]; cbn;
        [destruct (connected held); cbn|].
      * split; [|split; [apply logsGrow_append
                        | now rewrite !length_alter]].
        apply Forall_alter; [exact Hw'|]. intros x _ [Hx Hxs]. split; [exact Hx|].
        cbn. apply Forall_app. split; [exact Hxs|]. now repeat constructor.
      * split; [exact Hw'|]. split; [apply logsGrow_append | apply length_alter].
      * split; [exact Hw'|]. split; [apply logsGrow_append | apply length_alter].
    + split; [exact Hw'|]. split; [apply logsGrow_append | apply length_alter].
  - destruct (clients w !! c) as [cl|] eqn:Hc; [|exact Hsame].
    destruct (subscriptions cl !! k) as [h|] eqn:Hk; [|exact Hsame].
    destruct (Forall_lookup_1 _ _ _ _ Hw Hc) as [_ Hsubs].
    apply messageHandler_app; [|exact Hw].
    exact (Forall_lookup_1 _ _ _ _ Hsubs Hk).
  - destruct (clients w !! c) as [cl|] eqn:Hc; [|exact Hsame].
    destruct (Forall_lookup_1 _ _ _ _ Hw Hc) as [[Hlog Hdone] Hsubs].
    unfold onStompError. cbn. rewrite Hlog, Hdone.
    split; [exact Hw|]. split; [|reflexivity].
    eapply logsGrow_trans; apply logsGrow_append.
Qed.

Lemma deliver_app evs w :
  appWorld w ->
  appWorld (deliver evs w) /\ logsGrow (ui w) (ui (deliver evs w))
  /\ length (clients (deliver evs w)) = length (clients w).
Proof.
  revert w. induction evs as [|ev evs IH]; intros w Hw.
  - split; [exact Hw | split; [apply logsGrow_refl | reflexivity]].
  - change (deliver (ev :: evs) w) with (deliver evs (dispatch ev w)).
    destruct (dispatch_app ev w Hw) as (H1 & G1 & L1).
    destruct (IH _ H1) as (H2 & G2 & L2).
    split; [exact H2|]. split; [eapply logsGrow_trans; eassumption | congruence].
Qed.

Lemma deliver_inFlight evs w : inFlight w -> inFlight (deliver evs w).
Proof.
  intros [Hw Ha]. destruct (deliver_app evs w Hw) as (H & [(_ & G & _) _] & _).
  split; [exact H | congruence].
Qed.


(** ** The polling loop *)

Section PollStatus.
Context {S : Type}.
Implicit Types (w : World S) (answers : list (Turn StatusReply)).

Lemma checkStatus_ok (t : Turn StatusReply) rid st w :
  reply t = StatusOk st ->
  checkStatus t rid w
  = (Returned st, deliver (during t) (note (CallCheckStatus rid) w)).
Proof. intros H. unfold checkStatus, bind, act, await. now rewrite H. Qed.

Lemma checkStatus_not_ok (t : Turn StatusReply) rid w :
  reply t = StatusNotOk ->
  checkStatus t rid w
  = (Threw (JsError "Не вдалося отримати статус аналізу."),
     deliver (during t) (note (CallCheckStatus rid) w)).
Proof. intros H. unfold checkStatus, bind, act, await. now rewrite H. Qed.

Lemma keepsPolling_inv (t : Turn StatusReply) :
  keepsPolling t = true ->
  exists st, reply t = StatusOk st
             /\ (status st = PENDING \/ status st = CLONING \/ status st = ANALYZING).
Proof.
  unfold keepsPolling. destruct (reply t) as [e| |st]; try discriminate.
  intros H. exists st. split; [reflexivity|].
  destruct (status st); try discriminate; auto.
Qed.

Lemma notify_returns cb st w : callbackReturns cb -> fst (notify cb st w) = Returned tt.
Proof.
  intros Hcb. destruct cb as [f|]; [|reflexivity].
  cbn. unfold bind, act. apply (Hcb f eq_refl).
Qed.

Lemma pollStatus_step t later rid cb st w :
  callbackReturns cb -> reply t = StatusOk st ->
  exists w',
    snd (notify cb st (deliver (during t) (note (CallCheckStatus rid) w))) = w'
    /\ pollStatus (t :: later) rid cb w
       = match status st with
         | COMPLETED => (Returned st, w')
         | FAILED => (Threw (JsError (or_else (errorMessage st) genericFailure)), w')
         | PENDING | CLONING | ANALYZING => pollStatus later rid cb w'
         end.
Proof.
  intros Hcb Hr. eexists. split; [reflexivity|].
  cbn [pollStatus]. unfold bind at 1. rewrite (checkStatus_ok t rid st w Hr).
  unfold bind at 1.
  pose proof (notify_returns cb st
                (deliver (during t) (note (CallCheckStatus rid) w)) Hcb) as Hn.
  destruct (notify cb st _) as [o w'] eqn:E. cbn in Hn. subst o. cbn [snd].
  now destruct (status st).
Qed.

Lemma pollStatus_prefix pre rid cb w :
  callbackReturns cb -> forallb keepsPolling pre = true ->
  exists w', forall later,
    pollStatus (pre ++ later) rid cb w = pollStatus later rid cb w'.
Proof.
  intros Hcb. revert w. induction pre as [|t pre IH]; intros w Hpre.
  - now exists w.
  - cbn in Hpre. apply andb_true_iff in Hpre as [Ht Hpre].
    destruct (keepsPolling_inv t Ht) as (st & Hr & Hs).
    destruct (pollStatus_step t [] rid cb st w Hcb Hr) as (w1 & Hw1 & _).
    destruct (IH w1 Hpre) as (w' & Hw'). exists w'. intros later.
    destruct (pollStatus_step t (pre ++ later) rid cb st w Hcb Hr) as (w2 & Hw2 & E).
    rewrite <- app_comm_cons, E. assert (w2 = w1) as -> by congruence.
    rewrite <- Hw'. now destruct Hs as [-> | [-> | ->]].
Qed.

End PollStatus.

(** C1.  For every sequence [pre] of status answers that are all PENDING,
    CLONING or ANALYZING, [pollStatus] keeps polling: after those answers
    the loop goes on with the answers that follow, and with none left it is
    still waiting.  At the first COMPLETED answer it stops and returns that
    status; at the first FAILED answer it stops and throws an [Error] whose
    message is the backend's [errorMessage], or 'Аналіз завершився з помилкою'
    when the backend gives none ([null] or the empty string).  The callback,
    if given, is assumed to return. *)
Theorem pollStatus_polls_until_terminal {S : Type}
  (pre : list (Turn StatusReply)) (rid : string)
  (cb : option (AnalysisStatus -> M S unit)) (w : World S) :
  callbackReturns cb ->
  forallb keepsPolling pre = true ->
  (exists w', forall later,
      pollStatus (pre ++ later) rid cb w = pollStatus later rid cb w')
  /\ fst (pollStatus pre rid cb w) = Awaiting
  /\ (forall t later st,
        reply t = StatusOk st -> status st = COMPLETED ->
        fst (pollStatus (pre ++ t :: later) rid cb w) = Returned st)
  /\ (forall t later st,
        reply t = StatusOk st -> status st = FAILED ->
        fst (pollStatus (pre ++ t :: later) rid cb w)
        = Threw (JsError match errorMessage st with
                         | None | Some "" => "Аналіз завершився з помилкою"
                         | Some m => m
                         end)).
Proof.
  intros Hcb Hpre. destruct (pollStatus_prefix pre rid cb w Hcb Hpre) as (w' & Hw').
  split; [now exists w'|]. split; [|split].
  - rewrite <- (app_nil_r pre), Hw'. reflexivity.
  - intros t later st Hr Hs. rewrite Hw'.
    destruct (pollStatus_step t later rid cb st w' Hcb Hr) as (w2 & _ & ->).
    now rewrite Hs.
  - intros t later st Hr Hs. rewrite Hw'.
    destruct (pollStatus_step t later rid cb st w' Hcb Hr) as (w2 & _ & ->).
    rewrite Hs. cbn. now destruct (errorMessage st) as [[|a m]|].
Qed.

(** C1 at the answers of the service's own test: PENDING, CLONING, then
    FAILED with 'Repository not found'. *)
Lemma pollStatus_polls_until_terminal_witness :
  callbackReturns (Some onStatusUpdate)
  /\ forallb keepsPolling [says PENDING; says CLONING] = true
  /\ fst (pollStatus ([says PENDING; says CLONING]
                      ++ [quiet (StatusOk (statusBody FAILED
                                             (Some "Repository not found")))])
            "test-id" (Some onStatusUpdate) initialApp)
     = Threw (JsError "Repository not found").
Proof.
  assert (Hcb : callbackReturns (Some onStatusUpdate))
    by (intros f [= <-] a w; reflexivity).
  split; [exact Hcb|]. split; [reflexivity|].
  destruct (pollStatus_polls_until_terminal
              [says PENDING; says CLONING]
              "test-id" (Some onStatusUpdate) initialApp Hcb eq_refl)
    as (_ & _ & _ & Hfailed).
  apply (Hfailed (quiet (StatusOk (statusBody FAILED (Some "Repository not found"))))
           [] _ eq_refl eq_refl).
Defined.

(** ** What the loop leaves in the trace *)

Section PollTrace.
Context {S : Type}.
Variables (rid : string) (cb : AnalysisStatus -> M S unit)
  (f : AnalysisStatus -> S -> S).
Hypothesis Hcb : updatesUi cb f.
Implicit Types (w : World S) (p : Event -> bool).

Lemma updatesUi_returns : callbackReturns (Some cb).
Proof. intros g [= <-] a w. now rewrite Hcb. Qed.

Lemma notify_ui st w :
  notify (Some cb) st w = (Returned tt, set_ui (f st) (note (StatusUpdate st) w)).
Proof. cbn. unfold bind, act. now rewrite Hcb. Qed.

Lemma pollStatus_split pre later w :
  forallb keepsPolling pre = true ->
  pollStatus (pre ++ later) rid (Some cb) w
  = pollStatus later rid (Some cb) (snd (pollStatus pre rid (Some cb) w)).
Proof.
  intros Hpre.
  destruct (pollStatus_prefix pre rid (Some cb) w updatesUi_returns Hpre) as (w' & Hw').
  rewrite Hw'. f_equal. rewrite <- (app_nil_r pre) at 1. now rewrite Hw'.
Qed.

(** The world after one answered poll. *)
Lemma pollStatus_answered (t : Turn StatusReply) later st w :
  reply t = StatusOk st ->
  pollStatus (t :: later) rid (Some cb) w
  = let w' := set_ui (f st) (note (StatusUpdate st)
                (deliver (during t) (note (CallCheckStatus rid) w))) in
    match status st with
    | COMPLETED => (Returned st, w')
    | FAILED => (Threw (JsError (or_else (errorMessage st) genericFailure)), w')
    | PENDING | CLONING | ANALYZING => pollStatus later rid (Some cb) w'
    end.
Proof.
  intros Hr.
  destruct (pollStatus_step t later rid (Some cb) st w updatesUi_returns Hr)
    as (w' & Hw' & ->).
  rewrite notify_ui in Hw'. cbn in Hw'. now subst w'.
Qed.

Lemma pollStatus_answered_trace p (t : Turn StatusReply) st w :
  (forall e, is_channel_event e = true -> p e = false) ->
  List.filter p (trace (set_ui (f st) (note (StatusUpdate st)
                   (deliver (during t) (note (CallCheckStatus rid) w)))))
  = List.filter p (trace w) ++ List.filter p [CallCheckStatus rid; StatusUpdate st].
Proof.
  intros Hp. cbn [trace set_ui note].
  rewrite List.filter_app, (deliver_filter p _ _ Hp). cbn [trace note].
  rewrite List.filter_app, <- app_assoc. f_equal.
  cbn. now destruct (p (CallCheckStatus rid)).
Qed.

Lemma pollStatus_prefix_trace p pre w :
  (forall e, is_channel_event e = true -> p e = false) ->
  forallb keepsPolling pre = true ->
  List.filter p (trace (snd (pollStatus pre rid (Some cb) w)))
  = List.filter p (trace w) ++ List.filter p (pollEvents rid (statusesOf pre)).
Proof.
  intros Hp. revert w. induction pre as [|t pre IH]; intros w Hpre.
  - cbn. now rewrite app_nil_r.
  - cbn in Hpre. apply andb_true_iff in Hpre as [Ht Hpre].
    destruct (keepsPolling_inv t Ht) as (st & Hr & Hs).
    rewrite (pollStatus_answered t pre st w Hr). cbv zeta.
    replace (statusesOf (t :: pre)) with (st :: statusesOf pre)
      by (unfold statusesOf; cbn; now rewrite Hr).
    change (pollEvents rid (st :: statusesOf pre))
      with ([CallCheckStatus rid; StatusUpdate st] ++ pollEvents rid (statusesOf pre)).
    rewrite List.filter_app, app_assoc, <- (pollStatus_answered_trace p t st w Hp).
    destruct Hs as [-> | [-> | ->]]; now rewrite IH.
Qed.

End PollTrace.

Lemma statusesOf_keepsPolling pre :
  forallb keepsPolling pre = true -> length (statusesOf pre) = length pre.
Proof.
  induction pre as [|t pre IH]; [reflexivity|]. cbn. intros H.
  apply andb_true_iff in H as [Ht Hpre].
  destruct (keepsPolling_inv t Ht) as (st & Hr & _).
  unfold statusesOf in *. cbn. rewrite Hr. cbn. now rewrite IH.
Qed.

Lemma statusesOf_app pre post :
  statusesOf (pre ++ post) = statusesOf pre ++ statusesOf post.
Proof.
  unfold statusesOf. induction pre as [|t pre IH]; [reflexivity|].
  cbn. destruct (reply t); cbn; now rewrite ?IH.
Qed.

Lemma pollEvents_app rid a b :
  pollEvents rid (a ++ b) = pollEvents rid a ++ pollEvents rid b.
Proof. unfold pollEvents. apply flat_map_app. Qed.

Lemma pollEvents_updates rid sts :
  List.filter is_status_update (pollEvents rid sts) = map StatusUpdate sts.
Proof.
  induction sts as [|st sts IH]; [reflexivity|].
  change (pollEvents rid (st :: sts))
    with ([CallCheckStatus rid; StatusUpdate st] ++ pollEvents rid sts).
  now rewrite List.filter_app, IH.
Qed.

Lemma pollEvents_checks rid sts :
  List.filter is_check_status (pollEvents rid sts)
  = repeat (CallCheckStatus rid) (length sts).
Proof.
  induction sts as [|st sts IH]; [reflexivity|].
  change (pollEvents rid (st :: sts))
    with ([CallCheckStatus rid; StatusUpdate st] ++ pollEvents rid sts).
  now rewrite List.filter_app, IH.
Qed.

Lemma pollEvents_api rid sts :
  List.filter is_api_call (pollEvents rid sts)
  = repeat (CallCheckStatus rid) (length sts).
Proof.
  induction sts as [|st sts IH]; [reflexivity|].
  change (pollEvents rid (st :: sts))
    with ([CallCheckStatus rid; StatusUpdate st] ++ pollEvents rid sts).
  now rewrite List.filter_app, IH.
Qed.

Lemma pollEvents_no_fetch rid sts :
  List.filter is_fetch_results (pollEvents rid sts) = [].
Proof.
  induction sts as [|st sts IH]; [reflexivity|].
  change (pollEvents rid (st :: sts))
    with ([CallCheckStatus rid; StatusUpdate st] ++ pollEvents rid sts).
  now rewrite List.filter_app, IH.
Qed.

Lemma onStatusUpdate_updatesUi : updatesUi onStatusUpdate statusUpdater.
Proof. intros st w. reflexivity. Qed.

Lemma appendStatusLine_last m prev :
  exists entry, last (appendStatusLine m prev) = Some entry /\ message entry = m.
Proof.
  unfold appendStatusLine. destruct (last prev) as [lastLog|] eqn:E.
  - destruct (decide (message lastLog = m)) as [Heq|Hne].
    + now exists lastLog.
    + exists (info m). now rewrite last_snoc.
  - exists (info m). now rewrite last_snoc.
Qed.

Lemma channel_not_status_update e : is_channel_event e = true -> is_status_update e = false.
Proof. destruct e; cbn; congruence. Qed.

Lemma channel_not_check_status e : is_channel_event e = true -> is_check_status e = false.
Proof. destruct e; cbn; congruence. Qed.

Lemma channel_not_api_call e : is_channel_event e = true -> is_api_call e = false.
Proof. destruct e; cbn; congruence. Qed.

Lemma channel_not_fetch_results e : is_channel_event e = true -> is_fetch_results e = false.
Proof. destruct e; cbn; congruence. Qed.

Lemma channel_not_activate e : is_channel_event e = true -> is_activate e = false.
Proof. destruct e; cbn; congruence. Qed.

(** C9.  For a callback that updates the page's state, [pollStatus] invokes
    it once per status answer, in order, the terminal answer included: the
    callback invocations in the trace are the statuses answered so far, one
    per status check, and at a COMPLETED or FAILED answer the callback's
    update is the last thing done before the loop returns or throws.  With
    the App's callback, a FAILED answer has set [analysisStatus] to FAILED
    and left the FAILED status line at the end of the log when the error is
    thrown. *)
Theorem onStatusUpdate_called_once_per_response :
  (forall (S : Type) (rid : string) (cb : AnalysisStatus -> M S unit)
          (f : AnalysisStatus -> S -> S) (pre : list (Turn StatusReply))
          (w : World S),
      updatesUi cb f ->
      forallb keepsPolling pre = true ->
      (List.filter is_status_update (trace (snd (pollStatus pre rid (Some cb) w)))
       = List.filter is_status_update (trace w) ++ map StatusUpdate (statusesOf pre)
       /\ count is_check_status (trace (snd (pollStatus pre rid (Some cb) w)))
          = count is_check_status (trace w) + length pre)
      /\ forall t later st,
           reply t = StatusOk st ->
           status st = COMPLETED \/ status st = FAILED ->
           let r := pollStatus (pre ++ t :: later) rid (Some cb) w in
           List.filter is_status_update (trace (snd r))
           = List.filter is_status_update (trace w)
             ++ map StatusUpdate (statusesOf pre ++ [st])
           /\ count is_check_status (trace (snd r))
              = count is_check_status (trace w) + length pre + 1
           /\ exists w0, snd r = set_ui (f st) (note (StatusUpdate st) w0))
  /\ (forall (rid : string) (pre : list (Turn StatusReply)) (t : Turn StatusReply)
             (later : list (Turn StatusReply)) (st : AnalysisStatus) (w : App),
         forallb keepsPolling pre = true ->
         reply t = StatusOk st -> status st = FAILED ->
         let r := pollStatus (pre ++ t :: later) rid (Some onStatusUpdate) w in
         (exists m, fst r = Threw (JsError m))
         /\ analysisStatus (ui (snd r)) = Some FAILED
         /\ exists entry, last (logs (ui (snd r))) = Some entry
                          /\ message entry = "❌ Помилка аналізу").
Proof.
  split.
  - intros S rid cb f pre w Hcb Hpre. split.
    + split.
      * rewrite (pollStatus_prefix_trace rid cb f Hcb is_status_update pre w
                   channel_not_status_update Hpre).
        now rewrite pollEvents_updates.
      * unfold count.
        rewrite (pollStatus_prefix_trace rid cb f Hcb is_check_status pre w
                   channel_not_check_status Hpre).
        rewrite pollEvents_checks, length_app, repeat_length.
        now rewrite statusesOf_keepsPolling.
    + intros t later st Hr Hs r. subst r.
      rewrite (pollStatus_split rid cb f Hcb pre (t :: later) w Hpre).
      rewrite (pollStatus_answered rid cb f Hcb t later st _ Hr). cbv zeta.
      assert (Hterm : forall (o1 o2 : Outcome AnalysisStatus) (w1 : World S),
                 snd (match status st with
                      | COMPLETED => (o1, w1)
                      | FAILED => (o2, w1)
                      | _ => pollStatus later rid (Some cb) w1
                      end) = w1)
        by (intros; now destruct Hs as [-> | ->]).
      rewrite Hterm. split; [|split].
      * rewrite (pollStatus_answered_trace rid f is_status_update t st _
                   channel_not_status_update).
        rewrite (pollStatus_prefix_trace rid cb f Hcb is_status_update pre w
                   channel_not_status_update Hpre).
        rewrite pollEvents_updates, map_app, <- app_assoc. reflexivity.
      * unfold count.
        rewrite (pollStatus_answered_trace rid f is_check_status t st _
                   channel_not_check_status).
        rewrite (pollStatus_prefix_trace rid cb f Hcb is_check_status pre w
                   channel_not_check_status Hpre).
        rewrite pollEvents_checks, !length_app, repeat_length.
        rewrite statusesOf_keepsPolling by exact Hpre. cbn. lia.
      * eexists. reflexivity.
  - intros rid pre t later st w Hpre Hr Hs r. subst r.
    rewrite (pollStatus_split rid _ _ onStatusUpdate_updatesUi pre (t :: later) w Hpre).
    rewrite (pollStatus_answered rid _ _ onStatusUpdate_updatesUi t later st _ Hr).
    cbv zeta. rewrite Hs. cbn [fst snd]. split; [eexists; reflexivity|].
    split.
    + cbn. now rewrite Hs.
    + cbn [ui set_ui]. unfold statusUpdater. cbn [logs setLogs]. rewrite Hs.
      apply appendStatusLine_last.
Qed.

(** ** The handlers, block by block *)

Lemma handleAnalysisStart_busy env url (w : App) :
  isAnalyzing (ui w) = true -> handleAnalysisStart env url w = (Returned tt, w).
Proof. intros H. unfold handleAnalysisStart. now rewrite H. Qed.

Lemma handleCodeAnalysis_busy answer code fileName (w : App) :
  isAnalyzing (ui w) = true ->
  handleCodeAnalysis answer code fileName w = (Returned tt, w).
Proof. intros H. unfold handleCodeAnalysis. now rewrite H. Qed.

Lemma try_catch_finally_finish (body : M AppState unit) (w : App) :
  try_catch_finally body onCaught (set (setIsAnalyzing false)) w = finish (body w).
Proof.
  unfold try_catch_finally, finish. destruct (body w) as [[[]|e|] w1]; reflexivity.
Qed.

Lemma handleAnalysisStart_idle env url (w : App) :
  isAnalyzing (ui w) = false ->
  handleAnalysisStart env url w = finish (tryAnalysisStart env url (resetForUrl w)).
Proof.
  intros H. unfold handleAnalysisStart. rewrite H.
  rewrite <- try_catch_finally_finish. reflexivity.
Qed.

Lemma tryAnalysisStart_rejected env url code statusText errorText (w : App) :
  reply (submitAnswer env) = SubmitNotOk code statusText errorText ->
  tryAnalysisStart env url w
  = (Threw (JsError ("Помилка серверу: " +:+ show_N code +:+ " " +:+ statusText
                     +:+ ". " +:+ errorText)),
     afterSubmit env url w).
Proof.
  intros H. unfold tryAnalysisStart, startAnalysis, appendLog, set, bind, act, await.
  now rewrite H.
Qed.

Lemma tryAnalysisStart_unreachable env url e (w : App) :
  reply (submitAnswer env) = SubmitThrows e ->
  tryAnalysisStart env url w = (Threw e, afterSubmit env url w).
Proof.
  intros H. unfold tryAnalysisStart, startAnalysis, appendLog, set, bind, act, await.
  now rewrite H.
Qed.

Lemma tryAnalysisStart_accepted env url rid (w : App) :
  reply (submitAnswer env) = SubmitOk rid ->
  tryAnalysisStart env url w
  = (pollStatus (statusAnswers env) rid (Some onStatusUpdate) >> fetchPhase env rid)
      (afterConnect rid (afterSubmit env url w)).
Proof.
  intros H. unfold tryAnalysisStart, startAnalysis, appendLog, set.
  unfold bind at 1 2 3. unfold act at 1 2. unfold await at 1. rewrite H.
  reflexivity.
Qed.

Lemma afterSubmit_filter p env url (w : App) :
  (forall e, is_channel_event e = true -> p e = false) ->
  List.filter p (trace (afterSubmit env url w))
  = List.filter p (trace w) ++ List.filter p [CallStartAnalysis url].
Proof.
  intros Hp. unfold afterSubmit. rewrite (deliver_filter p _ _ Hp).
  cbn [trace note set_ui]. apply List.filter_app.
Qed.

Lemma channel_not_session_event e :
  is_channel_event e = true -> is_session_event e = false.
Proof. destruct e; cbn; congruence. Qed.

(** C10.  While an analysis is in progress ([isAnalyzing] is true) both
    handlers return at once and leave the page as it is: log sequence,
    results, status and request identifier are unchanged and no call is
    added to the trace. *)
Theorem busy_handlers_do_nothing (w : App) :
  isAnalyzing (ui w) = true ->
  (forall env url, handleAnalysisStart env url w = (Returned tt, w))
  /\ (forall answer code fileName,
        handleCodeAnalysis answer code fileName w = (Returned tt, w)).
Proof.
  intros H. split; intros.
  - now apply handleAnalysisStart_busy.
  - now apply handleCodeAnalysis_busy.
Qed.

(** C10 on the page of a session whose polling loop is waiting for its
    second answer. *)
Lemma busy_handlers_do_nothing_witness :
  isAnalyzing (ui pollingPage) = true
  /\ handleAnalysisStart (answers (SubmitOk "43") [] ResultsNotOk)
       "https://github.com/user/other" pollingPage
     = (Returned tt, pollingPage)
  /\ handleCodeAnalysis (quiet (AnalyzeThrows NonError)) "class A {}" None pollingPage
     = (Returned tt, pollingPage).
Proof.
  assert (H : isAnalyzing (ui pollingPage) = true) by reflexivity.
  split; [exact H|].
  destruct (busy_handlers_do_nothing pollingPage H) as [Hurl Hcode].
  split; [apply Hurl | apply Hcode].
Defined.



(** ** The polling phase of [handleAnalysisStart] *)

Section PollingPhase.
Variables (env : UrlAnswers) (rid : string).
Variables (pre : list (Turn StatusReply)) (t : Turn StatusReply)
  (later : list (Turn StatusReply)).
Hypothesis Hpre : forallb keepsPolling pre = true.
Implicit Types (w : App) (p : Event -> bool).

Local Abbreviation loop := (pollStatus (pre ++ t :: later) rid (Some onStatusUpdate)).

Lemma loop_split w :
  loop w = pollStatus (t :: later) rid (Some onStatusUpdate) (polled rid pre w).
Proof. apply (pollStatus_split rid _ _ onStatusUpdate_updatesUi), Hpre. Qed.

Lemma loop_completed st w :
  reply t = StatusOk st -> status st = COMPLETED ->
  (loop >> fetchPhase env rid) w
  = fetchPhase env rid (answered rid t st (polled rid pre w)).
Proof.
  intros Hr Hs. unfold bind at 1. rewrite loop_split.
  rewrite (pollStatus_answered rid _ _ onStatusUpdate_updatesUi t later st _ Hr).
  cbv zeta. now rewrite Hs.
Qed.

Lemma loop_failed st w :
  reply t = StatusOk st -> status st = FAILED ->
  (loop >> fetchPhase env rid) w
  = (Threw (JsError (or_else (errorMessage st) genericFailure)),
     answered rid t st (polled rid pre w)).
Proof.
  intros Hr Hs. unfold bind at 1. rewrite loop_split.
  rewrite (pollStatus_answered rid _ _ onStatusUpdate_updatesUi t later st _ Hr).
  cbv zeta. now rewrite Hs.
Qed.

Lemma loop_check_failed e w :
  checkFailure (reply t) = Some e ->
  loop w = (Threw e, deliver (during t) (note (CallCheckStatus rid) (polled rid pre w))).
Proof.
  intros He. rewrite loop_split. cbn [pollStatus].
  unfold bind at 1. unfold checkStatus, bind, act, await.
  destruct (reply t) as [e'| |st]; cbn in He; now inversion He.
Qed.

Lemma loop_waiting w :
  (pollStatus pre rid (Some onStatusUpdate) >> fetchPhase env rid) w
  = (Awaiting, polled rid pre w).
Proof.
  unfold bind, polled.
  destruct (pollStatus_prefix pre rid (Some onStatusUpdate) w
              (updatesUi_returns _ _ onStatusUpdate_updatesUi) Hpre) as (w' & Hw').
  specialize (Hw' []). rewrite app_nil_r in Hw'. now rewrite Hw'.
Qed.

End PollingPhase.

Lemma sessionOnly_channel p :
  (forall e, is_session_event e = false -> p e = false) ->
  forall e, is_channel_event e = true -> p e = false.
Proof. intros Hp e He. apply Hp. now apply channel_not_session_event. Qed.

Section SessionTrace.
Variable p : Event -> bool.
Hypothesis Hp : forall e, is_session_event e = false -> p e = false.
Implicit Types w : App.

Lemma afterConnect_filter rid w :
  List.filter p (trace (afterConnect rid w)) = List.filter p (trace w).
Proof.
  unfold afterConnect, connectWebSocket. cbn [trace set_ui note set_clients set_stompClient].
  rewrite List.filter_app. cbn. rewrite (Hp (Activate _) eq_refl). apply app_nil_r.
Qed.

Lemma enterPolling_filter env url rid w :
  List.filter p (trace (afterConnect rid (afterSubmit env url (resetForUrl w))))
  = List.filter p (trace w) ++ List.filter p [CallStartAnalysis url].
Proof.
  rewrite afterConnect_filter.
  now rewrite (afterSubmit_filter p env url _ (sessionOnly_channel p Hp)).
Qed.

Lemma polled_filter rid pre w :
  forallb keepsPolling pre = true ->
  List.filter p (trace (polled rid pre w))
  = List.filter p (trace w) ++ List.filter p (pollEvents rid (statusesOf pre)).
Proof.
  apply (pollStatus_prefix_trace rid _ _ onStatusUpdate_updatesUi p pre w
           (sessionOnly_channel p Hp)).
Qed.

Lemma answered_filter rid (t : Turn StatusReply) st w :
  List.filter p (trace (answered rid t st w))
  = List.filter p (trace w) ++ List.filter p [CallCheckStatus rid; StatusUpdate st].
Proof. apply pollStatus_answered_trace, (sessionOnly_channel p Hp). Qed.

Lemma fetchPhase_filter env rid w :
  List.filter p (trace (snd (fetchPhase env rid w)))
  = List.filter p (trace w) ++ List.filter p [CallFetchResults rid].
Proof.
  unfold fetchPhase, fetchResults, appendLog, set, bind, act, await, throw, ret.
  destruct (reply (resultsAnswer env)); cbn [snd trace set_ui];
    rewrite (deliver_filter p _ _ (sessionOnly_channel p Hp));
    cbn [trace note set_ui]; apply List.filter_app.
Qed.

Lemma finish_filter (r : Outcome unit * App) :
  List.filter p (trace (snd (finish r))) = List.filter p (trace (snd r)).
Proof. now destruct r as [[[]|e|] w]. Qed.

End SessionTrace.

(** ** Whole runs of [handleAnalysisStart] *)

Section UrlRuns.
Variables (env : UrlAnswers) (url rid : string) (w : App).
Variables (pre : list (Turn StatusReply)) (t : Turn StatusReply)
  (later : list (Turn StatusReply)).
Hypothesis Hidle : isAnalyzing (ui w) = false.
Hypothesis Hsubmit : reply (submitAnswer env) = SubmitOk rid.
Hypothesis Hpre : forallb keepsPolling pre = true.

Local Abbreviation start := (pollingStart env url rid w).

Lemma run_completed st :
  statusAnswers env = pre ++ t :: later ->
  reply t = StatusOk st -> status st = COMPLETED ->
  handleAnalysisStart env url w
  = finish (fetchPhase env rid (answered rid t st (polled rid pre start))).
Proof.
  intros Hanswers Hr Hs.
  rewrite (handleAnalysisStart_idle env url w Hidle).
  rewrite (tryAnalysisStart_accepted env url rid _ Hsubmit), Hanswers.
  now rewrite (loop_completed env rid pre t later Hpre st _ Hr Hs).
Qed.

Lemma run_failed st :
  statusAnswers env = pre ++ t :: later ->
  reply t = StatusOk st -> status st = FAILED ->
  handleAnalysisStart env url w
  = finish (Threw (JsError (or_else (errorMessage st) genericFailure)),
            answered rid t st (polled rid pre start)).
Proof.
  intros Hanswers Hr Hs.
  rewrite (handleAnalysisStart_idle env url w Hidle).
  rewrite (tryAnalysisStart_accepted env url rid _ Hsubmit), Hanswers.
  now rewrite (loop_failed env rid pre t later Hpre st _ Hr Hs).
Qed.

Lemma run_check_failed e :
  statusAnswers env = pre ++ t :: later ->
  checkFailure (reply t) = Some e ->
  handleAnalysisStart env url w
  = finish (Threw e,
            deliver (during t) (note (CallCheckStatus rid) (polled rid pre start))).
Proof.
  intros Hanswers He.
  rewrite (handleAnalysisStart_idle env url w Hidle).
  rewrite (tryAnalysisStart_accepted env url rid _ Hsubmit), Hanswers.
  unfold bind at 1.
  now rewrite (loop_check_failed rid pre t later Hpre e _ He).
Qed.

Lemma run_waiting :
  statusAnswers env = pre ->
  handleAnalysisStart env url w = (Awaiting, polled rid pre start).
Proof.
  intros Hanswers.
  rewrite (handleAnalysisStart_idle env url w Hidle).
  rewrite (tryAnalysisStart_accepted env url rid _ Hsubmit), Hanswers.
  now rewrite (loop_waiting env rid pre Hpre).
Qed.

Variable p : Event -> bool.
Hypothesis Hp : forall e, is_session_event e = false -> p e = false.

Lemma start_filter :
  List.filter p (trace start) = List.filter p (trace w ++ [CallStartAnalysis url]).
Proof.
  unfold pollingStart. now rewrite (enterPolling_filter p Hp), List.filter_app.
Qed.

Lemma run_completed_filter st :
  statusAnswers env = pre ++ t :: later ->
  reply t = StatusOk st -> status st = COMPLETED ->
  List.filter p (trace (snd (handleAnalysisStart env url w)))
  = List.filter p (trace w ++ [CallStartAnalysis url]
                   ++ pollEvents rid (statusesOf pre ++ [st])
                   ++ [CallFetchResults rid]).
Proof.
  intros Hanswers Hr Hs. rewrite (run_completed st Hanswers Hr Hs).
  rewrite (finish_filter p), (fetchPhase_filter p Hp), (answered_filter p Hp).
  rewrite (polled_filter p Hp _ _ _ Hpre), start_filter.
  rewrite pollEvents_app, !List.filter_app, <- !app_assoc. reflexivity.
Qed.

Lemma run_failed_filter st :
  statusAnswers env = pre ++ t :: later ->
  reply t = StatusOk st -> status st = FAILED ->
  List.filter p (trace (snd (handleAnalysisStart env url w)))
  = List.filter p (trace w ++ [CallStartAnalysis url]
                   ++ pollEvents rid (statusesOf pre ++ [st])).
Proof.
  intros Hanswers Hr Hs. rewrite (run_failed st Hanswers Hr Hs).
  rewrite (finish_filter p). cbn [snd]. rewrite (answered_filter p Hp).
  rewrite (polled_filter p Hp _ _ _ Hpre), start_filter.
  rewrite pollEvents_app, !List.filter_app, <- !app_assoc. reflexivity.
Qed.

Lemma run_check_failed_filter e :
  statusAnswers env = pre ++ t :: later ->
  checkFailure (reply t) = Some e ->
  List.filter p (trace (snd (handleAnalysisStart env url w)))
  = List.filter p (trace w ++ [CallStartAnalysis url]
                   ++ pollEvents rid (statusesOf pre)
                   ++ [CallCheckStatus rid]).
Proof.
  intros Hanswers He. rewrite (run_check_failed e Hanswers He).
  rewrite (finish_filter p). cbn [snd].
  rewrite (deliver_filter p _ _ (sessionOnly_channel p Hp)). cbn [trace note].
  rewrite List.filter_app, (polled_filter p Hp _ _ _ Hpre), start_filter.
  rewrite !List.filter_app, <- !app_assoc. reflexivity.
Qed.

End UrlRuns.

Lemma fetch_is_session e : is_session_event e = false -> is_fetch_results e = false.
Proof. destruct e; cbn; congruence. Qed.

Lemma check_is_session e : is_session_event e = false -> is_check_status e = false.
Proof. destruct e; cbn; congruence. Qed.

Lemma pollEvents_session rid sts :
  List.filter is_session_event (pollEvents rid sts) = pollEvents rid sts.
Proof.
  induction sts as [|st sts IH]; [reflexivity|].
  change (pollEvents rid (st :: sts))
    with ([CallCheckStatus rid; StatusUpdate st] ++ pollEvents rid sts).
  now rewrite List.filter_app, IH.
Qed.

(** C2.  Take a run of [handleAnalysisStart] whose submission is accepted
    and whose status checks are answered by [pre], all PENDING, CLONING or
    ANALYZING, and then by a terminal status [st] (the polls that are made
    end there).  If [st] is COMPLETED, the session's events are: the submit
    call, one status check and one callback per answer, and then, after the
    callback for COMPLETED, one call of [fetchResults]; it is the only one.
    If [st] is FAILED the events end with the callback for FAILED and
    [fetchResults] is not called. *)
Theorem fetchResults_once_after_completed
  env url rid pre t later st (w : App) :
  isAnalyzing (ui w) = false ->
  reply (submitAnswer env) = SubmitOk rid ->
  statusAnswers env = pre ++ t :: later ->
  forallb keepsPolling pre = true ->
  reply t = StatusOk st ->
  let w' := snd (handleAnalysisStart env url w) in
  (status st = COMPLETED ->
   List.filter is_session_event (trace w')
   = List.filter is_session_event (trace w)
     ++ [CallStartAnalysis url] ++ pollEvents rid (statusesOf pre ++ [st])
     ++ [CallFetchResults rid]
   /\ count is_fetch_results (trace w') = count is_fetch_results (trace w) + 1)
  /\ (status st = FAILED ->
      List.filter is_session_event (trace w')
      = List.filter is_session_event (trace w)
        ++ [CallStartAnalysis url] ++ pollEvents rid (statusesOf pre ++ [st])
      /\ count is_fetch_results (trace w') = count is_fetch_results (trace w)).
Proof.
  intros Hidle Hsubmit Hanswers Hpre Hr w'. subst w'. split; intros Hs.
  - split.
    + rewrite (run_completed_filter env url rid w pre t later Hidle Hsubmit Hpre
                 is_session_event (fun _ H => H) st Hanswers Hr Hs).
      rewrite !List.filter_app, pollEvents_session. reflexivity.
    + unfold count.
      rewrite (run_completed_filter env url rid w pre t later Hidle Hsubmit Hpre
                 is_fetch_results fetch_is_session st Hanswers Hr Hs).
      rewrite !List.filter_app, pollEvents_no_fetch, !length_app. cbn. lia.
  - split.
    + rewrite (run_failed_filter env url rid w pre t later Hidle Hsubmit Hpre
                 is_session_event (fun _ H => H) st Hanswers Hr Hs).
      rewrite !List.filter_app, pollEvents_session. reflexivity.
    + unfold count.
      rewrite (run_failed_filter env url rid w pre t later Hidle Hsubmit Hpre
                 is_fetch_results fetch_is_session st Hanswers Hr Hs).
      rewrite !List.filter_app, pollEvents_no_fetch, !length_app. cbn. lia.
Qed.

(** C2 on the answers PENDING, CLONING, ANALYZING, COMPLETED. *)
Lemma fetchResults_once_after_completed_witness :
  isAnalyzing (ui initialApp) = false
  /\ forallb keepsPolling [says PENDING; says CLONING; says ANALYZING] = true
  /\ count is_fetch_results
       (trace (snd (handleAnalysisStart
                      (answers (SubmitOk "42")
                         ([says PENDING; says CLONING; says ANALYZING]
                          ++ [says COMPLETED])
                         (ResultsOk [sampleViolation]))
                      sampleUrl initialApp)))
     = 1.
Proof.
  split; [reflexivity|]. split; [reflexivity|].
  destruct (fetchResults_once_after_completed
              (answers (SubmitOk "42")
                 ([says PENDING; says CLONING; says ANALYZING] ++ [says COMPLETED])
                 (ResultsOk [sampleViolation]))
              sampleUrl "42" [says PENDING; says CLONING; says ANALYZING]
              (says COMPLETED) [] (statusBody COMPLETED None) initialApp
              eq_refl eq_refl eq_refl eq_refl eq_refl) as [Hcompleted _].
  exact (proj2 (Hcompleted eq_refl)).
Defined.

(** C6.  A status check that fails (the response is not [ok], for which
    [checkStatus] throws 'Не вдалося отримати статус аналізу.', or the call
    itself throws) ends the session: [pollStatus] lets the error through,
    no further status check is made whatever answers would follow, no
    results are fetched, and [handleAnalysisStart] ends with status FAILED
    and an ERROR entry with the error's message as the last log entry. *)
Theorem failed_status_check_is_fatal
  env url rid pre t later e (w : App) :
  isAnalyzing (ui w) = false ->
  reply (submitAnswer env) = SubmitOk rid ->
  statusAnswers env = pre ++ t :: later ->
  forallb keepsPolling pre = true ->
  checkFailure (reply t) = Some e ->
  let r := handleAnalysisStart env url w in
  (reply t = StatusNotOk -> e = JsError "Не вдалося отримати статус аналізу.")
  /\ (forall w0 : App, fst (checkStatus t rid w0) = Threw e)
  /\ (forall w0 : App,
        fst (pollStatus (pre ++ t :: later) rid (Some onStatusUpdate) w0) = Threw e)
  /\ fst r = Returned tt
  /\ analysisStatus (ui (snd r)) = Some FAILED
  /\ last (logs (ui (snd r))) = Some (error ("Помилка: " +:+ errorMessageOf e))
  /\ isAnalyzing (ui (snd r)) = false
  /\ count is_check_status (trace (snd r))
     = count is_check_status (trace w) + length pre + 1
  /\ count is_fetch_results (trace (snd r)) = count is_fetch_results (trace w).
Proof.
  intros Hidle Hsubmit Hanswers Hpre He r. subst r.
  split. { intros Hr. rewrite Hr in He. cbn in He. congruence. }
  split. { intros w0. unfold checkStatus, bind, act, await.
           destruct (reply t); cbn in He; now inversion He. }
  split. { intros w0. now rewrite (loop_check_failed rid pre t later Hpre e w0 He). }
  unfold count.
  rewrite (run_check_failed_filter env url rid w pre t later Hidle Hsubmit Hpre
             is_check_status check_is_session e Hanswers He).
  rewrite (run_check_failed_filter env url rid w pre t later Hidle Hsubmit Hpre
             is_fetch_results fetch_is_session e Hanswers He).
  rewrite (run_check_failed env url rid w pre t later Hidle Hsubmit Hpre e Hanswers He).
  cbn [finish fst snd].
  split; [reflexivity|]. split; [reflexivity|]. split.
  { cbn [ui set_ui logs setLogs setIsAnalyzing setAnalysisStatus]. apply last_snoc. }
  split; [reflexivity|]. split.
  - rewrite !List.filter_app, pollEvents_checks, !length_app, repeat_length.
    rewrite (statusesOf_keepsPolling pre Hpre). cbn. lia.
  - rewrite !List.filter_app, pollEvents_no_fetch, !length_app. cbn. lia.
Qed.

(** C6 on a session whose second status check gets a response that is not
    [ok]; the COMPLETED answer that would follow is never asked for. *)
Lemma failed_status_check_is_fatal_witness :
  isAnalyzing (ui initialApp) = false
  /\ forallb keepsPolling [says PENDING] = true
  /\ checkFailure (reply (quiet StatusNotOk))
     = Some (JsError "Не вдалося отримати статус аналізу.")
  /\ count is_check_status
       (trace (snd (handleAnalysisStart
                      (answers (SubmitOk "42")
                         ([says PENDING] ++ quiet StatusNotOk :: [says COMPLETED])
                         (ResultsOk []))
                      sampleUrl initialApp)))
     = 2.
Proof.
  split; [reflexivity|]. split; [reflexivity|]. split; [reflexivity|].
  destruct (failed_status_check_is_fatal
              (answers (SubmitOk "42")
                 ([says PENDING] ++ quiet StatusNotOk :: [says COMPLETED])
                 (ResultsOk []))
              sampleUrl "42" [says PENDING] (quiet StatusNotOk) [says COMPLETED]
              (JsError "Не вдалося отримати статус аналізу.") initialApp
              eq_refl eq_refl eq_refl eq_refl eq_refl)
    as (_ & _ & _ & _ & _ & _ & _ & Hchecks & _).
  exact Hchecks.
Defined.

(** ** Suppression of repeated status lines *)

Lemma appendStatusLine_snoc m prev e :
  appendStatusLine m (prev ++ [e])
  = if decide (message e = m) then prev ++ [e] else prev ++ [e; info m].
Proof.
  unfold appendStatusLine. rewrite last_snoc.
  destruct (decide (message e = m)); [reflexivity|].
  now rewrite <- app_assoc.
Qed.

Lemma appendStatusLine_idem m prev :
  appendStatusLine m (appendStatusLine m prev) = appendStatusLine m prev.
Proof.
  destruct (appendStatusLine_last m prev) as (entry & Hlast & Hmsg).
  unfold appendStatusLine at 1. rewrite Hlast.
  now destruct (decide (message entry = m)).
Qed.

Lemma appendStatusLine_length m prev :
  length (appendStatusLine m prev) <= length prev + 1.
Proof.
  unfold appendStatusLine. destruct (last prev) as [lastLog|].
  - destruct (decide (message lastLog = m)); rewrite ?length_app; cbn; lia.
  - rewrite length_app; cbn; lia.
Qed.

(** The page after one and after two answers of [pollStatus] with the
    callback of [handleAnalysisStart]. *)
Lemma pollStatus_one rid (t : Turn StatusReply) st (w : App) :
  reply t = StatusOk st ->
  snd (pollStatus [t] rid (Some onStatusUpdate) w) = answered rid t st w.
Proof.
  intros Hr.
  rewrite (pollStatus_answered rid _ _ onStatusUpdate_updatesUi t [] st w Hr).
  cbv zeta. unfold answered. now destruct (status st).
Qed.

Lemma pollStatus_two rid (t1 t2 : Turn StatusReply) st1 st2 (w : App) :
  reply t1 = StatusOk st1 -> keepsPolling t1 = true -> reply t2 = StatusOk st2 ->
  snd (pollStatus [t1; t2] rid (Some onStatusUpdate) w)
  = answered rid t2 st2 (answered rid t1 st1 w).
Proof.
  intros Hr1 Ht1 Hr2.
  rewrite (pollStatus_answered rid _ _ onStatusUpdate_updatesUi t1 [t2] st1 w Hr1).
  cbv zeta. unfold keepsPolling in Ht1. rewrite Hr1 in Ht1.
  fold (answered rid t1 st1 w).
  destruct (status st1); try discriminate Ht1;
    now apply pollStatus_one.
Qed.

Lemma answered_logs rid (t : Turn StatusReply) st (w : App) :
  logs (ui (answered rid t st w))
  = appendStatusLine (getStatusMessage (status st))
      (logs (ui (deliver (during t) (note (CallCheckStatus rid) w)))).
Proof. reflexivity. Qed.

(** C5.  [pollStatus] is run with the callback [onStatusUpdate] of
    [handleAnalysisStart] on two answers; [first] is the page after the
    first answer, [arrival] the page when the second answer arrives and
    [second] the page after it.  (1) When both answers have the same status
    and no channel event is dispatched between them, the second answer
    appends nothing: the pair leaves at most one status line.  (2) The
    candidate line is compared with the last entry of the log only: on a
    log that ends with [e] the line is dropped exactly when [e] has the
    same text, whatever precedes [e]; on an empty log it is appended.
    (3) So when both answers have the same status and entries with another
    last text, such as a channel message, were appended in between, the
    status line, which ends the log of [first], is appended again. *)
Theorem status_line_suppressed_only_after_itself
  (rid : string) (t1 t2 : Turn StatusReply) (st1 st2 : AnalysisStatus) (w : App) :
  reply t1 = StatusOk st1 -> keepsPolling t1 = true -> reply t2 = StatusOk st2 ->
  let first := snd (pollStatus [t1] rid (Some onStatusUpdate) w) in
  let arrival := deliver (during t2) (note (CallCheckStatus rid) first) in
  let second := snd (pollStatus [t1; t2] rid (Some onStatusUpdate) w) in
  let m := getStatusMessage (status st2) in
  (status st1 = status st2 -> during t2 = [] ->
   logs (ui second) = logs (ui first)
   /\ length (logs (ui second))
      <= length (logs (ui (deliver (during t1) (note (CallCheckStatus rid) w)))) + 1)
  /\ (forall prev e, logs (ui arrival) = prev ++ [e] ->
      logs (ui second)
      = if decide (message e = m) then prev ++ [e] else prev ++ [e; info m])
  /\ (logs (ui arrival) = [] -> logs (ui second) = [info m])
  /\ (status st1 = status st2 ->
      forall between e,
        logs (ui arrival) = logs (ui first) ++ between ++ [e] ->
        message e <> m ->
        (exists entry, last (logs (ui first)) = Some entry /\ message entry = m)
        /\ logs (ui second) = logs (ui first) ++ between ++ [e; info m]).
Proof.
  intros Hr1 Ht1 Hr2 first arrival second m.
  assert (Hfirst : first = answered rid t1 st1 w) by now apply pollStatus_one.
  assert (Hsecond : logs (ui second) = appendStatusLine m (logs (ui arrival))).
  { unfold second. rewrite (pollStatus_two rid t1 t2 st1 st2 w Hr1 Ht1 Hr2).
    rewrite answered_logs. unfold arrival. now rewrite Hfirst. }
  split; [|split; [|split]].
  - intros Hsame Hquiet.
    assert (E : logs (ui second) = logs (ui first)).
    { rewrite Hsecond. unfold arrival. rewrite Hquiet.
      cbn [deliver foldl ui note]. rewrite Hfirst, answered_logs.
      unfold m. rewrite <- Hsame. apply appendStatusLine_idem. }
    split; [exact E|]. rewrite E, Hfirst, answered_logs.
    apply appendStatusLine_length.
  - intros prev e Hlog. rewrite Hsecond, Hlog. apply appendStatusLine_snoc.
  - intros Hlog. now rewrite Hsecond, Hlog.
  - intros Hsame between e Hlog Hne. split.
    + rewrite Hfirst, answered_logs. unfold m. rewrite <- Hsame.
      apply appendStatusLine_last.
    + rewrite Hsecond, Hlog, app_assoc, appendStatusLine_snoc.
      destruct (decide (message e = m)); [contradiction|].
      now rewrite <- app_assoc.
Qed.

(** C5 on two PENDING answers in a row, and on two PENDING answers with a
    message of the channel between them. *)
Lemma status_line_suppressed_only_after_itself_witness :
  map message
    (logs (ui (snd (pollStatus [says PENDING; says PENDING] "42"
                      (Some onStatusUpdate) initialApp))))
  = ["⏳ Очікування початку аналізу..."]
  /\ map message
       (logs (ui (snd (pollStatus [pendingWhileConnecting; pendingAfterMessage] "42"
                         (Some onStatusUpdate) channelOpened))))
     = ["Запит створено. ID: 42. Підключаюсь до логів...";
        "Перевіряю статус аналізу...";
        "WebSocket з'єднано. Очікую логи...";
        "⏳ Очікування початку аналізу...";
        "Клонування репозиторія...";
        "⏳ Очікування початку аналізу..."].
Proof.
  split.
  - destruct (status_line_suppressed_only_after_itself
                "42" (says PENDING) (says PENDING)
                (statusBody PENDING None) (statusBody PENDING None) initialApp
                eq_refl eq_refl eq_refl)
      as (Hpair & _).
    destruct (Hpair eq_refl eq_refl) as [Hsame _].
    rewrite Hsame. vm_compute. reflexivity.
  - destruct (status_line_suppressed_only_after_itself
                "42" pendingWhileConnecting pendingAfterMessage
                (statusBody PENDING None) (statusBody PENDING None) channelOpened
                eq_refl eq_refl eq_refl)
      as (_ & _ & _ & Hagain).
    destruct (Hagain eq_refl [] (info "Клонування репозиторія...")) as [_ Hlogs].
    + vm_compute. reflexivity.
    + discriminate.
    + rewrite Hlogs. vm_compute. reflexivity.
Defined.

(** The same in a whole run: the second PENDING answer arrives after a
    channel message and is logged again; the third follows it directly and
    is not. *)
Example pending_logged_again_after_channel_message :
  map message
    (logs (ui (snd (handleAnalysisStart
       {| submitAnswer := quiet (SubmitOk "42");
          statusAnswers :=
            [ {| during := [Connected 0]; reply := StatusOk (statusBody PENDING None) |};
              {| during := [Frame 0 0 (info "Клонування репозиторія...")];
                 reply := StatusOk (statusBody PENDING None) |};
              says PENDING ];
          resultsAnswer := quiet (ResultsOk []) |}
       sampleUrl initialApp))))
  = ["Надсилаю запит на аналіз...";
     "Запит створено. ID: 42. Підключаюсь до логів...";
     "Перевіряю статус аналізу...";
     "WebSocket з'єднано. Очікую логи...";
     "⏳ Очікування початку аналізу...";
     "Клонування репозиторія...";
     "⏳ Очікування початку аналізу..."].
Proof. reflexivity. Qed.

(** ** Completion signals of the channel *)

Section Completion.
Context {S : Type}.
Variable h : Handler S.
Implicit Types (w : World S) (e : LogEntry) (p : Event -> bool).

Lemma messageHandler_trace e w :
  trace (messageHandler h e w)
  = trace w ++ (if signalsCompletion e
                then CompletionSignal (h_requestId h) :: DisconnectCall
                     :: match stompClient w with
                        | Some d => [Deactivate d]
                        | None => []
                        end
                else []).
Proof.
  unfold messageHandler, disconnectWebSocket. destruct (signalsCompletion e).
  - cbn. destruct (stompClient w); cbn; now rewrite <- !app_assoc.
  - cbn. now rewrite app_nil_r.
Qed.

Lemma messageHandler_stompClient e w :
  stompClient (messageHandler h e w)
  = if signalsCompletion e then None else stompClient w.
Proof.
  unfold messageHandler, disconnectWebSocket. destruct (signalsCompletion e).
  - cbn. now destruct (stompClient w).
  - reflexivity.
Qed.

Lemma handleAll_cons e entries w :
  handleAll h (e :: entries) w = handleAll h entries (messageHandler h e w).
Proof. reflexivity. Qed.

Lemma handleAll_signals entries w :
  count is_completion_signal (trace (handleAll h entries w))
  = count is_completion_signal (trace w) + completionMessages entries
  /\ count is_disconnect_call (trace (handleAll h entries w))
     = count is_disconnect_call (trace w) + completionMessages entries.
Proof.
  revert w. induction entries as [|e entries IH]; intros w.
  - unfold completionMessages. cbn. lia.
  - rewrite handleAll_cons. destruct (IH (messageHandler h e w)) as [IH1 IH2].
    rewrite IH1, IH2, messageHandler_trace, !count_app.
    unfold completionMessages. cbn [List.filter].
    destruct (signalsCompletion e); [|cbn; lia].
    destruct (stompClient w); cbn; lia.
Qed.

Lemma handleAll_closed entries w :
  stompClient w = None ->
  count is_deactivate (trace (handleAll h entries w)) = count is_deactivate (trace w).
Proof.
  revert w. induction entries as [|e entries IH]; intros w Hnone; [reflexivity|].
  rewrite handleAll_cons, IH.
  - rewrite messageHandler_trace, count_app, Hnone.
    destruct (signalsCompletion e); cbn; lia.
  - rewrite messageHandler_stompClient, Hnone. now destruct (signalsCompletion e).
Qed.

Lemma handleAll_deactivates_once entries w :
  count is_deactivate (trace (handleAll h entries w))
  <= count is_deactivate (trace w) + 1.
Proof.
  revert w. induction entries as [|e entries IH]; intros w; [cbn; lia|].
  rewrite handleAll_cons. destruct (signalsCompletion e) eqn:He.
  - rewrite handleAll_closed by (now rewrite messageHandler_stompClient, He).
    rewrite messageHandler_trace, He, count_app.
    destruct (stompClient w); cbn; lia.
  - etransitivity; [apply IH|].
    rewrite messageHandler_trace, He, app_nil_r. lia.
Qed.

End Completion.

Lemma handleAll_app_ui rid entries (w : App) :
  logs (ui (handleAll (appHandlerFor rid) entries w))
  = logs (ui w) ++ channelLines entries
  /\ sameSession (ui w) (ui (handleAll (appHandlerFor rid) entries w)).
Proof.
  revert w. induction entries as [|e entries IH]; intros w.
  - cbn. rewrite app_nil_r. split; [reflexivity | apply sameSession_refl].
  - rewrite handleAll_cons. destruct (IH (messageHandler (appHandlerFor rid) e w))
      as [IHlogs (Hr & Ha & Hc & Hs)].
    rewrite IHlogs. unfold sameSession. rewrite Hr, Ha, Hc, Hs.
    unfold messageHandler, disconnectWebSocket, channelLines.
    cbn [flat_map]. destruct (signalsCompletion e).
    + cbn. destruct (stompClient w); cbn; rewrite <- !app_assoc; now repeat split.
    + cbn. rewrite <- !app_assoc. now repeat split.
Qed.

(** C4, as the code has it.  A channel message signals completion exactly
    when its level is ERROR or its text begins with 'Аналіз завершено'.
    Every such message that the subscription callback handles triggers one
    completion signal and one call of [disconnectWebSocket]; the callback
    keeps no record of an earlier signal, so over a sequence of messages
    there are as many signals and as many close calls as there are such
    messages, while [deactivate] runs at most once.  With the App's
    callbacks the messages never change the session status (nor the
    results, the request identifier or [isAnalyzing]): they only append to
    the log, each message followed by the channel-closed line when it
    signals completion. *)
Theorem completion_signal_per_completion_message :
  (forall (S : Type) (h : Handler S) (entries : list LogEntry) (w : World S),
      count is_completion_signal (trace (handleAll h entries w))
      = count is_completion_signal (trace w) + completionMessages entries
      /\ count is_disconnect_call (trace (handleAll h entries w))
         = count is_disconnect_call (trace w) + completionMessages entries
      /\ count is_deactivate (trace (handleAll h entries w))
         <= count is_deactivate (trace w) + 1)
  /\ (forall e : LogEntry,
         signalsCompletion e = true
         <-> (exists rest, message e = "Аналіз завершено" +:+ rest) \/ level e = ERROR)
  /\ (forall (rid : string) (entries : list LogEntry) (w : App),
         analysisStatus (ui (handleAll (appHandlerFor rid) entries w))
         = analysisStatus (ui w)
         /\ logs (ui (handleAll (appHandlerFor rid) entries w))
            = logs (ui w) ++ channelLines entries
         /\ sameSession (ui w) (ui (handleAll (appHandlerFor rid) entries w))).
Proof.
  split; [|split].
  - intros S h entries w. destruct (handleAll_signals h entries w) as [H1 H2].
    split; [exact H1|]. split; [exact H2 | apply handleAll_deactivates_once].
  - apply signalsCompletion_spec.
  - intros rid entries w. destruct (handleAll_app_ui rid entries w) as [Hlogs Hsame].
    split; [apply Hsame|]. split; [exact Hlogs | exact Hsame].
Qed.

(** C4 fails as stated: on the channel of a polling session an ERROR message
    followed by the completion line triggers two completion signals and two
    close calls. *)
Lemma second_completion_message_signals_again :
  count is_completion_signal
    (trace (deliver [Connected 0;
                     Frame 0 0 (error "Не вдалося клонувати репозиторій");
                     Frame 0 0 (info "Аналіз завершено. Знайдено 0 порушень")]
              pollingPage))
  = 2
  /\ count is_disconnect_call
       (trace (deliver [Connected 0;
                        Frame 0 0 (error "Не вдалося клонувати репозиторій");
                        Frame 0 0 (info "Аналіз завершено. Знайдено 0 порушень")]
                 pollingPage))
     = 2.
Proof. split; reflexivity. Qed.

(** ** One session at a time *)

Lemma inFlight_reset (w : App) : appWorld w -> inFlight (resetForUrl w).
Proof. intros H. split; [exact H | reflexivity]. Qed.

Lemma inFlight_afterSubmit env url (w : App) : inFlight w -> inFlight (afterSubmit env url w).
Proof.
  intros [H Ha]. unfold afterSubmit. apply deliver_inFlight. split; [exact H | exact Ha].
Qed.

Lemma inFlight_afterConnect rid (w : App) : inFlight w -> inFlight (afterConnect rid w).
Proof.
  intros [H Ha]. unfold afterConnect. split.
  - apply appWorld_ui. apply appWorld_connect. exact H.
  - exact Ha.
Qed.

Lemma inFlight_answered rid (t : Turn StatusReply) st (w : App) :
  inFlight w -> inFlight (answered rid t st w).
Proof.
  intros Hw. unfold answered.
  destruct (deliver_inFlight (during t) (note (CallCheckStatus rid) w)) as [H Ha].
  - exact Hw.
  - split; [exact H | exact Ha].
Qed.

Lemma polled_cons rid t pre st (w : App) :
  reply t = StatusOk st -> keepsPolling t = true ->
  polled rid (t :: pre) w = polled rid pre (answered rid t st w).
Proof.
  intros Hr Ht. unfold polled.
  rewrite (pollStatus_answered rid _ _ onStatusUpdate_updatesUi t pre st w Hr).
  cbv zeta. unfold keepsPolling in Ht. rewrite Hr in Ht.
  now destruct (status st).
Qed.

Lemma inFlight_polled rid pre (w : App) :
  forallb keepsPolling pre = true -> inFlight w -> inFlight (polled rid pre w).
Proof.
  revert w. induction pre as [|t pre IH]; intros w Hpre Hw; [exact Hw|].
  cbn in Hpre. apply andb_true_iff in Hpre as [Ht Hpre].
  destruct (keepsPolling_inv t Ht) as (st & Hr & _).
  rewrite (polled_cons rid t pre st w Hr Ht).
  apply IH; [exact Hpre | now apply inFlight_answered].
Qed.

(** A script of answers either keeps the loop going to its end or has a
    first answer that ends the loop. *)
Lemma first_ending_answer (l : list (Turn StatusReply)) :
  forallb keepsPolling l = true
  \/ exists pre t later,
       l = pre ++ t :: later /\ forallb keepsPolling pre = true
       /\ keepsPolling t = false.
Proof.
  induction l as [|t l IH]; [now left|].
  destruct (keepsPolling t) eqn:Ht.
  - destruct IH as [Hall | (pre & t' & later & -> & Hpre & Ht')].
    + left. cbn. now rewrite Ht.
    + right. exists (t :: pre), t', later. cbn. now rewrite Ht.
  - right. now exists [], t, l.
Qed.

Lemma ending_answer (t : Turn StatusReply) :
  keepsPolling t = false ->
  (exists st, reply t = StatusOk st /\ (status st = COMPLETED \/ status st = FAILED))
  \/ exists e, checkFailure (reply t) = Some e.
Proof.
  unfold keepsPolling. destruct (reply t) as [e| |st]; cbn.
  - right. now exists e.
  - right. now eexists.
  - left. exists st. destruct (status st); try discriminate; auto.
Qed.

Lemma fetchPhase_outcome env rid (w : App) :
  fst (fetchPhase env rid w) <> Awaiting.
Proof.
  unfold fetchPhase, fetchResults, appendLog, set, bind, act, await, throw, ret.
  now destruct (reply (resultsAnswer env)).
Qed.

Lemma finish_done (r : Outcome unit * App) :
  fst r <> Awaiting ->
  fst (finish r) = Returned tt /\ isAnalyzing (ui (snd (finish r))) = false.
Proof. destruct r as [[[]|e|] w]; cbn; [easy | easy | congruence]. Qed.

(** C3, as the code has it.  On a page whose clients were all created by
    the App, a call of [handleAnalysisStart] that starts a session either
    runs to its end, and then [isAnalyzing] is false again, or is suspended
    in its status-polling loop (the submission was accepted and every
    status answer so far is PENDING, CLONING or ANALYZING).  In the second
    case, whatever channel events are dispatched in the meantime, a further
    call of [handleAnalysisStart] or [handleCodeAnalysis] starts nothing:
    it returns with the page unchanged, so it issues no submission and adds
    no log entry.  A new session therefore starts only when the polling
    loop of the previous one has ended. *)
Theorem new_session_only_after_polling_ended env url (w : App) :
  appWorld w ->
  isAnalyzing (ui w) = false ->
  let r := handleAnalysisStart env url w in
  (fst r = Returned tt /\ isAnalyzing (ui (snd r)) = false)
  \/ (fst r = Awaiting
      /\ (exists rid, reply (submitAnswer env) = SubmitOk rid)
      /\ forallb keepsPolling (statusAnswers env) = true
      /\ forall evs,
           isAnalyzing (ui (deliver evs (snd r))) = true
           /\ (forall env' url',
                 handleAnalysisStart env' url' (deliver evs (snd r))
                 = (Returned tt, deliver evs (snd r)))
           /\ (forall answer code fileName,
                 handleCodeAnalysis answer code fileName (deliver evs (snd r))
                 = (Returned tt, deliver evs (snd r)))).
Proof.
  intros Hw Hidle r. subst r.
  destruct (reply (submitAnswer env)) as [e|code statusText errorText|rid] eqn:Hsubmit.
  - left. rewrite (handleAnalysisStart_idle env url w Hidle).
    rewrite (tryAnalysisStart_unreachable env url e _ Hsubmit).
    now apply finish_done.
  - left. rewrite (handleAnalysisStart_idle env url w Hidle).
    rewrite (tryAnalysisStart_rejected env url _ _ _ _ Hsubmit).
    now apply finish_done.
  - destruct (first_ending_answer (statusAnswers env))
      as [Hall | (pre & t & later & Hanswers & Hpre & Ht)].
    + right.
      rewrite (run_waiting env url rid w (statusAnswers env) Hidle Hsubmit Hall eq_refl).
      cbn [fst snd]. split; [reflexivity|]. split; [now exists rid|].
      split; [exact Hall|]. intros evs.
      assert (Hbusy : inFlight (deliver evs
                (polled rid (statusAnswers env)
                   (afterConnect rid (afterSubmit env url (resetForUrl w)))))).
      { apply deliver_inFlight, inFlight_polled; [exact Hall|].
        now apply inFlight_afterConnect, inFlight_afterSubmit, inFlight_reset. }
      destruct Hbusy as [_ Hbusy]. split; [exact Hbusy|]. split; intros.
      -- now apply handleAnalysisStart_busy.
      -- now apply handleCodeAnalysis_busy.
    + left. destruct (ending_answer t Ht) as [(st & Hr & [Hs|Hs]) | (e & He)].
      * rewrite (run_completed env url rid w pre t later Hidle Hsubmit Hpre st
                   Hanswers Hr Hs).
        apply finish_done, fetchPhase_outcome.
      * rewrite (run_failed env url rid w pre t later Hidle Hsubmit Hpre st
                   Hanswers Hr Hs).
        now apply finish_done.
      * rewrite (run_check_failed env url rid w pre t later Hidle Hsubmit Hpre e
                   Hanswers He).
        now apply finish_done.
Qed.

(** C3 on the page of a session that waits for its second status answer. *)
Lemma new_session_only_after_polling_ended_witness :
  appWorld initialApp
  /\ isAnalyzing (ui initialApp) = false
  /\ handleAnalysisStart (answers (SubmitOk "43") [] ResultsNotOk)
       "https://github.com/user/other" pollingPage
     = (Returned tt, pollingPage).
Proof.
  split; [apply appWorld_initial|]. split; [reflexivity|].
  destruct (new_session_only_after_polling_ended
              (answers (SubmitOk "42") [says PENDING] (ResultsOk []))
              sampleUrl initialApp appWorld_initial eq_refl)
    as [[Hdone _] | (_ & _ & _ & Hbusy)].
  - discriminate Hdone.
  - exact (proj1 (proj2 (Hbusy [])) _ _).
Defined.

(** C3 fails as stated.  The first session has ended ([isAnalyzing] is false)
    with its channel still open; starting the second session makes no close
    call, both clients are active afterwards, and a message of the first
    session's channel is appended to the log after the second session's
    first line. *)
Lemma old_channel_outlives_new_session :
  isAnalyzing (ui afterFirstSession) = false
  /\ map active (clients afterFirstSession) = [true]
  /\ logs (ui duringSecondSession)
     = [info "Надсилаю запит на аналіз...";
        info "Знайдено 10 Java файлів";
        info "Запит створено. ID: 2. Підключаюсь до логів...";
        info "Перевіряю статус аналізу..."]
  /\ map (fun c => (h_requestId (config c), active c)) (clients duringSecondSession)
     = [("1", true); ("2", true)]
  /\ count is_disconnect_call (trace duringSecondSession) = 0
  /\ count is_deactivate (trace duringSecondSession) = 0.
Proof. repeat split; reflexivity. Qed.

(** ** Inline code analysis *)

Lemma handleCodeAnalysis_idle answer code fileName (w : App) :
  isAnalyzing (ui w) = false ->
  handleCodeAnalysis answer code fileName w
  = finish (tryCodeAnalysis answer code fileName (resetForCode w)).
Proof.
  intros H. unfold handleCodeAnalysis. rewrite H.
  rewrite <- try_catch_finally_finish. reflexivity.
Qed.

Lemma tryCodeAnalysis_answered answer code fileName r (w : App) :
  reply answer = AnalyzeOk r ->
  tryCodeAnalysis answer code fileName w
  = (if negb (success r)
     then appendLog (error ("Помилка: " +:+ show_optional (ca_errorMessage r))) >>
          set (setAnalysisStatus (Some FAILED))
     else reportCodeAnalysis r)
      (afterAnalyze answer code fileName w).
Proof.
  intros H. unfold tryCodeAnalysis, afterAnalyze, analyzeCode, appendLog, set.
  unfold bind at 1 2 3 4. unfold act at 1. cbv zeta.
  destruct (truthy fileName) as [f|]; unfold act at 1 2 3; unfold bind at 1;
    unfold ret, await; now rewrite H.
Qed.

Lemma for_of_appendLog {A} (g : A -> LogEntry) (l : list A) (w : App) :
  for_of l (fun x => appendLog (g x)) w
  = (Returned tt, set_ui (setLogs (fun prev => prev ++ map g l)) w).
Proof.
  revert w. induction l as [|x l IH]; intros [[lg rs ia cr st] cs sc tr].
  - cbn. unfold ret, set_ui, setLogs. cbn. now rewrite app_nil_r.
  - cbn [for_of]. unfold bind, appendLog, set, act. rewrite IH.
    unfold set_ui, setLogs. cbn. now rewrite <- app_assoc.
Qed.

Lemma reportCompilation_update r (w : App) :
  reportCompilation r w
  = (Returned tt, set_ui (setLogs (fun prev => prev ++ compilationLines r)) w).
Proof.
  unfold reportCompilation, compilationLines.
  destruct (compilationSuccess r) as [[|]|].
  - reflexivity.
  - unfold bind. unfold appendLog at 1. unfold set, act at 1.
    rewrite for_of_appendLog. destruct w as [[lg rs ia cr st] cs sc tr].
    unfold set_ui, setLogs. cbn. now rewrite <- app_assoc.
  - destruct w as [[lg rs ia cr st] cs sc tr].
    unfold ret, set_ui, setLogs. cbn. now rewrite app_nil_r.
Qed.

Lemma reportCodeAnalysis_update r (w : App) :
  reportCodeAnalysis r w = (Returned tt, set_ui (reportUpdate r) w).
Proof.
  unfold reportCodeAnalysis. unfold bind at 1. rewrite reportCompilation_update.
  destruct w as [[lg rs ia cr st] cs sc tr].
  unfold reportUpdate, appendLog, set.
  destruct (qualityScore r) as [q|];
    unfold bind, act, ret, set_ui, setLogs, setResults, setAnalysisStatus; cbn;
    rewrite <- ?app_assoc; reflexivity.
Qed.

Lemma afterAnalyze_page answer code fileName (w : App) :
  appWorld w ->
  currentRequestId (ui (afterAnalyze answer code fileName (resetForCode w)))
  = currentRequestId (ui w)
  /\ length (clients (afterAnalyze answer code fileName (resetForCode w)))
     = length (clients w).
Proof.
  intros Hw. unfold afterAnalyze. cbv zeta.
  destruct (truthy fileName) as [f|];
    match goal with
    | |- context [deliver ?evs ?w0] =>
        destruct (deliver_app evs w0 Hw) as (_ & [(_ & _ & Hc & _) _] & Hl)
    end; split; first [exact Hc | exact Hl].
Qed.

Lemma afterAnalyze_filter p answer code fileName (w : App) :
  (forall e, is_channel_event e = true -> p e = false) ->
  List.filter p (trace (afterAnalyze answer code fileName (resetForCode w)))
  = List.filter p (trace w) ++ List.filter p [CallAnalyzeCode code fileName true].
Proof.
  intros Hp. unfold afterAnalyze. cbv zeta. rewrite (deliver_filter p _ _ Hp).
  destruct (truthy fileName); cbn [trace note set_ui resetForCode];
    apply List.filter_app.
Qed.

Lemma toResults_lookup (vs : list Violation) (i : nat) :
  toResults vs !! i
  = (fun v => {| res_id := Z.of_nat i; filePath := v_filePath v;
                 lineNumber := v_lineNumber v; severity := v_severity v;
                 res_message := v_message v |}) <$> vs !! i.
Proof. unfold toResults. apply list_lookup_imap. Qed.

Lemma tryCodeAnalysis_thrown answer code fileName e (w : App) :
  reply answer = AnalyzeThrows e ->
  tryCodeAnalysis answer code fileName w
  = (Threw e, afterAnalyze answer code fileName w).
Proof.
  intros H. unfold tryCodeAnalysis, afterAnalyze, analyzeCode, appendLog, set.
  unfold bind at 1 2 3 4. unfold act at 1. cbv zeta.
  destruct (truthy fileName) as [f|]; unfold act at 1 2 3; unfold bind at 1;
    unfold ret, await; now rewrite H.
Qed.

(** C8, as the code has it.  An inline-code submission whose call is
    answered ends at once, with status COMPLETED or FAILED.  If the result
    reports success, the status is COMPLETED, the results are the result's
    violations in their order, each with its index as [id], the log ends
    with the summary line, and, when the result carries a quality score,
    the quality-score line comes just before it.  If the result reports a
    failure, or the call throws, the status is FAILED and the log ends with
    an ERROR entry.  In every case the handler returns with [isAnalyzing]
    false, the request identifier is the one the page had before, the only
    API call is [analyzeCode] (no status check), no client is created and
    none is activated. *)
Theorem inline_analysis_ends_at_once answer code fileName (w : App) :
  appWorld w ->
  isAnalyzing (ui w) = false ->
  let res := handleCodeAnalysis answer code fileName w in
  fst res = Returned tt
  /\ (analysisStatus (ui (snd res)) = Some COMPLETED
      \/ analysisStatus (ui (snd res)) = Some FAILED)
  /\ (forall r, reply answer = AnalyzeOk r -> success r = true ->
      analysisStatus (ui (snd res)) = Some COMPLETED
      /\ (forall i, results (ui (snd res)) !! i
                    = (fun v => {| res_id := Z.of_nat i; filePath := v_filePath v;
                                   lineNumber := v_lineNumber v;
                                   severity := v_severity v;
                                   res_message := v_message v |})
                      <$> violations r !! i)
      /\ last (logs (ui (snd res))) = Some (summaryLine r)
      /\ forall q, qualityScore r = Some q ->
           exists before,
             logs (ui (snd res)) = before ++ [qualityLine q; summaryLine r])
  /\ (forall r, reply answer = AnalyzeOk r -> success r = false ->
      analysisStatus (ui (snd res)) = Some FAILED
      /\ last (logs (ui (snd res)))
         = Some (error ("Помилка: " +:+ show_optional (ca_errorMessage r))))
  /\ (forall e, reply answer = AnalyzeThrows e ->
      analysisStatus (ui (snd res)) = Some FAILED
      /\ last (logs (ui (snd res)))
         = Some (error ("Помилка: " +:+ errorMessageOf e)))
  /\ isAnalyzing (ui (snd res)) = false
  /\ currentRequestId (ui (snd res)) = currentRequestId (ui w)
  /\ List.filter is_api_call (trace (snd res))
     = List.filter is_api_call (trace w) ++ [CallAnalyzeCode code fileName true]
  /\ count is_check_status (trace (snd res)) = count is_check_status (trace w)
  /\ count is_activate (trace (snd res)) = count is_activate (trace w)
  /\ length (clients (snd res)) = length (clients w).
Proof.
  intros Hw Hidle res. subst res.
  rewrite (handleCodeAnalysis_idle answer code fileName w Hidle).
  destruct (afterAnalyze_page answer code fileName w Hw) as [Hrid Hclients].
  pose proof (afterAnalyze_filter is_api_call answer code fileName w
                channel_not_api_call) as Hapi.
  pose proof (afterAnalyze_filter is_check_status answer code fileName w
                channel_not_check_status) as Hchecks.
  pose proof (afterAnalyze_filter is_activate answer code fileName w
                channel_not_activate) as Hactivate.
  cbn [List.filter is_api_call is_check_status is_activate] in Hapi, Hchecks, Hactivate.
  rewrite app_nil_r in Hchecks, Hactivate. unfold count.
  assert (Hframe :
    forall f : AppState -> AppState,
      (forall s, isAnalyzing (f s) = false) ->
      (forall s, currentRequestId (f s) = currentRequestId s) ->
      let w' := set_ui f (afterAnalyze answer code fileName (resetForCode w)) in
      isAnalyzing (ui w') = false
      /\ currentRequestId (ui w') = currentRequestId (ui w)
      /\ List.filter is_api_call (trace w')
         = List.filter is_api_call (trace w) ++ [CallAnalyzeCode code fileName true]
      /\ length (List.filter is_check_status (trace w'))
         = length (List.filter is_check_status (trace w))
      /\ length (List.filter is_activate (trace w'))
         = length (List.filter is_activate (trace w))
      /\ length (clients w') = length (clients w)).
  { intros f Hf1 Hf2 w'. subst w'. cbn [ui set_ui trace clients].
    split; [apply Hf1|]. split; [now rewrite Hf2|]. split; [exact Hapi|].
    split; [now rewrite Hchecks|]. split; [now rewrite Hactivate | exact Hclients]. }
  destruct (reply answer) as [e|r] eqn:Hreply.
  - rewrite (tryCodeAnalysis_thrown answer code fileName e _ Hreply).
    cbn [finish fst snd].
    split; [reflexivity|]. split; [now right|]. split; [discriminate|].
    split; [discriminate|]. split.
    + intros e' [= <-]. split; [reflexivity|]. cbn. apply last_snoc.
    + now apply (Hframe (fun s => setIsAnalyzing false (setAnalysisStatus (Some FAILED)
                     (setLogs (fun prev => prev ++ [error ("Помилка: " +:+ errorMessageOf e)]) s)))).
  - rewrite (tryCodeAnalysis_answered answer code fileName r _ Hreply).
    destruct (success r) eqn:Hsuccess; cbn [negb].
    + rewrite reportCodeAnalysis_update. cbn [finish fst snd].
      split; [reflexivity|]. split; [now left|]. split; [|split; [|split]].
      * intros r' [= <-] _. split; [reflexivity|]. split; [|split].
        -- intros i. cbn. apply toResults_lookup.
        -- cbn [ui set_ui logs setIsAnalyzing reportUpdate].
           rewrite !app_assoc. apply last_snoc.
        -- intros q Hq. cbn [ui set_ui logs setIsAnalyzing reportUpdate].
           rewrite Hq. eexists. rewrite !app_assoc. rewrite <- (app_assoc _ [qualityLine q]).
           reflexivity.
      * intros r' [= <-]. congruence.
      * discriminate.
      * now apply (Hframe (fun s => setIsAnalyzing false (reportUpdate r s))).
    + unfold bind, appendLog, set, act. cbn [finish fst snd].
      split; [reflexivity|]. split; [now right|]. split; [|split; [|split]].
      * intros r' [= <-]. congruence.
      * intros r' [= <-] _. split; [reflexivity|]. cbn. apply last_snoc.
      * discriminate.
      * now apply (Hframe (fun s => setIsAnalyzing false (setAnalysisStatus (Some FAILED)
                       (setLogs (fun prev => prev ++
                          [error ("Помилка: " +:+ show_optional (ca_errorMessage r))]) s)))).
Qed.

(** C8 on valid code with a quality score of 85, from the initial page. *)
Lemma inline_analysis_ends_at_once_witness :
  appWorld initialApp
  /\ isAnalyzing (ui initialApp) = false
  /\ success scoredResult = true
  /\ analysisStatus
       (ui (snd (handleCodeAnalysis (quiet (AnalyzeOk scoredResult))
                   "class Main {}" (Some "Main.java") initialApp)))
     = Some COMPLETED.
Proof.
  split; [apply appWorld_initial|]. split; [reflexivity|]. split; [reflexivity|].
  destruct (inline_analysis_ends_at_once
              (quiet (AnalyzeOk scoredResult)) "class Main {}" (Some "Main.java")
              initialApp appWorld_initial eq_refl)
    as (_ & _ & Hsuccess & _).
  exact (proj1 (Hsuccess scoredResult eq_refl eq_refl)).
Defined.

(** C8 fails as stated: a successful result without a quality score brings
    the page to COMPLETED with no quality-score line in the log. *)
Lemma success_without_score_logs_no_score_line :
  success unscoredResult = true
  /\ analysisStatus
       (ui (snd (handleCodeAnalysis (quiet (AnalyzeOk unscoredResult))
                   "class Main {}" (Some "Main.java") initialApp)))
     = Some COMPLETED
  /\ logs (ui (snd (handleCodeAnalysis (quiet (AnalyzeOk unscoredResult))
                      "class Main {}" (Some "Main.java") initialApp)))
     = [info "Починаю аналіз коду...";
        info "Файл: Main.java";
        info "Перевірка компіляції...";
        info "✅ Код успішно компілюється";
        info "Запуск аналізу Checkstyle...";
        info "Аналіз завершено. Знайдено 1 порушень."]
  /\ existsb isQualityLine
       (logs (ui (snd (handleCodeAnalysis (quiet (AnalyzeOk unscoredResult))
                         "class Main {}" (Some "Main.java") initialApp))))
     = false.
Proof. repeat split; reflexivity. Qed.

(** The same input with a score: the line is there. *)
Example success_with_score_logs_score_line :
  map message
    (logs (ui (snd (handleCodeAnalysis (quiet (AnalyzeOk scoredResult))
                      "class Main {}" (Some "Main.java") initialApp))))
  = ["Починаю аналіз коду..."; "Файл: Main.java"; "Перевірка компіляції...";
     "✅ Код успішно компілюється"; "Запуск аналізу Checkstyle...";
     "🌟 Оцінка якості коду: 85/100";
     "Аналіз завершено. Знайдено 1 порушень."]
  /\ existsb isQualityLine
       (logs (ui (snd (handleCodeAnalysis (quiet (AnalyzeOk scoredResult))
                         "class Main {}" (Some "Main.java") initialApp))))
     = true.
Proof. split; reflexivity. Qed.

(** C9 on the answers PENDING then FAILED of a session of the App: both
    statuses reach the callback, the second one before the error. *)
Lemma onStatusUpdate_called_once_per_response_witness :
  updatesUi onStatusUpdate statusUpdater
  /\ forallb keepsPolling [says PENDING] = true
  /\ List.filter is_status_update
       (trace (snd (pollStatus ([says PENDING] ++ [says FAILED]) "42"
                      (Some onStatusUpdate) initialApp)))
     = [StatusUpdate (statusBody PENDING None); StatusUpdate (statusBody FAILED None)]
  /\ analysisStatus
       (ui (snd (pollStatus ([says PENDING] ++ [says FAILED]) "42"
                   (Some onStatusUpdate) initialApp)))
     = Some FAILED.
Proof.
  split; [apply onStatusUpdate_updatesUi|]. split; [reflexivity|].
  destruct onStatusUpdate_called_once_per_response as [Hgeneric Happ].
  split.
  - destruct (Hgeneric AppState "42" onStatusUpdate statusUpdater [says PENDING]
                initialApp onStatusUpdate_updatesUi eq_refl) as [_ Hterminal].
    exact (proj1 (Hterminal (says FAILED) [] (statusBody FAILED None) eq_refl
                    (or_intror eq_refl))).
  - exact (proj1 (proj2 (Happ "42" [says PENDING] (says FAILED) []
                           (statusBody FAILED None) initialApp
                           eq_refl eq_refl eq_refl))).
Defined.

(** ** Reachable pages *)

Lemma inFlight_fetchPhase env rid (w : App) :
  inFlight w -> inFlight (snd (fetchPhase env rid w)).
Proof.
  intros Hw. unfold fetchPhase, fetchResults, appendLog, set, bind, act, await,
    throw, ret.
  pose proof (deliver_inFlight (during (resultsAnswer env))
                (note (CallFetchResults rid)
                   (set_ui (setLogs (fun prev =>
                      prev ++ [info "Завантажую результати..."])) w)) Hw) as H.
  destruct (reply (resultsAnswer env)); exact H.
Qed.

Lemma appWorld_finish (r : Outcome unit * App) :
  appWorld (snd r) -> appWorld (snd (finish r)).
Proof. now destruct r as [[[]|e|] w]. Qed.

Lemma handleAnalysisStart_appWorld env url (w : App) :
  appWorld w -> appWorld (snd (handleAnalysisStart env url w)).
Proof.
  intros Hw. destruct (isAnalyzing (ui w)) eqn:Hidle.
  { now rewrite (handleAnalysisStart_busy env url w Hidle). }
  rewrite (handleAnalysisStart_idle env url w Hidle).
  apply appWorld_finish.
  pose proof (inFlight_afterSubmit env url _ (inFlight_reset w Hw)) as Hsub.
  destruct (reply (submitAnswer env)) as [e|code statusText errorText|rid] eqn:Hsubmit.
  - rewrite (tryAnalysisStart_unreachable env url e _ Hsubmit). apply Hsub.
  - rewrite (tryAnalysisStart_rejected env url _ _ _ _ Hsubmit). apply Hsub.
  - rewrite (tryAnalysisStart_accepted env url rid _ Hsubmit).
    pose proof (inFlight_afterConnect rid _ Hsub) as Hstart.
    destruct (first_ending_answer (statusAnswers env))
      as [Hall | (pre & t & later & -> & Hpre & Ht)].
    + rewrite (loop_waiting env rid _ Hall). now apply inFlight_polled.
    + pose proof (inFlight_polled rid pre _ Hpre Hstart) as Hpolled.
      destruct (ending_answer t Ht) as [(st & Hr & [Hs|Hs]) | (e & He)].
      * rewrite (loop_completed env rid pre t later Hpre st _ Hr Hs).
        now apply inFlight_fetchPhase, inFlight_answered.
      * rewrite (loop_failed env rid pre t later Hpre st _ Hr Hs).
        now apply inFlight_answered.
      * unfold bind at 1. rewrite (loop_check_failed rid pre t later Hpre e _ He).
        now apply deliver_inFlight.
Qed.

Lemma handleCodeAnalysis_appWorld answer code fileName (w : App) :
  appWorld w -> appWorld (snd (handleCodeAnalysis answer code fileName w)).
Proof.
  intros Hw. destruct (isAnalyzing (ui w)) eqn:Hidle.
  { now rewrite (handleCodeAnalysis_busy answer code fileName w Hidle). }
  rewrite (handleCodeAnalysis_idle answer code fileName w Hidle).
  apply appWorld_finish.
  assert (Hafter : appWorld (afterAnalyze answer code fileName (resetForCode w))).
  { unfold afterAnalyze. cbv zeta.
    destruct (truthy fileName);
      match goal with
      | |- context [deliver ?evs ?w0] => exact (proj1 (deliver_app evs w0 Hw))
      end. }
  destruct (reply answer) as [e|r] eqn:Hreply.
  - now rewrite (tryCodeAnalysis_thrown answer code fileName e _ Hreply).
  - rewrite (tryCodeAnalysis_answered answer code fileName r _ Hreply).
    destruct (success r); cbn [negb].
    + now rewrite reportCodeAnalysis_update.
    + exact Hafter.
Qed.

(** Every page that the user's submissions and the channel's events lead to
    has only clients that carry the App's callbacks. *)
Theorem reachable_pages_have_app_clients (actions : list Action) (w : App) :
  appWorld w -> appWorld (run actions w).
Proof.
  revert w. induction actions as [|a actions IH]; intros w Hw; [exact Hw|].
  change (run (a :: actions) w) with (run actions (step a w)). apply IH.
  destruct a as [env url|answer code fileName|ev]; cbn [step].
  - now apply handleAnalysisStart_appWorld.
  - now apply handleCodeAnalysis_appWorld.
  - exact (proj1 (dispatch_app ev w Hw)).
Qed.

(** ** The scenarios of the specification *)

(** Scenario A: PENDING, CLONING, ANALYZING, COMPLETED, then three
    violations. *)
Example scenario_completed :
  analysisStatus (ui (snd (handleAnalysisStart
     (answers (SubmitOk "42")
        [says PENDING; says CLONING; says ANALYZING; says COMPLETED]
        (ResultsOk [sampleViolation; sampleViolation; sampleViolation]))
     sampleUrl initialApp)))
  = Some COMPLETED
  /\ map message (logs (ui (snd (handleAnalysisStart
       (answers (SubmitOk "42")
          [says PENDING; says CLONING; says ANALYZING; says COMPLETED]
          (ResultsOk [sampleViolation; sampleViolation; sampleViolation]))
       sampleUrl initialApp))))
     = ["Надсилаю запит на аналіз...";
        "Запит створено. ID: 42. Підключаюсь до логів...";
        "Перевіряю статус аналізу...";
        "⏳ Очікування початку аналізу...";
        "📥 Клонування репозиторію...";
        "🔍 Аналіз Java файлів...";
        "✅ Аналіз завершено";
        "Завантажую результати...";
        "Знайдено 3 порушень"].
Proof. split; reflexivity. Qed.

(** Scenario B: FAILED with 'Repository not found'. *)
Example scenario_failed :
  map message (logs (ui (snd (handleAnalysisStart
     (answers (SubmitOk "42")
        [quiet (StatusOk (statusBody FAILED (Some "Repository not found")))]
        (ResultsOk []))
     sampleUrl initialApp))))
  = ["Надсилаю запит на аналіз...";
     "Запит створено. ID: 42. Підключаюсь до логів...";
     "Перевіряю статус аналізу...";
     "❌ Помилка аналізу";
     "Помилка: Repository not found"].
Proof. reflexivity. Qed.

(** * Further properties of the code *)

(** ** How a run of [handleAnalysisStart] ends *)

Lemma fetchPhase_answered env rid (w : App) :
  fetchPhase env rid w
  = match reply (resultsAnswer env) with
    | ResultsThrows e => (Threw e, afterFetch env rid w)
    | ResultsNotOk =>
        (Threw (JsError "Не вдалося завантажити результати."), afterFetch env rid w)
    | ResultsOk body =>
        (Returned tt,
         set_ui (setLogs (fun prev => prev ++
                   [info ("Знайдено " +:+ show_nat (length body) +:+ " порушень")]))
           (set_ui (setResults body) (afterFetch env rid w)))
    end.
Proof.
  unfold fetchPhase, afterFetch, fetchResults, appendLog, set, bind, act, await,
    throw, ret.
  now destruct (reply (resultsAnswer env)).
Qed.

Lemma tryAnalysisStart_cases env url (w : App) :
  TryOutcome env url w (tryAnalysisStart env url (resetForUrl w)).
Proof.
  destruct (reply (submitAnswer env)) as [e|code statusText errorText|rid] eqn:Hsubmit.
  - rewrite (tryAnalysisStart_unreachable env url e _ Hsubmit). now constructor.
  - rewrite (tryAnalysisStart_rejected env url _ _ _ _ Hsubmit). now constructor.
  - rewrite (tryAnalysisStart_accepted env url rid _ Hsubmit).
    fold (pollingStart env url rid w).
    destruct (first_ending_answer (statusAnswers env))
      as [Hall | (pre & t & later & Hanswers & Hpre & Ht)].
    + rewrite (loop_waiting env rid _ Hall). now apply TryPolling.
    + rewrite Hanswers.
      destruct (ending_answer t Ht) as [(st & Hr & [Hs|Hs]) | (e & He)].
      * rewrite (loop_completed env rid pre t later Hpre st _ Hr Hs).
        rewrite fetchPhase_answered.
        destruct (reply (resultsAnswer env)) as [e'| |body] eqn:Hres.
        -- eapply TryFetchFailed; eauto. now rewrite Hres.
        -- eapply TryFetchFailed; eauto. now rewrite Hres.
        -- eapply TryFetched; eauto.
      * rewrite (loop_failed env rid pre t later Hpre st _ Hr Hs).
        eapply TryStatusFailed; eauto.
      * unfold bind at 1. rewrite (loop_check_failed rid pre t later Hpre e _ He).
        eapply TryCheckFailed; eauto.
Qed.

Lemma sessionPage_deliver rid evs (w : App) :
  sessionPage rid w -> sessionPage rid (deliver evs w).
Proof.
  intros (Hw & Ha & Hr & Hc & extra & Hl).
  destruct (deliver_app evs w Hw) as (Hw' & [(Hr' & Ha' & Hc' & _) [more Hl']] & _).
  split; [exact Hw'|]. split; [congruence|]. split; [congruence|].
  split; [congruence|]. exists (extra ++ more). now rewrite Hl', Hl.
Qed.

Lemma sessionPage_answered rid0 rid (t : Turn StatusReply) st (w : App) :
  sessionPage rid0 w -> sessionPage rid0 (answered rid t st w).
Proof.
  intros Hw. unfold answered.
  destruct (sessionPage_deliver rid0 (during t) (note (CallCheckStatus rid) w) Hw)
    as (Hw' & Ha & Hr & Hc & extra & Hl).
  split; [exact Hw'|]. split; [exact Ha|]. split; [exact Hr|]. split; [exact Hc|].
  cbn [ui set_ui note statusUpdater logs setLogs setAnalysisStatus]. rewrite Hl.
  unfold appendStatusLine.
  destruct (last (submitLine :: extra)) as [lastLog|];
    [destruct (decide (message lastLog = getStatusMessage (status st)))|];
    eexists; first [reflexivity | apply app_comm_cons].
Qed.

Lemma sessionPage_polled rid0 rid pre (w : App) :
  forallb keepsPolling pre = true ->
  sessionPage rid0 w -> sessionPage rid0 (polled rid pre w).
Proof.
  revert w. induction pre as [|t pre IH]; intros w Hpre Hw; [exact Hw|].
  cbn in Hpre. apply andb_true_iff in Hpre as [Ht Hpre].
  destruct (keepsPolling_inv t Ht) as (st & Hr & _).
  rewrite (polled_cons rid t pre st w Hr Ht).
  apply IH; [exact Hpre | now apply sessionPage_answered].
Qed.

Lemma sessionPage_afterSubmit env url (w : App) :
  appWorld w -> sessionPage None (afterSubmit env url (resetForUrl w)).
Proof.
  intros Hw. unfold afterSubmit. apply sessionPage_deliver.
  split; [exact Hw|]. repeat split. now exists [].
Qed.

Lemma sessionPage_pollingStart env url rid (w : App) :
  appWorld w -> sessionPage (Some rid) (pollingStart env url rid w).
Proof.
  intros Hw.
  destruct (sessionPage_afterSubmit env url w Hw) as (Hw' & Ha & Hr & _ & extra & Hl).
  unfold pollingStart, afterConnect. split.
  { apply appWorld_ui, appWorld_connect. exact Hw'. }
  split; [exact Ha|]. split; [exact Hr|]. split; [reflexivity|].
  cbn [ui set_ui connectWebSocket note set_clients set_stompClient logs setLogs
       setCurrentRequestId].
  rewrite Hl. eexists. rewrite <- !app_comm_cons. reflexivity.
Qed.

Lemma sessionPage_afterFetch rid0 env rid (w : App) :
  sessionPage rid0 w -> sessionPage rid0 (afterFetch env rid w).
Proof.
  intros (Hw & Ha & Hr & Hc & extra & Hl). unfold afterFetch.
  apply sessionPage_deliver. split; [exact Hw|]. split; [exact Ha|].
  split; [exact Hr|]. split; [exact Hc|].
  cbn [ui set_ui note logs setLogs]. rewrite Hl. eexists. apply app_comm_cons.
Qed.

(** The page on which a [try] block that threw or was suspended stands. *)
Lemma TryOutcome_sessionPage env url (w : App) o w' :
  appWorld w -> TryOutcome env url w (o, w') -> o <> Returned tt ->
  exists rid, sessionPage rid w'.
Proof.
  intros Hw H Ho. inversion H; subst.
  - eexists. now apply sessionPage_afterSubmit.
  - eexists. now apply sessionPage_afterSubmit.
  - eexists. apply sessionPage_polled; [assumption|].
    now apply sessionPage_pollingStart.
  - eexists. apply sessionPage_deliver.
    assert (Hp : sessionPage (Some rid) (polled rid pre (pollingStart env url rid w)))
      by (apply sessionPage_polled; [assumption | now apply sessionPage_pollingStart]).
    exact Hp.
  - eexists. apply sessionPage_answered, sessionPage_polled; [assumption|].
    now apply sessionPage_pollingStart.
  - eexists. apply sessionPage_afterFetch, sessionPage_answered, sessionPage_polled;
      [assumption|]. now apply sessionPage_pollingStart.
  - congruence.
Qed.

Lemma finish_threw e (w : App) :
  finish (Threw e, w)
  = (Returned tt,
     set_ui (setIsAnalyzing false)
       (set_ui (setAnalysisStatus (Some FAILED))
          (set_ui (setLogs (fun prev => prev ++
                     [error ("Помилка: " +:+ errorMessageOf e)])) w))).
Proof. reflexivity. Qed.

Lemma afterFetch_status env rid (w : App) :
  appWorld w -> analysisStatus (ui (afterFetch env rid w)) = analysisStatus (ui w).
Proof.
  intros Hw. unfold afterFetch.
  match goal with
  | |- context [deliver ?evs ?w0] =>
      destruct (deliver_app evs w0 Hw) as (_ & [(_ & _ & _ & Hs) _] & _)
  end.
  exact Hs.
Qed.

(** X1.  A run of [handleAnalysisStart] from an idle page whose clients are
    the App's never throws.  When it returns, [isAnalyzing] is false and
    the status is COMPLETED or FAILED; with FAILED the last log entry is
    the ERROR entry of the caught error.  When it is suspended,
    [isAnalyzing] is true. *)
Theorem started_run_ends_completed_or_failed env url (w : App) :
  appWorld w ->
  isAnalyzing (ui w) = false ->
  let r := handleAnalysisStart env url w in
  (forall e, fst r <> Threw e)
  /\ (fst r = Returned tt ->
      isAnalyzing (ui (snd r)) = false
      /\ (analysisStatus (ui (snd r)) = Some COMPLETED
          \/ (analysisStatus (ui (snd r)) = Some FAILED
              /\ exists e, last (logs (ui (snd r)))
                           = Some (error ("Помилка: " +:+ errorMessageOf e)))))
  /\ (fst r = Awaiting -> isAnalyzing (ui (snd r)) = true).
Proof.
  intros Hw Hidle r. subst r. rewrite (handleAnalysisStart_idle env url w Hidle).
  pose proof (tryAnalysisStart_cases env url w) as Hcases.
  destruct (tryAnalysisStart env url (resetForUrl w)) as [o w'].
  destruct o as [[]|e|].
  - (* the try block returned: the results were fetched *)
    inversion Hcases; subst. cbn [finish fst snd].
    assert (Hpage : sessionPage (Some rid)
              (answered rid t st (polled rid pre (pollingStart env url rid w))))
      by (apply sessionPage_answered, sessionPage_polled;
          [assumption | now apply sessionPage_pollingStart]).
    split; [discriminate|].
    split; [|discriminate]. intros _. split; [reflexivity|]. left.
    cbn [ui set_ui analysisStatus setLogs setIsAnalyzing setResults].
    rewrite (afterFetch_status env rid _ (proj1 Hpage)).
    unfold answered. cbn. congruence.
  - (* the try block threw *)
    rewrite finish_threw. cbn [fst snd].
    split; [discriminate|].
    split; [|discriminate]. intros _. split; [reflexivity|]. right.
    split; [reflexivity|]. exists e.
    cbn [ui set_ui logs setLogs setIsAnalyzing setAnalysisStatus]. apply last_snoc.
  - (* the try block is suspended in the polling loop *)
    destruct (TryOutcome_sessionPage env url w _ _ Hw Hcases)
      as (rid & _ & Ha & _); [discriminate|].
    cbn [finish fst snd]. split; [discriminate|].
    split; [discriminate|]. intros _. exact Ha.
Qed.

(** X1 on a second run, whose analysis fails, on the page that an earlier
    run left. *)
Lemma started_run_ends_completed_or_failed_witness :
  appWorld afterFirstSession
  /\ isAnalyzing (ui afterFirstSession) = false
  /\ isAnalyzing
       (ui (snd (handleAnalysisStart
                   (answers (SubmitOk "2") [says FAILED] (ResultsOk []))
                   sampleUrl afterFirstSession)))
     = false.
Proof.
  assert (Hw : appWorld afterFirstSession)
    by apply handleAnalysisStart_appWorld, appWorld_initial.
  split; [exact Hw|]. split; [reflexivity|].
  exact (proj1 (proj1 (proj2 (started_run_ends_completed_or_failed
                                (answers (SubmitOk "2") [says FAILED] (ResultsOk []))
                                sampleUrl afterFirstSession Hw eq_refl))
                  eq_refl)).
Defined.

(** X2.  Once polling has seen COMPLETED, the answer to [fetchResults]
    decides how the run ends.  If the results arrive, the page shows them,
    the status stays COMPLETED and the last log line counts them.  If the
    response is not [ok], the status becomes FAILED although the analysis
    completed, and the last log entry is the ERROR entry
    'Помилка: Не вдалося завантажити результати.'.  In both cases the
    request identifier of the run is kept, [isAnalyzing] is false and
    [fetchResults] was called once. *)
Theorem result_fetch_decides_final_status env url rid pre t later st (w : App) :
  appWorld w ->
  isAnalyzing (ui w) = false ->
  reply (submitAnswer env) = SubmitOk rid ->
  statusAnswers env = pre ++ t :: later ->
  forallb keepsPolling pre = true ->
  reply t = StatusOk st -> status st = COMPLETED ->
  let w' := snd (handleAnalysisStart env url w) in
  (forall body, reply (resultsAnswer env) = ResultsOk body ->
     analysisStatus (ui w') = Some COMPLETED
     /\ results (ui w') = body
     /\ last (logs (ui w'))
        = Some (info ("Знайдено " +:+ show_nat (length body) +:+ " порушень")))
  /\ (reply (resultsAnswer env) = ResultsNotOk ->
      analysisStatus (ui w') = Some FAILED
      /\ last (logs (ui w'))
         = Some (error "Помилка: Не вдалося завантажити результати."))
  /\ currentRequestId (ui w') = Some rid
  /\ isAnalyzing (ui w') = false
  /\ count is_fetch_results (trace w') = count is_fetch_results (trace w) + 1.
Proof.
  intros Hw Hidle Hsubmit Hanswers Hpre Hr Hs w'. subst w'.
  assert (Hcount : count is_fetch_results (trace (snd (handleAnalysisStart env url w)))
                   = count is_fetch_results (trace w) + 1).
  { unfold count.
    rewrite (run_completed_filter env url rid w pre t later Hidle Hsubmit Hpre
               is_fetch_results fetch_is_session st Hanswers Hr Hs).
    rewrite !List.filter_app, pollEvents_no_fetch, !length_app. cbn. lia. }
  revert Hcount.
  rewrite (run_completed env url rid w pre t later Hidle Hsubmit Hpre st Hanswers Hr Hs).
  assert (Hpage : sessionPage (Some rid)
            (answered rid t st (polled rid pre (pollingStart env url rid w))))
    by (apply sessionPage_answered, sessionPage_polled;
        [assumption | now apply sessionPage_pollingStart]).
  destruct (sessionPage_afterFetch _ env rid _ Hpage) as (_ & _ & Hres & Hrid & _).
  pose proof (afterFetch_status env rid _ (proj1 Hpage)) as Hstatus.
  rewrite fetchPhase_answered. intros Hcount.
  destruct (reply (resultsAnswer env)) as [e| |body]; cbn [finish fst snd].
  - split; [discriminate|]. split; [discriminate|]. now repeat split.
  - split; [discriminate|]. split; [|now repeat split].
    intros _. split; [reflexivity|]. cbn. apply last_snoc.
  - split; [|split; [discriminate | now repeat split]].
    intros body' [= <-]. split; [|split; [reflexivity|]].
    + cbn [ui set_ui analysisStatus setLogs setIsAnalyzing setResults].
      rewrite Hstatus. unfold answered. cbn. congruence.
    + cbn [ui set_ui logs setLogs setIsAnalyzing setResults]. apply last_snoc.
Qed.

(** X2 on a run whose results cannot be loaded. *)
Lemma result_fetch_decides_final_status_witness :
  appWorld initialApp
  /\ isAnalyzing (ui initialApp) = false
  /\ forallb keepsPolling [says ANALYZING] = true
  /\ analysisStatus
       (ui (snd (handleAnalysisStart
                   (answers (SubmitOk "42") ([says ANALYZING] ++ [says COMPLETED])
                      ResultsNotOk)
                   sampleUrl initialApp)))
     = Some FAILED.
Proof.
  split; [apply appWorld_initial|]. split; [reflexivity|]. split; [reflexivity|].
  destruct (result_fetch_decides_final_status
              (answers (SubmitOk "42") ([says ANALYZING] ++ [says COMPLETED])
                 ResultsNotOk)
              sampleUrl "42" [says ANALYZING] (says COMPLETED) []
              (statusBody COMPLETED None) initialApp
              appWorld_initial eq_refl eq_refl eq_refl eq_refl eq_refl eq_refl)
    as (_ & Hfailed & _).
  exact (proj1 (Hfailed eq_refl)).
Defined.

(** X3.  When the submit call itself throws (the network is down), the run
    ends with status FAILED and an ERROR entry as the last log entry: the
    error's message, or 'Невідома помилка' if what was thrown is not an
    [Error].  No status check is made and no channel is opened. *)
Theorem thrown_submission_fails_without_polling env url e (w : App) :
  isAnalyzing (ui w) = false ->
  reply (submitAnswer env) = SubmitThrows e ->
  let r := handleAnalysisStart env url w in
  fst r = Returned tt
  /\ analysisStatus (ui (snd r)) = Some FAILED
  /\ last (logs (ui (snd r)))
     = Some (error ("Помилка: " +:+ match e with
                                     | JsError m => m
                                     | NonError => "Невідома помилка"
                                     end))
  /\ isAnalyzing (ui (snd r)) = false
  /\ count is_check_status (trace (snd r)) = count is_check_status (trace w)
  /\ count is_activate (trace (snd r)) = count is_activate (trace w).
Proof.
  intros Hidle Hreply r. subst r.
  rewrite (handleAnalysisStart_idle env url w Hidle).
  rewrite (tryAnalysisStart_unreachable env url e _ Hreply).
  rewrite finish_threw. cbn [fst snd].
  split; [reflexivity|]. split; [reflexivity|]. split.
  { cbn [ui set_ui logs setLogs setIsAnalyzing setAnalysisStatus]. apply last_snoc. }
  split; [reflexivity|]. cbn [trace set_ui clients]. unfold count.
  rewrite (afterSubmit_filter is_check_status env url _ channel_not_check_status).
  rewrite (afterSubmit_filter is_activate env url _ channel_not_activate).
  cbn [trace resetForUrl set_ui List.filter is_check_status is_activate].
  rewrite !app_nil_r. now destruct e.
Qed.

(** X3 on a thrown value that is not an [Error]. *)
Lemma thrown_submission_fails_without_polling_witness :
  isAnalyzing (ui initialApp) = false
  /\ last (logs (ui (snd (handleAnalysisStart
                            (answers (SubmitThrows NonError) [] ResultsNotOk)
                            sampleUrl initialApp))))
     = Some (error "Помилка: Невідома помилка").
Proof.
  split; [reflexivity|].
  exact (proj1 (proj2 (proj2 (thrown_submission_fails_without_polling
                                (answers (SubmitThrows NonError) [] ResultsNotOk)
                                sampleUrl NonError initialApp eq_refl eq_refl)))).
Defined.

(** ** The polling loop on any script *)

Lemma pollStatus_check_failed {S} pre (t : Turn StatusReply) later rid cb e
  (w : World S) :
  callbackReturns cb -> forallb keepsPolling pre = true ->
  checkFailure (reply t) = Some e ->
  fst (pollStatus (pre ++ t :: later) rid cb w) = Threw e.
Proof.
  intros Hcb Hpre He.
  destruct (pollStatus_prefix pre rid cb w Hcb Hpre) as (w' & ->).
  cbn [pollStatus]. unfold bind at 1. unfold checkStatus, bind, act, await.
  destruct (reply t) as [e'| |st]; cbn in He; now inversion He.
Qed.

(** X4.  Whatever the answers, and for a callback that returns:
    [pollStatus] returns only a status that is COMPLETED, and it is the
    first answer that is not PENDING, CLONING or ANALYZING; it throws only
    at the first such answer, when that one is a failed check or a FAILED
    status; and it is still waiting only if every answer so far is PENDING,
    CLONING or ANALYZING. *)
Theorem pollStatus_outcome_explained {S : Type}
  (answers : list (Turn StatusReply)) (rid : string)
  (cb : option (AnalysisStatus -> M S unit)) (w : World S) :
  callbackReturns cb ->
  match fst (pollStatus answers rid cb w) with
  | Returned st =>
      status st = COMPLETED
      /\ exists pre t later,
           answers = pre ++ t :: later /\ forallb keepsPolling pre = true
           /\ reply t = StatusOk st
  | Threw e =>
      exists pre t later,
        answers = pre ++ t :: later /\ forallb keepsPolling pre = true
        /\ (checkFailure (reply t) = Some e
            \/ exists st, reply t = StatusOk st /\ status st = FAILED
                          /\ e = JsError (or_else (errorMessage st) genericFailure))
  | Awaiting => forallb keepsPolling answers = true
  end.
Proof.
  intros Hcb.
  destruct (first_ending_answer answers)
    as [Hall | (pre & t & later & -> & Hpre & Ht)].
  - destruct (pollStatus_prefix answers rid cb w Hcb Hall) as (w' & Hw').
    specialize (Hw' []). rewrite app_nil_r in Hw'. now rewrite Hw'.
  - destruct (ending_answer t Ht) as [(st & Hr & Hs) | (e & He)].
    + destruct (pollStatus_prefix pre rid cb w Hcb Hpre) as (w' & ->).
      destruct (pollStatus_step t later rid cb st w' Hcb Hr) as (w2 & _ & ->).
      destruct Hs as [Hs|Hs]; rewrite Hs; cbn [fst].
      * split; [exact Hs|]. now exists pre, t, later.
      * exists pre, t, later. split; [reflexivity|]. split; [exact Hpre|].
        right. now exists st.
    + rewrite (pollStatus_check_failed pre t later rid cb e w Hcb Hpre He).
      exists pre, t, later. auto.
Qed.

(** X4 on the answers PENDING, COMPLETED, FAILED: the loop returns the
    COMPLETED status and never looks at the last answer. *)
Lemma pollStatus_outcome_explained_witness :
  callbackReturns (Some onStatusUpdate)
  /\ fst (pollStatus [says PENDING; says COMPLETED; says FAILED] "42"
            (Some onStatusUpdate) initialApp)
     = Returned (statusBody COMPLETED None)
  /\ status (statusBody COMPLETED None) = COMPLETED.
Proof.
  assert (Hcb : callbackReturns (Some onStatusUpdate))
    by (intros f [= <-] a w; reflexivity).
  split; [exact Hcb|]. split; [reflexivity|].
  exact (proj1 (pollStatus_outcome_explained
                  [says PENDING; says COMPLETED; says FAILED] "42"
                  (Some onStatusUpdate) initialApp Hcb)).
Defined.

(** ** Status lines *)

Lemma getStatusMessage_inj s1 s2 :
  getStatusMessage s1 = getStatusMessage s2 -> s1 = s2.
Proof. destruct s1, s2; intros H; first [reflexivity | discriminate H]. Qed.

(** X5.  A change of status is always logged: when [pollStatus], run with
    the callback [onStatusUpdate] of [handleAnalysisStart], is answered
    with a status that keeps it polling and then, with no channel event in
    between, with another status, the second answer appends its status line
    to the log and the page shows the second status.  The five status
    lines are pairwise different. *)
Theorem status_change_is_logged
  (rid : string) (t1 t2 : Turn StatusReply) (st1 st2 : AnalysisStatus) (w : App) :
  reply t1 = StatusOk st1 -> keepsPolling t1 = true -> reply t2 = StatusOk st2 ->
  status st1 <> status st2 ->
  during t2 = [] ->
  let first := snd (pollStatus [t1] rid (Some onStatusUpdate) w) in
  let second := snd (pollStatus [t1; t2] rid (Some onStatusUpdate) w) in
  logs (ui second) = logs (ui first) ++ [info (getStatusMessage (status st2))]
  /\ analysisStatus (ui first) = Some (status st1)
  /\ analysisStatus (ui second) = Some (status st2)
  /\ getStatusMessage (status st1) <> getStatusMessage (status st2).
Proof.
  intros Hr1 Ht1 Hr2 Hne Hquiet first second.
  assert (Hmsg : getStatusMessage (status st1) <> getStatusMessage (status st2))
    by (intros H; apply Hne, getStatusMessage_inj, H).
  unfold first, second.
  rewrite (pollStatus_one rid t1 st1 w Hr1),
    (pollStatus_two rid t1 t2 st1 st2 w Hr1 Ht1 Hr2).
  split; [|split; [reflexivity | split; [reflexivity | exact Hmsg]]].
  rewrite (answered_logs rid t2), Hquiet. cbn [deliver foldl ui note].
  rewrite answered_logs.
  destruct (appendStatusLine_last (getStatusMessage (status st1))
              (logs (ui (deliver (during t1) (note (CallCheckStatus rid) w)))))
    as (entry & Hlast & Hentry).
  unfold appendStatusLine at 1. rewrite Hlast.
  destruct (decide (message entry = getStatusMessage (status st2))); [congruence|].
  reflexivity.
Qed.

(** X5 on PENDING followed by CLONING. *)
Lemma status_change_is_logged_witness :
  status (statusBody PENDING None) <> status (statusBody CLONING None)
  /\ logs (ui (snd (pollStatus [says PENDING; says CLONING] "42"
                      (Some onStatusUpdate) initialApp)))
     = [info "⏳ Очікування початку аналізу..."; info "📥 Клонування репозиторію..."].
Proof.
  assert (Hne : status (statusBody PENDING None) <> status (statusBody CLONING None))
    by discriminate.
  split; [exact Hne|].
  exact (proj1 (status_change_is_logged "42" (says PENDING) (says CLONING)
                  (statusBody PENDING None) (statusBody CLONING None) initialApp
                  eq_refl eq_refl eq_refl Hne eq_refl)).
Defined.

(** ** The clients and the module variable of socket.ts *)

Section Clients.
Context {S : Type}.
Implicit Types (w : World S) (cl : Client S).

Lemma connectWebSocket_clients rid onLog onComplete w :
  clients (connectWebSocket rid onLog onComplete w)
  = clients w ++ [{| config := {| h_requestId := rid; onLogReceived := onLog;
                                  onAnalysisComplete := onComplete |};
                     active := true; connected := false; subscriptions := [] |}].
Proof.
  unfold connectWebSocket. cbn [clients note set_clients set_stompClient].
  rewrite <- (Nat.add_0_r (length (clients w))) at 1.
  now rewrite alter_app_r.
Qed.

(** X6.  [connectWebSocket] leaves every client that exists as it is, active
    or not: it appends one active client without subscriptions, whose
    connection is not established yet, makes the module variable point to
    it, and calls [activate] on it and nothing else.  The client that the
    variable held before is not deactivated. *)
Theorem connectWebSocket_keeps_earlier_clients rid onLog onComplete w :
  let w' := connectWebSocket rid onLog onComplete w in
  (forall c, c < length (clients w) -> clients w' !! c = clients w !! c)
  /\ clients w' !! length (clients w)
     = Some {| config := {| h_requestId := rid; onLogReceived := onLog;
                            onAnalysisComplete := onComplete |};
               active := true; connected := false; subscriptions := [] |}
  /\ length (clients w') = length (clients w) + 1
  /\ stompClient w' = Some (length (clients w))
  /\ trace w' = trace w ++ [Activate (length (clients w))]
  /\ ui w' = ui w.
Proof.
  intros w'. subst w'. rewrite connectWebSocket_clients.
  split; [intros c Hc; now apply lookup_app_l|].
  split; [now rewrite list_lookup_middle|].
  split; [now rewrite length_app|]. now repeat split.
Qed.

Lemma disconnectWebSocket_clients w :
  clients (disconnectWebSocket w)
  = match stompClient w with
    | Some d => alter (set_active false) d (clients w)
    | None => clients w
    end.
Proof. unfold disconnectWebSocket. cbn. now destruct (stompClient w). Qed.

Lemma disconnectWebSocket_stompClient w : stompClient (disconnectWebSocket w) = None.
Proof. unfold disconnectWebSocket. cbn. now destruct (stompClient w). Qed.

Lemma disconnectWebSocket_trace w :
  trace (disconnectWebSocket w)
  = trace w ++ DisconnectCall :: match stompClient w with
                                 | Some d => [Deactivate d]
                                 | None => []
                                 end.
Proof.
  unfold disconnectWebSocket. cbn. destruct (stompClient w); cbn;
    now rewrite <- ?app_assoc.
Qed.

(** X7.  [disconnectWebSocket] deactivates the client that the module
    variable holds, and only that one, and clears the variable.  A second
    call, or a call when no client is held, deactivates nothing and leaves
    all clients as they are; the callbacks' state is never touched. *)
Theorem disconnectWebSocket_closes_current_client_once w :
  stompClient (disconnectWebSocket w) = None
  /\ (forall d, stompClient w = Some d ->
        clients (disconnectWebSocket w) !! d = set_active false <$> clients w !! d)
  /\ (forall c, stompClient w <> Some c ->
        clients (disconnectWebSocket w) !! c = clients w !! c)
  /\ clients (disconnectWebSocket (disconnectWebSocket w))
     = clients (disconnectWebSocket w)
  /\ count is_deactivate (trace (disconnectWebSocket (disconnectWebSocket w)))
     = count is_deactivate (trace (disconnectWebSocket w))
  /\ (stompClient w = None -> clients (disconnectWebSocket w) = clients w)
  /\ ui (disconnectWebSocket w) = ui w.
Proof.
  split; [apply disconnectWebSocket_stompClient|].
  split; [|split; [|split; [|split; [|split]]]].
  - intros d Hd. rewrite disconnectWebSocket_clients, Hd.
    apply list_lookup_alter_eq.
  - intros c Hc. rewrite disconnectWebSocket_clients.
    destruct (stompClient w) as [d|]; [|reflexivity].
    apply list_lookup_alter_ne. congruence.
  - now rewrite (disconnectWebSocket_clients (disconnectWebSocket w)),
      disconnectWebSocket_stompClient.
  - rewrite (disconnectWebSocket_trace (disconnectWebSocket w)),
      disconnectWebSocket_stompClient, count_app. cbn. lia.
  - intros Hnone. now rewrite disconnectWebSocket_clients, Hnone.
  - unfold disconnectWebSocket. cbn. now destruct (stompClient w).
Qed.

(** X8.  A message that signals completion closes the client that the
    module variable holds at that moment, whichever client's subscription
    received it: that client is deactivated, every other client, the
    receiving one included, stays as it was, and the variable is
    cleared. *)
Theorem completion_message_closes_the_current_client c k cl h e d w :
  clients w !! c = Some cl ->
  subscriptions cl !! k = Some h ->
  signalsCompletion e = true ->
  stompClient w = Some d ->
  let w' := dispatch (Frame c k e) w in
  stompClient w' = None
  /\ clients w' !! d = set_active false <$> clients w !! d
  /\ (forall c', c' <> d -> clients w' !! c' = clients w !! c')
  /\ trace w' = trace w ++ [CompletionSignal (h_requestId h); DisconnectCall;
                            Deactivate d].
Proof.
  intros Hc Hk He Hd w'. subst w'. cbn [dispatch]. rewrite Hc, Hk.
  unfold messageHandler. rewrite He.
  split; [apply disconnectWebSocket_stompClient|].
  rewrite disconnectWebSocket_clients, disconnectWebSocket_trace.
  cbn [stompClient clients trace note set_ui]. rewrite Hd.
  split; [apply list_lookup_alter_eq|].
  split; [intros c' Hc'; apply list_lookup_alter_ne; congruence|].
  now rewrite <- app_assoc.
Qed.

End Clients.

(** X8 on the two sessions in a row: the completion message of the first
    session's channel closes the second session's client and leaves the
    first one active. *)
Lemma completion_message_closes_the_current_client_witness :
  signalsCompletion (info "Аналіз завершено. Знайдено 5 порушень") = true
  /\ stompClient duringSecondSession = Some 1
  /\ (fun c => (h_requestId (config c), active c))
     <$> clients (dispatch (Frame 0 0 (info "Аналіз завершено. Знайдено 5 порушень"))
                    duringSecondSession) !! 1
     = Some ("2", false)
  /\ (fun c => (h_requestId (config c), active c))
     <$> clients (dispatch (Frame 0 0 (info "Аналіз завершено. Знайдено 5 порушень"))
                    duringSecondSession) !! 0
     = Some ("1", true).
Proof.
  split; [reflexivity|]. split; [reflexivity|].
  destruct (completion_message_closes_the_current_client
              0 0 _ _ (info "Аналіз завершено. Знайдено 5 порушень") 1
              duringSecondSession eq_refl eq_refl eq_refl eq_refl)
    as (_ & Hclosed & Hothers & _).
  split.
  - rewrite Hclosed. reflexivity.
  - rewrite (Hothers 0) by discriminate. reflexivity.
Defined.

Lemma alter_snoc {A} (f : A -> A) (l : list A) (x : A) :
  alter f (length l) (l ++ [x]) = l ++ [f x].
Proof.
  rewrite <- (Nat.add_0_r (length l)) at 1. now rewrite alter_app_r.
Qed.

Lemma lookup_snoc {A} (l : list A) (x : A) : (l ++ [x]) !! length l = Some x.
Proof. now rewrite list_lookup_middle. Qed.

(** X9.  [onConnect] subscribes on the client that the module variable
    holds when the connection is established, not on the client that
    connected, and only if that client's own connection is established.
    After two calls of [connectWebSocket], when the first client connects
    before the second one, its callback delivers the confirmation line and
    subscribes nothing: no client has a subscription and [subscribe] has no
    effect.  When the first client connects after the second one, the first
    request's topic is subscribed on the second client, after the second
    request's topic, and the first client has no subscription. *)
Theorem onConnect_subscribes_on_the_current_client {S : Type}
  (rid1 rid2 : string) (log1 log2 : LogEntry -> S -> S) (done1 done2 : S -> S)
  (w : World S) :
  (let w' := dispatch (Connected (length (clients w)))
               (connectWebSocket rid2 log2 done2
                  (connectWebSocket rid1 log1 done1 w)) in
   subscriptions <$> clients w' !! length (clients w) = Some []
   /\ subscriptions <$> clients w' !! (length (clients w) + 1) = Some []
   /\ trace w' = trace w ++ [Activate (length (clients w));
                             Activate (length (clients w) + 1)]
   /\ ui w' = log1 {| level := INFO;
                      message := "WebSocket з'єднано. Очікую логи..." |} (ui w))
  /\ (let w' := dispatch (Connected (length (clients w)))
                  (dispatch (Connected (length (clients w) + 1))
                     (connectWebSocket rid2 log2 done2
                        (connectWebSocket rid1 log1 done1 w))) in
      subscriptions <$> clients w' !! length (clients w) = Some []
      /\ map h_requestId <$> (subscriptions <$> clients w' !! (length (clients w) + 1))
         = Some [rid2; rid1]
      /\ trace w' = trace w ++ [Activate (length (clients w));
                                Activate (length (clients w) + 1);
                                Subscribe (length (clients w) + 1)
                                          ("/topic/logs/" +:+ rid2);
                                Subscribe (length (clients w) + 1)
                                          ("/topic/logs/" +:+ rid1)]).
Proof.
  set (n := length (clients w)).
  set (c1 := {| config := {| h_requestId := rid1; onLogReceived := log1;
                             onAnalysisComplete := done1 |};
                active := true; connected := false; subscriptions := [] |}).
  set (c2 := {| config := {| h_requestId := rid2; onLogReceived := log2;
                             onAnalysisComplete := done2 |};
                active := true; connected := false; subscriptions := [] |}).
  set (w1 := connectWebSocket rid1 log1 done1 w).
  set (w2 := connectWebSocket rid2 log2 done2 w1).
  assert (Hc1 : clients w1 = clients w ++ [c1]) by apply connectWebSocket_clients.
  assert (Hlen : length (clients w1) = n + 1)
    by (rewrite Hc1, length_app; reflexivity).
  assert (Hc2 : clients w2 = (clients w ++ [c1]) ++ [c2])
    by (unfold w2; rewrite connectWebSocket_clients, Hc1; reflexivity).
  assert (Hp : stompClient w2 = Some (n + 1)) by (rewrite <- Hlen; reflexivity).
  assert (Ht : trace w2 = trace w ++ [Activate n; Activate (n + 1)]).
  { unfold w2, connectWebSocket at 1. cbn [trace note set_clients set_stompClient].
    rewrite Hlen. unfold w1, connectWebSocket.
    cbn [trace note set_clients set_stompClient]. now rewrite <- app_assoc. }
  assert (Hu : ui w2 = ui w) by reflexivity.
  assert (Hfirst : forall a x : Client S, ((clients w ++ [a]) ++ [x]) !! n = Some a).
  { intros a x. rewrite lookup_app_l by (rewrite length_app; cbn; lia).
    apply lookup_snoc. }
  assert (Hsecond : forall a x : Client S,
            ((clients w ++ [a]) ++ [x]) !! (n + 1) = Some x).
  { intros a x. replace (n + 1) with (length (clients w ++ [a]))
      by (rewrite length_app; reflexivity).
    apply lookup_snoc. }
  assert (Hfirst' : forall (f : Client S -> Client S) a x,
            alter f n ((clients w ++ [a]) ++ [x]) = (clients w ++ [f a]) ++ [x]).
  { intros f a x. rewrite alter_app_l by (rewrite length_app; cbn; lia).
    unfold n. now rewrite alter_snoc. }
  assert (Hsecond' : forall (f : Client S -> Client S) a x,
            alter f (n + 1) ((clients w ++ [a]) ++ [x])
            = (clients w ++ [a]) ++ [f x]).
  { intros f a x. replace (n + 1) with (length (clients w ++ [a]))
      by (rewrite length_app; reflexivity).
    apply alter_snoc. }
  split.
  - cbv zeta. cbn [dispatch]. rewrite Hc2, Hfirst. unfold onConnect.
    cbn [stompClient clients trace ui set_ui note set_clients config h_requestId
         onLogReceived].
    rewrite Hp, Hc2, Hfirst', Hsecond.
    cbn [connected c2]. cbn [clients trace ui set_ui set_clients].
    rewrite Hc2, Hfirst', Hfirst, Hsecond, Hu. now repeat split.
  - cbv zeta.
    set (w3 := dispatch (Connected (n + 1)) w2).
    assert (Hafter : clients w3
                     = (clients w ++ [c1])
                       ++ [add_subscription (config c2) (set_connected true c2)]
                     /\ stompClient w3 = Some (n + 1)
                     /\ trace w3 = trace w2
                                   ++ [Subscribe (n + 1) ("/topic/logs/" +:+ rid2)]).
    { unfold w3. cbn [dispatch]. rewrite Hc2, Hsecond. unfold onConnect.
      cbn [stompClient clients trace ui set_ui note set_clients config h_requestId
           onLogReceived].
      rewrite Hp, Hc2, Hsecond', Hsecond. cbn [connected set_connected].
      cbn [clients ui stompClient trace set_ui set_clients note].
      rewrite Hc2, !Hsecond'. now repeat split. }
    destruct Hafter as (Hc3 & Hp3 & Ht3).
    cbn [dispatch]. rewrite Hc3, Hfirst. unfold onConnect.
    cbn [stompClient clients trace ui set_ui note set_clients config h_requestId
         onLogReceived].
    rewrite Hp3, Hc3, Hfirst', Hsecond.
    cbn [connected add_subscription set_connected].
    cbn [clients trace note set_clients set_ui].
    rewrite Hc3, Hfirst', Hsecond', Hfirst, Hsecond.
    split; [reflexivity|]. split; [reflexivity|].
    rewrite Ht3, Ht, <- !app_assoc. reflexivity.
Qed.

(** ** What channel events can and cannot do *)

Section ChannelEffects.
Context {S : Type}.
Implicit Types (w : World S) (cl : Client S).

Lemma agedClient_refl cl : agedClient cl cl.
Proof. split; [reflexivity|]. split; [auto|]. exists []. now rewrite app_nil_r. Qed.

Lemma agedClient_trans cl1 cl2 cl3 :
  agedClient cl1 cl2 -> agedClient cl2 cl3 -> agedClient cl1 cl3.
Proof.
  intros (Hc1 & Ha1 & m1 & Hs1) (Hc2 & Ha2 & m2 & Hs2).
  split; [congruence|]. split; [auto|].
  exists (m1 ++ m2). now rewrite Hs2, Hs1, app_assoc.
Qed.

Lemma aged_refl (l : list (Client S)) : Forall2 agedClient l l.
Proof. induction l; constructor; [apply agedClient_refl | assumption]. Qed.

Lemma aged_trans (l1 l2 l3 : list (Client S)) :
  Forall2 agedClient l1 l2 -> Forall2 agedClient l2 l3 -> Forall2 agedClient l1 l3.
Proof.
  intros H12. revert l3. induction H12 as [|x y l1 l2 Hxy _ IH]; intros l3 H23.
  - inversion H23. constructor.
  - inversion H23 as [|y' z l2' l3' Hyz Hrest]; subst. constructor.
    + eapply agedClient_trans; eassumption.
    + now apply IH.
Qed.

Lemma aged_alter (f : Client S -> Client S) d (l : list (Client S)) :
  (forall cl, agedClient cl (f cl)) -> Forall2 agedClient l (alter f d l).
Proof.
  intros Hf. apply Forall2_alter_r; [apply aged_refl|].
  intros x y _ _ Hxy. eapply agedClient_trans; [exact Hxy | apply Hf].
Qed.

Lemma agedClient_deactivate cl : agedClient cl (set_active false cl).
Proof.
  split; [reflexivity|]. split; [discriminate|]. exists []. cbn.
  now rewrite app_nil_r.
Qed.

Lemma agedClient_subscribe (h : Handler S) cl : agedClient cl (add_subscription h cl).
Proof. split; [reflexivity|]. split; [auto|]. now exists [h]. Qed.

Lemma agedClient_connected b cl : agedClient cl (set_connected b cl).
Proof.
  split; [reflexivity|]. split; [auto|]. exists []. cbn.
  now rewrite app_nil_r.
Qed.

Lemma disconnect_aged w :
  Forall2 agedClient (clients w) (clients (disconnectWebSocket w)).
Proof.
  rewrite disconnectWebSocket_clients. destruct (stompClient w); [|apply aged_refl].
  apply aged_alter, agedClient_deactivate.
Qed.

Lemma dispatch_aged ev w :
  Forall2 agedClient (clients w) (clients (dispatch ev w))
  /\ (stompClient (dispatch ev w) = stompClient w \/ stompClient (dispatch ev w) = None).
Proof.
  destruct ev as [c|c k e|c]; cbn [dispatch].
  - destruct (clients w !! c) as [cl|]; [|split; [apply aged_refl | now left]].
    assert (Hc : Forall2 agedClient (clients w)
                   (alter (set_connected true) c (clients w)))
      by apply aged_alter, agedClient_connected.
    unfold onConnect. cbn [stompClient clients set_ui set_clients].
    destruct (stompClient w) as [d|] eqn:Hd;
      [|split; [exact Hc | cbn [stompClient set_ui set_clients]; now left]].
    destruct (alter (set_connected true) c (clients w) !! d) as [held|];
      [destruct (connected held)|];
      cbn [stompClient clients note set_clients set_ui];
      (split; [|now left]); try exact Hc.
    eapply aged_trans; [exact Hc|]. apply aged_alter, agedClient_subscribe.
  - destruct (clients w !! c) as [cl|]; [|split; [apply aged_refl | now left]].
    destruct (subscriptions cl !! k) as [h|]; [|split; [apply aged_refl | now left]].
    unfold messageHandler. destruct (signalsCompletion e).
    + split; [|right; apply disconnectWebSocket_stompClient].
      apply (disconnect_aged (note _ (set_ui _ (set_ui _ w)))).
    + split; [apply aged_refl | now left].
  - destruct (clients w !! c) as [cl|]; split; first [apply aged_refl | now left].
Qed.

Lemma deliver_aged evs w :
  Forall2 agedClient (clients w) (clients (deliver evs w))
  /\ (stompClient (deliver evs w) = stompClient w \/ stompClient (deliver evs w) = None).
Proof.
  revert w. induction evs as [|ev evs IH]; intros w.
  - split; [apply aged_refl | now left].
  - change (deliver (ev :: evs) w) with (deliver evs (dispatch ev w)).
    destruct (dispatch_aged ev w) as [H1 P1]. destruct (IH (dispatch ev w)) as [H2 P2].
    split; [eapply aged_trans; eassumption|].
    destruct P2 as [P2|P2]; [rewrite P2; exact P1 | now right].
Qed.

Lemma dispatch_currentIsActive ev w :
  currentIsActive w -> currentIsActive (dispatch ev w).
Proof.
  intros Hw. destruct ev as [c|c k e|c]; cbn [dispatch].
  - destruct (clients w !! c) as [cl|]; [|exact Hw].
    assert (Hc : currentIsActive (set_clients (alter (set_connected true) c) w)).
    { intros d Hd. destruct (Hw d Hd) as (cl' & Hcl' & Hact).
      cbn [clients set_clients]. destruct (decide (c = d)) as [->|Hne].
      - exists (set_connected true cl'). split; [|exact Hact].
        now rewrite list_lookup_alter_eq, Hcl'.
      - exists cl'. split; [|exact Hact]. now rewrite list_lookup_alter_ne. }
    unfold onConnect. cbn [stompClient clients set_ui set_clients].
    destruct (stompClient w) as [d|] eqn:Hd; [|intros d' Hd'; cbn in Hd'; congruence].
    destruct (alter (set_connected true) c (clients w) !! d) as [held|] eqn:Hheld;
      [destruct (connected held)|];
      try (intros d' Hd'; apply (Hc d'); exact Hd').
    intros d' Hd'. cbn in Hd'. rewrite Hd in Hd'. injection Hd' as <-.
    destruct (Hc d Hd) as (cl' & Hcl' & Hact).
    exists (add_subscription (config cl) cl'). split; [|exact Hact].
    cbn [clients note set_clients set_ui] in *.
    now rewrite list_lookup_alter_eq, Hcl'.
  - destruct (clients w !! c) as [cl|]; [|exact Hw].
    destruct (subscriptions cl !! k) as [h|]; [|exact Hw].
    unfold messageHandler. destruct (signalsCompletion e); [|exact Hw].
    intros d Hd. now rewrite disconnectWebSocket_stompClient in Hd.
  - destruct (clients w !! c) as [cl|]; exact Hw.
Qed.

Lemma deliver_currentIsActive evs w :
  currentIsActive w -> currentIsActive (deliver evs w).
Proof.
  revert w. induction evs as [|ev evs IH]; intros w Hw; [exact Hw|].
  change (deliver (ev :: evs) w) with (deliver evs (dispatch ev w)).
  now apply IH, dispatch_currentIsActive.
Qed.

Lemma connect_currentIsActive rid onLog onComplete w :
  currentIsActive (connectWebSocket rid onLog onComplete w).
Proof.
  intros d Hd. eexists. rewrite connectWebSocket_clients.
  assert (d = length (clients w)) as -> by (cbn in Hd; congruence).
  split; [apply lookup_snoc | reflexivity].
Qed.

End ChannelEffects.

(** X10.  On a page whose clients are the App's, channel events of any
    kind (connections, messages, STOMP errors), for any client, only extend
    the log: the entries that were there stay in place, and the results,
    the status, the request identifier and [isAnalyzing] are unchanged.
    They create no client, activate none, never re-activate a client that
    was deactivated and never change a client's callbacks; they leave the
    module variable as it is or clear it; they issue no API call. *)
Theorem channel_events_only_extend_the_log (evs : list ChanEvent) (w : App) :
  appWorld w ->
  let w' := deliver evs w in
  appWorld w'
  /\ sameSession (ui w) (ui w')
  /\ (exists extra, logs (ui w') = logs (ui w) ++ extra)
  /\ Forall2 agedClient (clients w) (clients w')
  /\ (stompClient w' = stompClient w \/ stompClient w' = None)
  /\ count is_activate (trace w') = count is_activate (trace w)
  /\ List.filter is_api_call (trace w') = List.filter is_api_call (trace w).
Proof.
  intros Hw w'. subst w'.
  destruct (deliver_app evs w Hw) as (Hw' & [Hsame Hlogs] & _).
  destruct (deliver_aged evs w) as [Haged Hptr].
  split; [exact Hw'|]. split; [exact Hsame|]. split; [exact Hlogs|].
  split; [exact Haged|]. split; [exact Hptr|]. unfold count.
  now rewrite (deliver_filter is_activate evs w channel_not_activate),
    (deliver_filter is_api_call evs w channel_not_api_call).
Qed.

(** X10 on the page of a polling session, for a connection, a STOMP error
    and a completion message. *)
Lemma channel_events_only_extend_the_log_witness :
  appWorld pollingPage
  /\ analysisStatus
       (ui (deliver [Connected 0; StompError 0;
                     Frame 0 0 (info "Аналіз завершено. Знайдено 0 порушень")]
              pollingPage))
     = analysisStatus (ui pollingPage).
Proof.
  assert (Hw : appWorld pollingPage)
    by apply handleAnalysisStart_appWorld, appWorld_initial.
  split; [exact Hw|].
  destruct (channel_events_only_extend_the_log
              [Connected 0; StompError 0;
               Frame 0 0 (info "Аналіз завершено. Знайдено 0 порушень")]
              pollingPage Hw) as (_ & (_ & _ & _ & Hstatus) & _).
  exact Hstatus.
Defined.

(** ** Invariants of the socket state over the App's pages *)

(** A property of the page that setting the React state, the ghost trace,
    a channel event and a [connectWebSocket] of the App preserve is
    preserved by both handlers, hence on every page reached later. *)
Section SocketInvariant.
Variable P : App -> Prop.
Hypothesis P_ui : forall f w, P w -> P (set_ui f w).
Hypothesis P_note : forall e w, P w -> P (note e w).
Hypothesis P_dispatch : forall ev w, P w -> P (dispatch ev w).
Hypothesis P_connect :
  forall rid w, P w -> P (connectWebSocket rid onLogEntry onSocketClosed w).

Lemma invariant_deliver evs (w : App) : P w -> P (deliver evs w).
Proof.
  revert w. induction evs as [|ev evs IH]; intros w Hw; [exact Hw|].
  change (deliver (ev :: evs) w) with (deliver evs (dispatch ev w)).
  now apply IH, P_dispatch.
Qed.

Lemma invariant_afterSubmit env url (w : App) :
  P w -> P (afterSubmit env url (resetForUrl w)).
Proof.
  intros Hw. unfold afterSubmit, resetForUrl.
  now apply invariant_deliver, P_note, P_ui, P_ui.
Qed.

Lemma invariant_pollingStart env url rid (w : App) :
  P w -> P (pollingStart env url rid w).
Proof.
  intros Hw. unfold pollingStart, afterConnect.
  now apply P_ui, P_connect, P_ui, P_ui, invariant_afterSubmit.
Qed.

Lemma invariant_answered rid (t : Turn StatusReply) st (w : App) :
  P w -> P (answered rid t st w).
Proof.
  intros Hw. unfold answered. now apply P_ui, P_note, invariant_deliver, P_note.
Qed.

Lemma invariant_polled rid pre (w : App) :
  forallb keepsPolling pre = true -> P w -> P (polled rid pre w).
Proof.
  revert w. induction pre as [|t pre IH]; intros w Hpre Hw; [exact Hw|].
  cbn in Hpre. apply andb_true_iff in Hpre as [Ht Hpre].
  destruct (keepsPolling_inv t Ht) as (st & Hr & _).
  rewrite (polled_cons rid t pre st w Hr Ht).
  apply IH; [exact Hpre | now apply invariant_answered].
Qed.

Lemma invariant_afterFetch env rid (w : App) : P w -> P (afterFetch env rid w).
Proof.
  intros Hw. unfold afterFetch. now apply invariant_deliver, P_note, P_ui.
Qed.

Lemma invariant_TryOutcome env url (w : App) r :
  P w -> TryOutcome env url w r -> P (snd r).
Proof.
  intros Hw H.
  destruct H; cbn [snd];
    repeat first
      [ assumption
      | apply invariant_afterSubmit
      | apply invariant_pollingStart
      | apply invariant_polled
      | apply invariant_answered
      | apply invariant_afterFetch
      | apply invariant_deliver
      | apply P_note
      | apply P_ui ].
Qed.



Lemma invariant_finish (r : Outcome unit * App) : P (snd r) -> P (snd (finish r)).
Proof.
  destruct r as [[[]|e|] w]; cbn [snd finish]; intros Hw;
    [now apply P_ui | now apply P_ui, P_ui, P_ui | exact Hw].
Qed.

Lemma invariant_handleAnalysisStart env url (w : App) :
  P w -> P (snd (handleAnalysisStart env url w)).
Proof.
  intros Hw. destruct (isAnalyzing (ui w)) eqn:Hidle.
  { now rewrite (handleAnalysisStart_busy env url w Hidle). }
  rewrite (handleAnalysisStart_idle env url w Hidle).
  apply invariant_finish, (invariant_TryOutcome env url w _ Hw), tryAnalysisStart_cases.
Qed.

Lemma invariant_afterAnalyze answer code fileName (w : App) :
  P w -> P (afterAnalyze answer code fileName (resetForCode w)).
Proof.
  intros Hw. unfold afterAnalyze, resetForCode. cbv zeta.
  destruct (truthy fileName);
    repeat first [assumption | apply invariant_deliver | apply P_note | apply P_ui].
Qed.

Lemma invariant_handleCodeAnalysis answer code fileName (w : App) :
  P w -> P (snd (handleCodeAnalysis answer code fileName w)).
Proof.
  intros Hw. destruct (isAnalyzing (ui w)) eqn:Hidle.
  { now rewrite (handleCodeAnalysis_busy answer code fileName w Hidle). }
  rewrite (handleCodeAnalysis_idle answer code fileName w Hidle).
  apply invariant_finish.
  pose proof (invariant_afterAnalyze answer code fileName w Hw) as Hafter.
  destruct (reply answer) as [e|r] eqn:Hreply.
  - now rewrite (tryCodeAnalysis_thrown answer code fileName e _ Hreply).
  - rewrite (tryCodeAnalysis_answered answer code fileName r _ Hreply).
    destruct (success r); cbn [negb].
    + rewrite reportCodeAnalysis_update. now apply P_ui.
    + unfold appendLog, set, bind, act. cbn [snd]. now apply P_ui, P_ui.
Qed.

Lemma invariant_run actions (w : App) : P w -> P (run actions w).
Proof.
  revert w. induction actions as [|a actions IH]; intros w Hw; [exact Hw|].
  change (run (a :: actions) w) with (run actions (step a w)). apply IH.
  destruct a as [env url|answer code fileName|ev]; cbn [step].
  - now apply invariant_handleAnalysisStart.
  - now apply invariant_handleCodeAnalysis.
  - now apply P_dispatch.
Qed.

End SocketInvariant.

Lemma dispatch_leftOpen {S} c ev (w : World S) :
  leftOpen c w -> leftOpen c (dispatch ev w).
Proof.
  intros [(cl & Hcl & Hact) Hptr].
  destruct ev as [c'|c' k e|c']; cbn [dispatch].
  - destruct (clients w !! c') as [cl'|]; [|now split; [exists cl|]].
    assert (Hc : exists cl0, alter (set_connected true) c' (clients w) !! c = Some cl0
                             /\ active cl0 = true).
    { destruct (decide (c' = c)) as [->|Hne].
      - exists (set_connected true cl). split; [|exact Hact].
        now rewrite list_lookup_alter_eq, Hcl.
      - exists cl. split; [|exact Hact]. now rewrite list_lookup_alter_ne. }
    destruct Hc as (cl0 & Hcl0 & Hact0).
    unfold onConnect. cbn [stompClient clients set_ui set_clients].
    destruct (stompClient w) as [d|] eqn:Hd;
      [destruct (alter (set_connected true) c' (clients w) !! d) as [held|];
         [destruct (connected held)|]|];
      cbn [stompClient clients note set_clients set_ui];
      (split; [|cbn; congruence]); exists cl0; cbn; split; try assumption.
    rewrite list_lookup_alter_ne; [assumption | congruence].
  - destruct (clients w !! c') as [cl'|]; [|now split; [exists cl|]].
    destruct (subscriptions cl' !! k) as [h|]; [|now split; [exists cl|]].
    unfold messageHandler. destruct (signalsCompletion e); [|now split; [exists cl|]].
    split; [|now rewrite disconnectWebSocket_stompClient].
    exists cl. split; [|assumption]. rewrite disconnectWebSocket_clients.
    cbn [stompClient clients note set_ui].
    destruct (stompClient w) as [d|] eqn:Hd; [|assumption].
    rewrite list_lookup_alter_ne; [assumption | congruence].
  - destruct (clients w !! c') as [cl'|]; now split; [exists cl|].
Qed.

Lemma connect_leftOpen {S} c rid onLog onComplete (w : World S) :
  leftOpen c w -> leftOpen c (connectWebSocket rid onLog onComplete w).
Proof.
  intros [(cl & Hcl & Hact) Hptr]. pose proof (lookup_lt_Some _ _ _ Hcl) as Hlt.
  split.
  - exists cl. split; [|assumption]. rewrite connectWebSocket_clients.
    now rewrite lookup_app_l.
  - cbn. intros Heq. injection Heq as Heq. lia.
Qed.

(** X11.  On every page that submissions and channel events lead to from a
    page on which the module variable, if set, holds an active client, the
    module variable, if set, holds a client that exists and is active: the
    variable never keeps a client that [disconnectWebSocket] closed. *)
Theorem current_client_is_active (actions : list Action) (w : App) :
  currentIsActive w ->
  forall d, stompClient (run actions w) = Some d ->
            exists cl, clients (run actions w) !! d = Some cl /\ active cl = true.
Proof.
  intros Hw. change (currentIsActive (run actions w)).
  apply (invariant_run currentIsActive); try assumption.
  - intros f w0 H. exact H.
  - intros e w0 H. exact H.
  - intros ev w0. apply dispatch_currentIsActive.
  - intros rid w0 _. apply connect_currentIsActive.
Qed.

(** X11 from the initial page: after a first session that ended by polling
    and a second submission, the variable holds the second client, which is
    active. *)
Lemma current_client_is_active_witness :
  currentIsActive initialApp
  /\ exists cl,
       clients (run [SubmitUrl firstSession sampleUrl;
                     SubmitUrl secondSession "https://github.com/user/other"]
                  initialApp) !! 1 = Some cl
       /\ active cl = true.
Proof.
  assert (Hinit : currentIsActive initialApp) by (intros d Hd; discriminate).
  split; [exact Hinit|].
  apply (current_client_is_active _ initialApp Hinit 1).
  vm_compute. reflexivity.
Defined.

(** X12.  A client that is active while the module variable does not hold
    it (a later [connectWebSocket] replaced it in the variable before any
    [disconnectWebSocket]) is never deactivated: on every page that
    submissions and channel events lead to, it is still active and still
    not held by the variable. *)
Theorem replaced_client_is_never_closed (actions : list Action) (c : nat) (w : App) :
  leftOpen c w -> leftOpen c (run actions w).
Proof.
  intros Hw. apply (invariant_run (leftOpen c)); try assumption.
  - intros f w0 H. exact H.
  - intros e w0 H. exact H.
  - intros ev w0. apply dispatch_leftOpen.
  - intros rid w0. apply connect_leftOpen.
Qed.

(** X12 on the page of the second of two sessions: the first session's
    client is still active after completion messages on both channels. *)
Lemma replaced_client_is_never_closed_witness :
  leftOpen 0 duringSecondSession
  /\ leftOpen 0
       (run [Channel (Connected 1);
             Channel (Frame 1 0 (info "Аналіз завершено. Знайдено 0 порушень"));
             Channel (Frame 0 0 (info "Аналіз завершено. Знайдено 0 порушень"))]
          duringSecondSession).
Proof.
  assert (H0 : leftOpen 0 duringSecondSession).
  { split; [eexists; split; vm_compute; reflexivity | vm_compute; discriminate]. }
  split; [exact H0|].
  apply (replaced_client_is_never_closed _ 0 duringSecondSession H0).
Defined.

(** ** The log of an inline analysis *)

(** X13.  An inline analysis that succeeds, with a response that says
    whether the code compiles and carries a quality score, ends the log
    with: 'the code compiles', or the warning that it does not followed by
    one ERROR line per compilation error, in the order of the response;
    the Checkstyle line; the quality line; the summary with the violation
    count of the response.  The status is then COMPLETED, the results are
    the violations of the response, numbered from 0, and [isAnalyzing] is
    false. *)
Theorem inline_analysis_log_transcript answer code fileName r compiles q (w : App) :
  isAnalyzing (ui w) = false ->
  reply answer = AnalyzeOk r ->
  success r = true ->
  compilationSuccess r = Some compiles ->
  qualityScore r = Some q ->
  let w' := snd (handleCodeAnalysis answer code fileName w) in
  (exists before,
     logs (ui w')
     = before
       ++ (if compiles then [info "✅ Код успішно компілюється"]
           else warning "❌ Код не компілюється"
                :: map (fun err => error ("Рядок " +:+ show_Z (ce_lineNumber err)
                                          +:+ ": " +:+ ce_message err))
                     (compilationErrors r))
       ++ [info "Запуск аналізу Checkstyle...";
           info (scoreEmoji q +:+ " Оцінка якості коду: " +:+ show_Z q +:+ "/100");
           info ("Аналіз завершено. Знайдено " +:+ show_Z (violationCount r)
                 +:+ " порушень.")])
  /\ analysisStatus (ui w') = Some COMPLETED
  /\ results (ui w') = toResults (violations r)
  /\ isAnalyzing (ui w') = false.
Proof.
  intros Hidle Hreply Hsuccess Hcompiles Hscore w'. subst w'.
  rewrite (handleCodeAnalysis_idle answer code fileName w Hidle).
  rewrite (tryCodeAnalysis_answered answer code fileName r _ Hreply).
  rewrite Hsuccess. cbn [negb]. rewrite reportCodeAnalysis_update.
  split; [|now repeat split].
  exists (logs (ui (afterAnalyze answer code fileName (resetForCode w)))).
  cbn [finish snd ui set_ui setIsAnalyzing logs reportUpdate].
  unfold compilationLines, qualityLine, summaryLine. rewrite Hcompiles, Hscore.
  now destruct compiles.
Qed.

(** X13 for code that does not compile, with two compilation errors. *)
Lemma inline_analysis_log_transcript_witness :
  isAnalyzing (ui initialApp) = false
  /\ map message
       (logs (ui (snd (handleCodeAnalysis (quiet (AnalyzeOk failedCompilation))
                         "class Main {}" None initialApp))))
     = ["Починаю аналіз коду..."; "Перевірка компіляції...";
        "❌ Код не компілюється"; "Рядок 3: ';' expected";
        "Рядок 7: cannot find symbol"; "Запуск аналізу Checkstyle...";
        "⚠️ Оцінка якості коду: 40/100"; "Аналіз завершено. Знайдено 1 порушень."]
  /\ results
       (ui (snd (handleCodeAnalysis (quiet (AnalyzeOk failedCompilation))
                   "class Main {}" None initialApp)))
     = toResults [sampleCodeViolation].
Proof.
  split; [reflexivity|].
  destruct (inline_analysis_log_transcript (quiet (AnalyzeOk failedCompilation))
              "class Main {}" None failedCompilation false 40%Z initialApp
              eq_refl eq_refl eq_refl eq_refl eq_refl)
    as ([before Hlogs] & _ & Hresults & _).
  split; [|exact Hresults].
  vm_compute. reflexivity.
Defined.

(** ** Results of an earlier request *)

Lemma loadHistoryResults_run answer requestId (w : App) :
  loadHistoryResults answer requestId w
  = let w1 := deliver (during answer)
                (note (CallFetchResults (show_Z requestId)) w) in
    match reply answer with
    | ResultsOk body =>
        (Returned tt,
         set_ui (setLogs (fun _ =>
                   [info ("Завантажено " +:+ show_nat (length body)
                          +:+ " результатів з історії")]))
           (set_ui (setResults body) w1))
    | _ => (Returned tt, w1)
    end.
Proof.
  unfold loadHistoryResults, try_catch_finally, fetchResults, set, bind, act,
    await, throw, ret.
  destruct (reply answer); reflexivity.
Qed.

(** X14.  [loadHistoryResults] never throws and has no guard: it runs also
    while a session is in progress.  It makes one [fetchResults] call for
    the decimal numeral of the identifier and leaves [isAnalyzing], the
    status and the request identifier as they are.  When the results
    arrive they replace the page's results and the whole log, which then
    holds the single line with their number; when the call fails nothing
    is reported to the user: the results are unchanged and the log gets
    no line of the function's own. *)
Theorem loadHistoryResults_effect answer requestId (w : App) :
  appWorld w ->
  let r := loadHistoryResults answer requestId w in
  fst r = Returned tt
  /\ isAnalyzing (ui (snd r)) = isAnalyzing (ui w)
  /\ analysisStatus (ui (snd r)) = analysisStatus (ui w)
  /\ currentRequestId (ui (snd r)) = currentRequestId (ui w)
  /\ List.filter is_api_call (trace (snd r))
     = List.filter is_api_call (trace w) ++ [CallFetchResults (show_Z requestId)]
  /\ match reply answer with
     | ResultsOk body =>
         results (ui (snd r)) = body
         /\ logs (ui (snd r))
            = [info ("Завантажено " +:+ show_nat (length body)
                     +:+ " результатів з історії")]
     | _ =>
         results (ui (snd r)) = results (ui w)
         /\ exists channel, logs (ui (snd r)) = logs (ui w) ++ channel
                            /\ (during answer = [] -> channel = [])
     end.
Proof.
  intros Hw r. subst r.
  pose proof (deliver_app (during answer)
                (note (CallFetchResults (show_Z requestId)) w) Hw)
    as (_ & [(Hres & Hbusy & Hrid & Hstatus) [channel Hlogs]] & _).
  pose proof (deliver_filter is_api_call (during answer)
                (note (CallFetchResults (show_Z requestId)) w)
                channel_not_api_call) as Hapi.
  cbn [trace note] in Hapi. rewrite List.filter_app in Hapi.
  cbn [List.filter is_api_call] in Hapi.
  assert (Hquiet : during answer = [] -> channel = []).
  { intros Hd. rewrite Hd in Hlogs. cbn [deliver foldl ui note] in Hlogs.
    rewrite <- (app_nil_r (logs (ui w))) in Hlogs at 1.
    now apply app_inv_head in Hlogs. }
  rewrite loadHistoryResults_run. cbv zeta.
  destruct (reply answer) as [e| |body]; cbn [fst snd ui set_ui setLogs setResults
    logs results isAnalyzing analysisStatus currentRequestId trace];
    (split; [reflexivity|]); (split; [exact Hbusy|]); (split; [exact Hstatus|]);
    (split; [exact Hrid|]); (split; [exact Hapi|]).
  - split; [exact Hres | now exists channel].
  - split; [exact Hres | now exists channel].
  - split; reflexivity.
Qed.

(** X14 while a session is polling: the session's log is replaced. *)
Lemma loadHistoryResults_effect_witness :
  appWorld pollingPage
  /\ isAnalyzing (ui pollingPage) = true
  /\ isAnalyzing (ui (snd (loadHistoryResults (quiet (ResultsOk [sampleViolation])) 7
                             pollingPage)))
     = true
  /\ logs (ui (snd (loadHistoryResults (quiet (ResultsOk [sampleViolation])) 7
                      pollingPage)))
     = [info "Завантажено 1 результатів з історії"].
Proof.
  assert (Hw : appWorld pollingPage)
    by apply handleAnalysisStart_appWorld, appWorld_initial.
  split; [exact Hw|]. split; [reflexivity|].
  destruct (loadHistoryResults_effect (quiet (ResultsOk [sampleViolation])) 7
              pollingPage Hw) as (_ & Hbusy & _ & _ & _ & _ & Hlogs).
  split; [exact Hbusy | exact Hlogs].
Defined.

(** ** The analysis form *)

Lemma formStep_fileInvariant seen ev st :
  fileInvariant seen st -> fileInvariant (seen ++ [ev]) (formStep ev st).
Proof.
  intros Hst.
  assert (Hkeep : forall st', fileName st' = fileName st -> code st' = code st ->
                              fileInvariant (seen ++ [ev]) st').
  { intros st' Hf Hc n Hn. rewrite Hf in Hn. destruct (Hst n Hn) as [Hjava Hin].
    split; [exact Hjava|]. rewrite Hc. apply in_or_app. now left. }
  destruct ev as [m|v|u|v|name read| |b]; cbn [formStep].
  - now apply Hkeep.
  - now apply Hkeep.
  - unfold onExternalUrl. destruct (truthy u); now apply Hkeep.
  - unfold onCodeChange. cbv zeta.
    destruct (truthy (fileName st)) as [f|] eqn:Hf.
    + destruct (String.eqb v (code st)) eqn:Hv; cbn [negb].
      * apply String.eqb_eq in Hv. apply Hkeep; [reflexivity | exact Hv].
      * intros n Hn. discriminate.
    + intros n Hn. cbn in Hn. destruct (Hst n Hn) as [Hjava _].
      rewrite Hn in Hf. destruct n; [discriminate Hjava | discriminate Hf].
  - unfold handleFileSelect. destruct (endsWith name ".java") eqn:Hjava; cbn [negb].
    + destruct read as [text|]; [|now apply Hkeep].
      intros n Hn. cbn in Hn. injection Hn as <-. split; [exact Hjava|].
      apply in_or_app. right. now left.
    + now apply Hkeep.
  - intros n Hn. discriminate.
  - now apply Hkeep.
Qed.

Lemma formRun_fileInvariant evs seen st :
  fileInvariant seen st -> fileInvariant (seen ++ evs) (formRun evs st).
Proof.
  revert seen st. induction evs as [|ev evs IH]; intros seen st Hst.
  - now rewrite app_nil_r.
  - change (formRun (ev :: evs) st) with (formRun evs (formStep ev st)).
    rewrite (cons_middle ev seen evs), app_assoc.
    now apply IH, formStep_fileInvariant.
Qed.

(** X15.  Whatever the user did to the form, a file name that the form
    holds ends in [.java], and the code that the form holds is, unchanged,
    the text of a file of that name which the user selected: editing the
    text drops the name, and a file of another extension or one that
    cannot be read changes nothing. *)
Theorem file_name_names_the_code (evs : list FormEvent) (n : string) :
  fileName (formRun evs initialForm) = Some n ->
  endsWith n ".java" = true
  /\ In (SelectFile n (Some (code (formRun evs initialForm)))) evs.
Proof.
  apply (formRun_fileInvariant evs [] initialForm). intros n' Hn'. discriminate.
Qed.

(** X15 for an upload followed by a change event with the same text, and
    the name dropped by an edit. *)
Lemma file_name_names_the_code_witness :
  fileName uploadedForm = Some "Main.java"
  /\ endsWith "Main.java" ".java" = true
  /\ fileName (formRun [TypeCode "class Main { }"] uploadedForm) = None.
Proof.
  split; [reflexivity|].
  split; [|reflexivity].
  exact (proj1 (file_name_names_the_code
                  [ClickMode CodeMode; SelectFile "Main.java" (Some "class Main {}");
                   TypeCode "class Main {}"; CheckCompilation false]
                  "Main.java" eq_refl)).
Defined.





(** ** The authentication service *)

Lemma truthy_nonempty (o : option string) t : truthy o = Some t -> o = Some t /\ t <> "".
Proof. destruct o as [[|a s]|]; cbn; intros [= <-]; now split. Qed.

Lemma truthy_Some t : t <> "" -> truthy (Some t) = Some t.
Proof. now destruct t. Qed.

Lemma isAuthenticated_false b : isAuthenticated b = false -> truthy (getToken b) = None.
Proof. unfold isAuthenticated. now destruct (truthy (getToken b)). Qed.

Lemma isAuthenticated_true b :
  isAuthenticated b = true -> exists t, truthy (getToken b) = Some t.
Proof. unfold isAuthenticated. destruct (truthy (getToken b)) as [t|]; [eauto | discriminate]. Qed.

Lemma or_else_nonempty (a : option string) d : d <> "" -> or_else a d <> "".
Proof. intros Hd. now destruct a as [[|c s]|]. Qed.

(** X17.  [getCurrentUser] never throws, and sends at most one request,
    with the stored token.  It returns a user only when a token is stored
    and the response is [ok], and then leaves the stored items as they are:
    the stored user is not refreshed.  When a token is stored and the call
    fails in any way, it signs the user out: token and user are removed, so
    that afterwards [isAuthenticated] is false, a further [getCurrentUser]
    returns null, and every call of the service that needs a token throws
    'Не авторизовано' without sending a request. *)
Theorem failed_refresh_signs_out (me : Reply unit User) (next : Reply unit unit)
  (b : Browser) :
  let r := getCurrentUser me b in
  (forall e, fst r <> Threw e)
  /\ sent (snd r)
     = sent b ++ match truthy (getToken b) with Some t => [GetMe t] | None => [] end
  /\ (forall u, fst r = Returned (Some u) ->
        me = ReplyOk u /\ isAuthenticated b = true
        /\ getToken (snd r) = getToken b /\ getUser (snd r) = getUser b)
  /\ (isAuthenticated b = true -> (forall u, me <> ReplyOk u) ->
        fst r = Returned None
        /\ getToken (snd r) = None /\ getUser (snd r) = None
        /\ isAuthenticated (snd r) = false
        /\ getCurrentUser me (snd r) = (Returned None, snd r)
        /\ getAnalysisHistory next (snd r) = (Threw notAuthorized, snd r)
        /\ getUserStatistics next (snd r) = (Threw notAuthorized, snd r)
        /\ getUserSettings next (snd r) = (Threw notAuthorized, snd r)
        /\ updateUserSettings next (snd r) = (Threw notAuthorized, snd r)
        /\ forall level,
             updateExperienceLevel level next (snd r) = (Threw notAuthorized, snd r)).
Proof.
  intros r. subst r. unfold getCurrentUser.
  destruct (truthy (getToken b)) as [t|] eqn:Ht.
  - assert (Hauth : isAuthenticated b = true) by (unfold isAuthenticated; now rewrite Ht).
    destruct me as [e|[]|u]; cbn [fst snd send sent clearAuthData].
    + split; [discriminate|]. split; [reflexivity|]. split; [discriminate|].
      intros _ _. repeat split.
    + split; [discriminate|]. split; [reflexivity|]. split; [discriminate|].
      intros _ _. repeat split.
    + split; [discriminate|]. split; [reflexivity|]. split.
      * intros u' [= <-]. repeat split. exact Hauth.
      * intros _ Hno. now destruct (Hno u).
  - rewrite app_nil_r. split; [discriminate|]. split; [reflexivity|].
    split; [discriminate|]. intros Hauth. unfold isAuthenticated in Hauth.
    now rewrite Ht in Hauth.
Qed.

(** X17 after a login, for a session that the server no longer accepts. *)
Lemma failed_refresh_signs_out_witness :
  isAuthenticated loggedIn = true
  /\ isAuthenticated (snd (getCurrentUser (ReplyNotOk tt) loggedIn)) = false
  /\ getAnalysisHistory (ReplyOk tt) (snd (getCurrentUser (ReplyNotOk tt) loggedIn))
     = (Threw notAuthorized, snd (getCurrentUser (ReplyNotOk tt) loggedIn)).
Proof.
  split; [reflexivity|].
  destruct (failed_refresh_signs_out (ReplyNotOk tt) (ReplyOk tt) loggedIn)
    as (_ & _ & _ & Hout).
  destruct (Hout eq_refl ltac:(discriminate)) as (_ & _ & _ & Hauth & _ & Hhistory & _).
  split; [exact Hauth | exact Hhistory].
Defined.

Lemma storeAuthData_credentials response (b : Browser) :
  getToken (storeAuthData response b) = Some (token response)
  /\ getUser (storeAuthData response b) = Some (userOf response)
  /\ (isAuthenticated (storeAuthData response b) = true <-> token response <> "")
  /\ (token response <> "" ->
      forall (next : Reply unit unit),
        sent (snd (getAnalysisHistory next (storeAuthData response b)))
        = sent (storeAuthData response b) ++ [GetHistory (token response)]).
Proof.
  split; [reflexivity|]. split; [reflexivity|]. split.
  - unfold isAuthenticated. cbn [getToken storeAuthData tokenItem].
    destruct (token response); cbn; split; congruence.
  - intros Ht next. unfold getAnalysisHistory.
    cbn [getToken storeAuthData tokenItem]. rewrite (truthy_Some _ Ht).
    now destruct next.
Qed.

Lemma storesCredentials_intro call request (failure : ErrorBody -> string) :
  (forall answer b,
     call answer b
     = match answer with
       | ReplyRejects e => (Threw e, send request b)
       | ReplyNotOk error => (Threw (JsError (failure error)), send request b)
       | ReplyOk response =>
           (Returned response, storeAuthData response (send request b))
       end) ->
  (forall error, failure error <> "") ->
  storesCredentials call request.
Proof.
  intros Hcall Hfailure answer b r. subst r. rewrite Hcall.
  destruct answer as [e|error|response]; cbn [fst snd send sent storeAuthData].
  - split; [reflexivity|]. split; [discriminate|]. intros _.
    split; [|now split]. exists e. split; [reflexivity | discriminate].
  - split; [reflexivity|]. split; [discriminate|]. intros _.
    split; [|now split]. eexists. split; [reflexivity|].
    intros error' [= <-]. eexists. split; [reflexivity | apply Hfailure].
  - split; [reflexivity|]. split.
    + intros response' [= <-]. split; [reflexivity|].
      apply (storeAuthData_credentials response (send request b)).
    + intros Hno. now destruct (Hno response).
Qed.

(** X18.  [login] and [register] send their one request and, on an [ok]
    response, return it and replace the stored token and user with the
    response's: from then on the requests of the service carry the new
    token.  An empty token is stored as well, but then [isAuthenticated]
    is false.  On any other answer they throw and leave the stored items
    as they were; when the response was not [ok], the message of the error
    is never empty (the first non-empty field of the error body, or the
    default text). *)
Theorem login_and_register_store_credentials
  (credentials : LoginRequest) (account : RegisterRequest) :
  storesCredentials (login credentials) (PostLogin credentials)
  /\ storesCredentials (register account) (PostRegister account).
Proof.
  split.
  - apply (storesCredentials_intro _ _
             (fun error => or_else (err_error error)
                             "Невірне ім'я користувача або пароль")).
    + intros answer b. unfold login. now destruct answer.
    + intros error. now apply or_else_nonempty.
  - apply (storesCredentials_intro _ _
             (fun error =>
                or_else (err_error error)
                  (or_else (err_username error)
                     (or_else (err_email error)
                        (or_else (err_password error) "Помилка реєстрації"))))).
    + intros answer b. unfold register. now destruct answer.
    + intros error. now repeat apply or_else_nonempty.
Qed.

Lemma updateStoredUser_level level u (b : Browser) :
  getUser b = Some u ->
  updateStoredUser {| new_username := None; new_email := None; new_role := None;
                      new_experienceLevel := Some level |} b
  = (Some {| username := username u; email := email u; role := role u;
             experienceLevel := level |},
     {| tokenItem := tokenItem b;
        userItem := Some {| username := username u; email := email u; role := role u;
                            experienceLevel := level |};
        sent := sent b |}).
Proof. intros Hu. unfold updateStoredUser. now rewrite Hu. Qed.

(** X19.  With a token stored, [updateExperienceLevel] sends one request,
    with the token and the level, and never changes the token.  On an [ok]
    response, whose body it does not read, it returns the stored user with
    only the level replaced and stores that user; if no user is stored it
    throws 'Не вдалося оновити дані користувача', although the server has
    accepted the change.  On any other answer it throws and the stored
    user is unchanged. *)
Theorem updateExperienceLevel_changes_only_the_level
  (level : ExperienceLevel) (answer : Reply unit unit) (t : string) (b : Browser) :
  truthy (getToken b) = Some t ->
  let r := updateExperienceLevel level answer b in
  sent (snd r) = sent b ++ [PatchExperience t level]
  /\ getToken (snd r) = getToken b
  /\ (forall x u, answer = ReplyOk x -> getUser b = Some u ->
        fst r = Returned {| username := username u; email := email u;
                            role := role u; experienceLevel := level |}
        /\ getUser (snd r)
           = Some {| username := username u; email := email u; role := role u;
                     experienceLevel := level |})
  /\ (forall x, answer = ReplyOk x -> getUser b = None ->
        fst r = Threw (JsError "Не вдалося оновити дані користувача")
        /\ getUser (snd r) = None)
  /\ ((forall x, answer <> ReplyOk x) ->
        (exists e, fst r = Threw e) /\ getUser (snd r) = getUser b).
Proof.
  intros Ht r. subst r. unfold updateExperienceLevel. rewrite Ht.
  destruct answer as [e|[]|[]]; cbn [fst snd send sent getToken tokenItem].
  - split; [reflexivity|]. split; [reflexivity|]. split; [discriminate|].
    split; [discriminate|]. intros _. split; [now exists e | reflexivity].
  - split; [reflexivity|]. split; [reflexivity|]. split; [discriminate|].
    split; [discriminate|]. intros _. split; [eauto | reflexivity].
  - destruct (getUser b) as [u|] eqn:Hu.
    + rewrite (updateStoredUser_level level u (send (PatchExperience t level) b) Hu).
      cbn [fst snd send sent getToken getUser tokenItem userItem].
      split; [reflexivity|]. split; [reflexivity|]. split.
      * intros _ u' _ [= <-]. now split.
      * split; [discriminate|]. intros Hno. now destruct (Hno tt).
    + unfold updateStoredUser. cbn [getUser send userItem]. unfold getUser in Hu.
      rewrite Hu. cbn [fst snd send sent getToken getUser tokenItem userItem].
      split; [reflexivity|]. split; [reflexivity|]. split; [discriminate|].
      split; [now split|]. intros Hno. now destruct (Hno tt).
Qed.

(** X19 for the user who has signed in. *)
Lemma updateExperienceLevel_changes_only_the_level_witness :
  truthy (getToken loggedIn) = Some "eyJhbGciOiJIUzI1NiJ9"
  /\ getUser (snd (updateExperienceLevel ADVANCED (ReplyOk tt) loggedIn))
     = Some {| username := "olena"; email := "olena@example.com"; role := "USER";
               experienceLevel := ADVANCED |}.
Proof.
  split; [reflexivity|].
  destruct (updateExperienceLevel_changes_only_the_level ADVANCED (ReplyOk tt)
              "eyJhbGciOiJIUzI1NiJ9" loggedIn eq_refl) as (_ & _ & Hok & _).
  exact (proj2 (Hok tt (userOf sampleResponse) eq_refl eq_refl)).
Defined.

(** ** The authentication provider *)

Lemma providerAgrees_sign_in (st : AuthState) response (b : Browser) ld :
  providerAgrees ({| user := Some (userOf response); isLoading := ld |},
                  storeAuthData response b).
Proof. intros u [= <-]. split; [reflexivity | now eexists]. Qed.

Lemma providerAgrees_same (p p' : AuthState * Browser) :
  user (fst p') = user (fst p) ->
  tokenItem (snd p') = tokenItem (snd p) ->
  userItem (snd p') = userItem (snd p) ->
  providerAgrees p -> providerAgrees p'.
Proof.
  intros Hu Ht Hi Hp u Hu'. rewrite Hu in Hu'. destruct (Hp u Hu') as [H1 [t H2]].
  unfold getUser, getToken in *. rewrite Hi, Ht. eauto.
Qed.

Lemma authStep_providerAgrees a (p : AuthState * Browser) :
  providerAgrees p -> providerAgrees (authStep a p).
Proof.
  intros Hp. destruct p as [st b].
  destruct a as [|data answer|data answer| |level answer]; cbn [authStep].
  - unfold onMount. cbn [fst snd]. intros u Hu. cbn [fst snd user] in Hu.
    destruct (getUser b) as [storedUser|] eqn:Hstored.
    + destruct (isAuthenticated b) eqn:Hauth; [|exact (Hp u Hu)].
      injection Hu as <-. split; [exact Hstored|].
      destruct (isAuthenticated_true b Hauth) as [t Ht].
      exists t. exact (proj1 (truthy_nonempty _ _ Ht)).
    + exact (Hp u Hu).
  - unfold providerLogin, login. cbn [fst snd].
    destruct answer as [e|error|response]; cbn [snd].
    + now apply (providerAgrees_same (st, b)).
    + now apply (providerAgrees_same (st, b)).
    + apply (providerAgrees_sign_in st).
  - unfold providerRegister, register. cbn [fst snd].
    destruct answer as [e|error|response]; cbn [snd].
    + now apply (providerAgrees_same (st, b)).
    + now apply (providerAgrees_same (st, b)).
    + apply (providerAgrees_sign_in st).
  - intros u Hu. discriminate Hu.
  - unfold saveExperienceLevel. cbn [fst snd].
    destruct (user st) as [u|] eqn:Huser; [|exact Hp].
    destruct (ExperienceLevel_eqb level (experienceLevel u)); cbn [negb]; [exact Hp|].
    destruct (Hp u Huser) as [Hstored [t Htoken]]. cbn [snd] in Hstored, Htoken.
    unfold updateExperienceLevel.
    destruct (truthy (getToken b)) as [t'|]; [|exact Hp].
    destruct answer as [e|[]|[]].
    + now apply (providerAgrees_same (st, b)).
    + now apply (providerAgrees_same (st, b)).
    + rewrite (updateStoredUser_level level u (send (PatchExperience t' level) b) Hstored).
      unfold updateUser. cbn [fst snd user]. rewrite Huser.
      intros u' [= <-]. split; [reflexivity|]. exists t. exact Htoken.
Qed.

(** X20.  The provider and the storage agree.  Whatever sequence of
    mounting, signing in, registering, signing out and saving the
    experience level the application performs, and whatever the server
    answers, a user that the provider holds is the user that is stored,
    field by field, and a token is stored with it: a failed call never
    leaves the provider with a user that the storage does not have, and a
    saved experience level reaches both. *)
Theorem provider_user_is_the_stored_user
  (actions : list AuthAction) (p : AuthState * Browser) (u : User) :
  providerAgrees p ->
  user (fst (authRun actions p)) = Some u ->
  getUser (snd (authRun actions p)) = Some u
  /\ exists t, getToken (snd (authRun actions p)) = Some t.
Proof.
  intros Hp. revert u. change (providerAgrees (authRun actions p)).
  revert p Hp. induction actions as [|a actions IH]; intros p Hp; [exact Hp|].
  change (authRun (a :: actions) p) with (authRun actions (authStep a p)).
  now apply IH, authStep_providerAgrees.
Qed.

(** X20 from an empty storage: sign in, then save another level. *)
Lemma provider_user_is_the_stored_user_witness :
  providerAgrees (initialAuthState, emptyBrowser)
  /\ getUser (snd (authRun [Mount; Login sampleLogin (ReplyOk sampleResponse);
                            SaveExperience ADVANCED (ReplyOk tt)]
                     (initialAuthState, emptyBrowser)))
     = Some {| username := "olena"; email := "olena@example.com"; role := "USER";
               experienceLevel := ADVANCED |}.
Proof.
  assert (H0 : providerAgrees (initialAuthState, emptyBrowser))
    by (intros u Hu; discriminate Hu).
  split; [exact H0|].
  exact (proj1 (provider_user_is_the_stored_user
                  [Mount; Login sampleLogin (ReplyOk sampleResponse);
                   SaveExperience ADVANCED (ReplyOk tt)]
                  (initialAuthState, emptyBrowser) _ H0 eq_refl)).
Defined.

(** ** The repositories of the dashboard *)

Lemma has_spec url (m : RepoMap) : has url m = true <-> url ∈ map fst m.
Proof.
  unfold has. induction m as [|[k v] m IH]; cbn [existsb map fst].
  - split; [discriminate | intros H; inversion H].
  - rewrite orb_true_iff, IH, elem_of_cons, String.eqb_eq.
    split; intros [H|H]; auto.
Qed.

Lemma occurrences_snoc url done item :
  occurrences url (done ++ [item])
  = occurrences url done + (if String.eqb (item_repoUrl item) url then 1 else 0).
Proof.
  unfold occurrences. rewrite List.filter_app, length_app. cbn [List.filter].
  now destruct (String.eqb (item_repoUrl item) url).
Qed.

Lemma occurrences_pos url items :
  0 < occurrences url items <-> url ∈ map item_repoUrl items.
Proof.
  unfold occurrences. induction items as [|item items IH]; cbn [List.filter map].
  - split; [cbn; lia | intros H; inversion H].
  - rewrite elem_of_cons, <- IH.
    destruct (String.eqb (item_repoUrl item) url) eqn:Heq.
    + apply String.eqb_eq in Heq. cbn [length]. split; [auto | lia].
    + apply String.eqb_neq in Heq. split; [auto | intros [H|H]; congruence].
Qed.

Lemma firstOf_snoc done item url index created :
  firstOf done url index created -> firstOf (done ++ [item]) url index created.
Proof.
  intros [(first & Hfirst & Hurl & Hcreated) Hearlier].
  pose proof (lookup_lt_Some _ _ _ Hfirst) as Hlt. split.
  - exists first. split; [|now split]. now rewrite lookup_app_l.
  - intros j item' Hj Hitem'. rewrite lookup_app_l in Hitem' by lia.
    now apply (Hearlier j).
Qed.

Lemma increment_keys url (m : RepoMap) : map fst (increment url m) = map fst m.
Proof.
  unfold increment. induction m as [|[k v] m IH]; [reflexivity|]. cbn [map fst].
  rewrite IH. now destruct (String.eqb k url).
Qed.

Lemma increment_ids url (m : RepoMap) :
  map (fun kv => repo_id (snd kv)) (increment url m)
  = map (fun kv => repo_id (snd kv)) m.
Proof.
  unfold increment. induction m as [|[k v] m IH]; [reflexivity|]. cbn [map fst snd].
  rewrite IH. now destruct (String.eqb k url).
Qed.

Lemma increment_absent url (m : RepoMap) : url ∉ map fst m -> increment url m = m.
Proof.
  unfold increment. induction m as [|[k v] m IH]; [reflexivity|]. cbn [map fst snd].
  rewrite not_elem_of_cons. intros [Hk Hm]. rewrite (IH Hm).
  destruct (String.eqb k url) eqn:Heq; [|reflexivity].
  apply String.eqb_eq in Heq. congruence.
Qed.

Lemma increment_total url (m : RepoMap) :
  NoDup (map fst m) -> url ∈ map fst m ->
  sum_list (map (fun kv => analysisCount (snd kv)) (increment url m))
  = S (sum_list (map (fun kv => analysisCount (snd kv)) m)).
Proof.
  induction m as [|[k v] m IH]; cbn [map fst snd]; [intros _ H; inversion H|].
  rewrite NoDup_cons, elem_of_cons. intros [Hk Hm] Hin.
  unfold increment. cbn [map fst snd]. fold (increment url m).
  destruct (String.eqb k url) eqn:Heq.
  - apply String.eqb_eq in Heq. subst k. rewrite (increment_absent url m Hk).
    reflexivity.
  - apply String.eqb_neq in Heq. destruct Hin as [Hin|Hin]; [congruence|].
    cbn [sum_list map snd]. rewrite (IH Hm Hin). cbn [sum_list]. lia.
Qed.

Lemma sum_list_snoc (l : list nat) (x : nat) : sum_list (l ++ [x]) = sum_list l + x.
Proof. induction l as [|y l IH]; cbn; [lia | rewrite IH; lia]. Qed.

Lemma collected_nil : collected [] [].
Proof.
  split; [constructor|]. split.
  - intros url. cbn. split; [discriminate | lia].
  - repeat split; constructor.
Qed.

Lemma addItem_collected done item (m : RepoMap) :
  collected done m -> collected (done ++ [item]) (addItem (length done) item m).
Proof.
  intros (Hnodup & Hhas & Hentries & Hsorted & Hbound & Htotal).
  assert (Hold : forall kv : string * SavedRepository,
             kv ∈ m -> fst kv <> item_repoUrl item ->
             occurrences (fst kv) (done ++ [item]) = occurrences (fst kv) done).
  { intros kv _ Hne. rewrite occurrences_snoc.
    destruct (String.eqb (item_repoUrl item) (fst kv)) eqn:Heq; [|lia].
    apply String.eqb_eq in Heq. congruence. }
  unfold addItem. cbv zeta.
  destruct (has (item_repoUrl item) m) eqn:Hseen; cbn [negb].
  - (* the repository is in the map: its count goes up *)
    pose proof (proj1 (has_spec _ _) Hseen) as Hin.
    split; [now rewrite increment_keys|]. split.
    { intros url. rewrite has_spec, increment_keys, <- has_spec, Hhas.
      rewrite occurrences_snoc. split; [lia|]. intros Hpos.
      destruct (String.eqb (item_repoUrl item) url) eqn:Heq; [|lia].
      apply String.eqb_eq in Heq. subst url. now apply Hhas. }
    split.
    { unfold increment. rewrite Forall_fmap. rewrite Forall_forall in Hentries |- *.
      intros kv Hkv. destruct (Hentries kv Hkv) as (Hurl & Hname & Hcount & Hfirst).
      unfold compose; cbn beta. destruct (String.eqb (fst kv) (item_repoUrl item)) eqn:Heq.
      - apply String.eqb_eq in Heq. cbn [fst snd countUp repo_repoUrl repo_name
          analysisCount repo_id lastAnalyzedAt].
        split; [exact Hurl|]. split; [exact Hname|]. split.
        + rewrite occurrences_snoc, Hcount, <- Heq, String.eqb_refl. lia.
        + now apply firstOf_snoc.
      - apply String.eqb_neq in Heq.
        split; [exact Hurl|]. split; [exact Hname|]. split.
        + now rewrite (Hold kv Hkv Heq).
        + now apply firstOf_snoc. }
    split; [now rewrite increment_ids|]. split.
    { unfold increment. rewrite Forall_fmap. eapply Forall_impl; [exact Hbound|].
      intros kv Hlt. unfold compose; cbn beta in Hlt |- *. rewrite length_app. cbn [length].
      destruct (String.eqb (fst kv) (item_repoUrl item)); cbn [snd countUp repo_id]; lia. }
    rewrite (increment_total _ m Hnodup Hin), Htotal, length_app. cbn [length]. lia.
  - (* a new repository *)
    assert (Hfresh : item_repoUrl item ∉ map fst m).
    { rewrite <- has_spec. congruence. }
    assert (Hnone : occurrences (item_repoUrl item) done = 0).
    { destruct (occurrences (item_repoUrl item) done) eqn:Hocc; [reflexivity|].
      assert (Hpos : 0 < occurrences (item_repoUrl item) done) by lia.
      apply Hhas in Hpos. congruence. }
    split.
    { rewrite map_app. cbn [map fst]. apply NoDup_app. split; [exact Hnodup|].
      split; [|apply NoDup_singleton].
      intros url Hurl Hnew. apply list_elem_of_singleton in Hnew. congruence. }
    split.
    { intros url. rewrite has_spec, map_app, elem_of_app. cbn [map fst].
      rewrite list_elem_of_singleton, <- has_spec, Hhas, occurrences_snoc.
      destruct (String.eqb (item_repoUrl item) url) eqn:Heq.
      - apply String.eqb_eq in Heq. split; [lia | auto].
      - apply String.eqb_neq in Heq. split; [intros [H|H]; [lia | congruence] | left; lia]. }
    split.
    { apply Forall_app. split.
      - rewrite Forall_forall in Hentries |- *. intros kv Hkv.
        destruct (Hentries kv Hkv) as (Hurl & Hname & Hcount & Hfirst).
        assert (Hne : fst kv <> item_repoUrl item).
        { intros Heq. apply Hfresh. rewrite <- Heq. now apply list_elem_of_fmap_2. }
        split; [exact Hurl|]. split; [exact Hname|]. split.
        + now rewrite (Hold kv Hkv Hne).
        + now apply firstOf_snoc.
      - constructor; [|constructor]. cbn [fst snd repo_repoUrl repo_name analysisCount
          repo_id lastAnalyzedAt].
        split; [reflexivity|]. split; [reflexivity|]. split.
        + rewrite occurrences_snoc, Hnone, String.eqb_refl. reflexivity.
        + split.
          * exists item. split; [apply lookup_snoc | now split].
          * intros j item' Hj Hitem' Hurl. rewrite lookup_app_l in Hitem' by exact Hj.
            assert (Hpos : 0 < occurrences (item_repoUrl item) done).
            { apply occurrences_pos. rewrite <- Hurl.
              apply list_elem_of_fmap_2. eapply list_elem_of_lookup_2. exact Hitem'. }
            lia. }
    split.
    { rewrite map_app. cbn [map snd repo_id]. apply StronglySorted_app.
      split; [|split; [exact Hsorted | repeat constructor]].
      intros x y Hx Hy. apply list_elem_of_singleton in Hy. subst y.
      apply list_elem_of_fmap in Hx as (kv & -> & Hkv).
      rewrite Forall_forall in Hbound. now apply Hbound. }
    split.
    { apply Forall_app. split.
      - eapply Forall_impl; [exact Hbound|]. intros kv Hlt. cbn beta in Hlt |- *. rewrite length_app.
        cbn [length]. lia.
      - constructor; [|constructor]. cbn [snd repo_id]. rewrite length_app.
        cbn [length]. lia. }
    rewrite map_app, length_app. cbn [map]. rewrite sum_list_snoc, Htotal. cbn. lia.
Qed.

Lemma forEachFrom_collected items done (m : RepoMap) :
  collected done m -> collected (done ++ items) (forEachFrom (length done) items m).
Proof.
  revert done m. induction items as [|item items IH]; intros done m Hm.
  - now rewrite app_nil_r.
  - cbn [forEachFrom]. rewrite (cons_middle item done items), app_assoc.
    replace (S (length done)) with (length (done ++ [item]))
      by (rewrite length_app; cbn [length]; lia).
    now apply IH, addItem_collected.
Qed.

(** X21.  The repositories that the dashboard extracts from the history:
    every URL of the history has exactly one repository; the repositories
    are in the order of the first occurrence of their URLs; a repository's
    [id] is the index of the first item with its URL, its
    [lastAnalyzedAt] is that item's [createdAt], its [name] is
    [extractRepoName] of the URL and its [analysisCount] is the number of
    items with the URL, so at least one; the counts add up to the length
    of the history. *)
Theorem saved_repositories_count_the_history (historyData : list AnalysisHistoryItem) :
  NoDup (map repo_repoUrl (collectRepositories historyData))
  /\ (forall url, url ∈ map repo_repoUrl (collectRepositories historyData)
                  <-> url ∈ map item_repoUrl historyData)
  /\ Forall (fun r =>
               analysisCount r = occurrences (repo_repoUrl r) historyData
               /\ 0 < analysisCount r
               /\ repo_name r = extractRepoName (repo_repoUrl r)
               /\ firstOf historyData (repo_repoUrl r) (repo_id r) (lastAnalyzedAt r))
       (collectRepositories historyData)
  /\ StronglySorted lt (map repo_id (collectRepositories historyData))
  /\ sum_list (map analysisCount (collectRepositories historyData))
     = length historyData.
Proof.
  destruct (forEachFrom_collected historyData [] [] collected_nil)
    as (Hnodup & Hhas & Hentries & Hsorted & _ & Htotal).
  cbn [app length] in Hnodup, Hhas, Hentries, Hsorted, Htotal.
  unfold collectRepositories.
  set (m := forEachFrom 0 historyData []) in *.
  assert (Hkeys : map repo_repoUrl (map snd m) = map fst m).
  { rewrite map_map. apply map_ext_Forall. eapply Forall_impl; [exact Hentries|].
    now intros kv (Hurl & _). }
  rewrite Hkeys. split; [exact Hnodup|]. split.
  { intros url. rewrite <- has_spec, Hhas. apply occurrences_pos. }
  split.
  { rewrite Forall_fmap. rewrite Forall_forall in Hentries |- *. intros kv Hkv.
    destruct (Hentries kv Hkv) as (Hurl & Hname & Hcount & Hfirst).
    unfold compose; cbn beta. rewrite Hurl. split; [exact Hcount|]. split; [|now split].
    rewrite Hcount. apply (proj1 (Hhas (fst kv))).
    apply has_spec. now apply list_elem_of_fmap_2. }
  split; [now rewrite map_map|]. now rewrite map_map.
Qed.

(** A history of three analyses of two repositories, newest first. *)
Example sample_history_repositories :
  map (fun r => (repo_id r, repo_name r, analysisCount r, lastAnalyzedAt r))
    (collectRepositories sampleHistory)
  = [ (0, "user/repo", 2, Some "2025-11-17T10:00:00");
      (1, "user/other", 1, Some "2025-11-16T10:00:00") ]
  /\ extractRepoName "https://github.com/user/repo/tree/main" = "user/repo"
  /\ extractRepoName "user" = "user".
Proof. repeat split; vm_compute; reflexivity. Qed.

Lemma insertByCount_perm r l : insertByCount r l ≡ₚ r :: l.
Proof.
  induction l as [|y l IH]; cbn [insertByCount]; [reflexivity|].
  destruct (analysisCount r <? analysisCount y)%nat; [|reflexivity].
  rewrite IH. apply Permutation_swap.
Qed.

Lemma sortByCount_perm l : sortByCount l ≡ₚ l.
Proof.
  induction l as [|r l IH]; [reflexivity|].
  cbn [sortByCount foldr]. fold (sortByCount l).
  now rewrite insertByCount_perm, IH.
Qed.

Lemma insertByCount_sorted r l :
  StronglySorted byCountDescending l ->
  StronglySorted byCountDescending (insertByCount r l).
Proof.
  induction 1 as [|y l Hl IH Hy]; cbn [insertByCount]; [repeat constructor|].
  destruct (analysisCount r <? analysisCount y)%nat eqn:Hlt.
  - apply Nat.ltb_lt in Hlt. constructor; [exact IH|].
    rewrite insertByCount_perm. constructor; [unfold byCountDescending; lia | exact Hy].
  - apply Nat.ltb_ge in Hlt. constructor; [now constructor|].
    constructor; [exact Hlt|]. eapply Forall_impl; [exact Hy|].
    unfold byCountDescending. intros z Hz. lia.
Qed.

Lemma sortByCount_sorted l : StronglySorted byCountDescending (sortByCount l).
Proof.
  induction l as [|r l IH]; [constructor|].
  cbn [sortByCount foldr]. now apply insertByCount_sorted.
Qed.

Lemma insertByCount_filter c r l :
  filter (fun x => analysisCount x = c) (insertByCount r l)
  = filter (fun x => analysisCount x = c) (r :: l).
Proof.
  induction l as [|y l IH]; cbn [insertByCount]; [reflexivity|].
  destruct (analysisCount r <? analysisCount y)%nat eqn:Hlt; [|reflexivity].
  apply Nat.ltb_lt in Hlt.
  rewrite (filter_cons _ y), IH, !(filter_cons _ r), (filter_cons _ y).
  repeat case_decide; try reflexivity. lia.
Qed.

Lemma sortByCount_filter c l :
  filter (fun x => analysisCount x = c) (sortByCount l)
  = filter (fun x => analysisCount x = c) l.
Proof.
  induction l as [|r l IH]; [reflexivity|].
  cbn [sortByCount foldr]. fold (sortByCount l).
  now rewrite insertByCount_filter, !(filter_cons _ r), IH.
Qed.

Lemma sortByCount_sorted_id l :
  StronglySorted byCountDescending l -> sortByCount l = l.
Proof.
  induction 1 as [|r l Hl IH Hr]; [reflexivity|].
  cbn [sortByCount foldr]. fold (sortByCount l). rewrite IH.
  destruct l as [|y l]; [reflexivity|]. cbn [insertByCount].
  apply Forall_cons in Hr as [Hy _]. unfold byCountDescending in Hy.
  apply Nat.ltb_ge in Hy. now rewrite Hy.
Qed.

(** X22.  [getTopRepositories] reorders the array of the state itself:
    after the call, [savedRepos] holds the same repositories sorted by
    [analysisCount], largest first, and repositories with equal counts keep
    their order.  The result holds its first five entries (all, if there
    are fewer), so no repository left out has a larger count than one
    that is shown.  A second call changes nothing and returns the same. *)
Theorem getTopRepositories_sorts_the_state (savedRepos : list SavedRepository) :
  let top := fst (getTopRepositories savedRepos) in
  let after := snd (getTopRepositories savedRepos) in
  after ≡ₚ savedRepos
  /\ StronglySorted byCountDescending after
  /\ (forall c, filter (fun r => analysisCount r = c) after
                = filter (fun r => analysisCount r = c) savedRepos)
  /\ top = take 5 after
  /\ length top = min 5 (length savedRepos)
  /\ (forall shown hidden, shown ∈ top -> hidden ∈ drop 5 after ->
                           analysisCount hidden <= analysisCount shown)
  /\ getTopRepositories after = (top, after).
Proof.
  intros top after. subst top after. unfold getTopRepositories. cbn [fst snd].
  pose proof (sortByCount_perm savedRepos) as Hperm.
  pose proof (sortByCount_sorted savedRepos) as Hsorted.
  split; [exact Hperm|]. split; [exact Hsorted|].
  split; [intros c; apply sortByCount_filter|]. split; [reflexivity|].
  split; [now rewrite length_take, Hperm|]. split.
  - intros shown hidden Hshown Hhidden.
    rewrite <- (take_drop 5 (sortByCount savedRepos)) in Hsorted.
    apply StronglySorted_app in Hsorted as (Hcross & _ & _).
    exact (Hcross shown hidden Hshown Hhidden).
  - now rewrite (sortByCount_sorted_id _ Hsorted).
Qed.

(** ** The rules of the configuration modal *)

Lemma setFields_lookup b fields (c : Config) field :
  setFields b fields c !! field
  = if decide (field ∈ fields) then Some (VBool b) else c !! field.
Proof.
  unfold setFields. revert c. induction fields as [|f fields IH]; intros c.
  - cbn [foldl]. case_decide as Hin; [inversion Hin | reflexivity].
  - cbn [foldl]. rewrite IH.
    destruct (decide (field ∈ fields)) as [Hin|Hnotin].
    + rewrite decide_True by (now right). reflexivity.
    + destruct (decide (field = f)) as [->|Hne].
      * rewrite decide_True by (now left). apply lookup_insert_eq.
      * rewrite decide_False by (rewrite elem_of_cons; tauto).
        now apply lookup_insert_ne.
Qed.

Lemma filter_all {A} (p : A -> bool) (l : list A) :
  Forall (fun x => p x = true) l -> List.filter p l = l.
Proof.
  induction 1 as [|x l Hx _ IH]; [reflexivity|]. cbn [List.filter].
  now rewrite Hx, IH.
Qed.

Lemma filter_none {A} (p : A -> bool) (l : list A) :
  Forall (fun x => p x = false) l -> List.filter p l = [].
Proof.
  induction 1 as [|x l Hx _ IH]; [reflexivity|]. cbn [List.filter].
  now rewrite Hx, IH.
Qed.

Lemma filter_length_le {A} (p : A -> bool) (l : list A) :
  length (List.filter p l) <= length l.
Proof.
  induction l as [|x l IH]; [reflexivity|]. cbn [List.filter].
  destruct (p x); cbn [length]; lia.
Qed.

Lemma filter_change_one {A} `{EqDecision A} (p p' : A -> bool) (x : A) (l : list A) :
  NoDup l -> x ∈ l -> (forall y, y <> x -> p' y = p y) ->
  length (List.filter p' l) + Nat.b2n (p x)
  = length (List.filter p l) + Nat.b2n (p' x).
Proof.
  intros Hnodup Hin Hsame. induction Hnodup as [|y l Hy Hl IH]; [inversion Hin|].
  cbn [List.filter]. destruct (decide (y = x)) as [->|Hne].
  - assert (Hrest : List.filter p' l = List.filter p l).
    { apply List.filter_ext_in. intros z Hz. apply Hsame. intros ->.
      apply Hy. now apply list_elem_of_In. }
    rewrite Hrest. destruct (p x), (p' x); cbn [length Nat.b2n]; lia.
  - apply elem_of_cons in Hin as [Hin|Hin]; [congruence|].
    rewrite (Hsame y Hne). specialize (IH Hin).
    destruct (p y); cbn [length]; lia.
Qed.

Lemma booleanFields_NoDup : NoDup booleanFields.
Proof. apply (bool_decide_unpack _). vm_compute. exact I. Qed.

(** X23.  The bulk actions and the counter of the configuration modal
    agree.  For every configuration object, whatever fields it has:
    after [handleEnableAll] the counter shows 20 and after
    [handleDisableAll] it shows 0; the counter never exceeds 20; both
    actions leave every field that is not one of the counted rules as it
    is ([isActive], another boolean, and the general settings among them);
    and switching one counted rule with [updateField] changes the counter
    by exactly that rule.  Without a configuration the actions do nothing
    and the counter shows 0. *)
Theorem bulk_actions_agree_with_the_counter (c : Config) :
  getEnabledRulesCount (handleEnableAll (Some c)) = 20
  /\ getEnabledRulesCount (handleDisableAll (Some c)) = 0
  /\ getEnabledRulesCount (Some c) <= 20
  /\ (forall field, field ∉ booleanFields ->
        fieldOf (handleEnableAll (Some c)) field = c !! field
        /\ fieldOf (handleDisableAll (Some c)) field = c !! field)
  /\ (forall field b, field ∈ booleanFields ->
        getEnabledRulesCount (updateField field (VBool b) (Some c))
        + Nat.b2n (truthyValue (c !! field))
        = getEnabledRulesCount (Some c) + Nat.b2n b)
  /\ handleEnableAll None = None
  /\ handleDisableAll None = None
  /\ (forall field value, updateField field value None = None)
  /\ getEnabledRulesCount None = 0.
Proof.
  split.
  { cbn [handleEnableAll getEnabledRulesCount]. rewrite filter_all; [reflexivity|].
    apply Forall_forall. intros field Hfield. rewrite setFields_lookup.
    now rewrite decide_True by exact Hfield. }
  split.
  { cbn [handleDisableAll getEnabledRulesCount]. rewrite filter_none; [reflexivity|].
    apply Forall_forall. intros field Hfield. rewrite setFields_lookup.
    now rewrite decide_True by exact Hfield. }
  split; [apply (filter_length_le _ booleanFields)|]. split.
  { intros field Hfield. cbn [handleEnableAll handleDisableAll fieldOf].
    rewrite !setFields_lookup. now rewrite !decide_False by exact Hfield. }
  split; [|now repeat split].
  intros field b Hfield. cbn [updateField getEnabledRulesCount].
  rewrite (filter_change_one (fun f => truthyValue (c !! f))
             (fun f => truthyValue (<[field := VBool b]> c !! f))
             field booleanFields booleanFields_NoDup Hfield).
  - cbn beta.
    replace (<[field := VBool b]> c !! field) with (Some (VBool b))
      by (symmetry; apply lookup_insert_eq).
    reflexivity.
  - intros f Hne. cbn beta.
    replace (<[field := VBool b]> c !! f) with (c !! f)
      by (symmetry; now apply lookup_insert_ne).
    reflexivity.
Qed.

Lemma updateDto_lookup_gen fields (c dto : Config) field :
  foldl (fun dto f => match c !! f with
                      | Some v => <[f := v]> dto
                      | None => dto
                      end) dto fields !! field
  = if decide (field ∈ fields) then
      match c !! field with Some v => Some v | None => dto !! field end
    else dto !! field.
Proof.
  revert dto. induction fields as [|f fields IH]; intros dto; cbn [foldl].
  - case_decide as Hin; [inversion Hin | reflexivity].
  - rewrite IH. destruct (decide (field = f)) as [->|Hne].
    + rewrite (decide_True (P := f ∈ f :: fields)) by (now left).
      destruct (c !! f) as [v|] eqn:Hv.
      * rewrite lookup_insert_eq. now case_decide.
      * now case_decide.
    + assert (Hdto : match c !! f with
                     | Some v => <[f := v]> dto
                     | None => dto
                     end !! field = dto !! field).
      { destruct (c !! f); [now apply lookup_insert_ne | reflexivity]. }
      rewrite Hdto.
      destruct (decide (field ∈ fields)) as [Hin|Hnotin].
      * now rewrite decide_True by (now right).
      * now rewrite decide_False by (rewrite elem_of_cons; tauto).
Qed.

Lemma updateDto_lookup (c : Config) field :
  updateDto c !! field = if decide (field ∈ updateDtoFields) then c !! field else None.
Proof.
  unfold updateDto. rewrite updateDto_lookup_gen. rewrite lookup_empty.
  case_decide; [|reflexivity]. now destruct (c !! field).
Qed.

(** X24.  The four places that list the rules agree.  The rules that the
    modal shows with a check box (the rules of [CHECKSTYLE_RULES] in the
    categories of [RULE_CATEGORIES] other than the general one) are
    exactly, and once each, the 20 fields that the counter counts, that
    [handleEnableAll] and [handleDisableAll] set, and every one of them is
    among the fields that [handleSave] sends; every rule of
    [CHECKSTYLE_RULES] has a category of [RULE_CATEGORIES].  So for every
    configuration the saved object carries each shown rule with the value
    the configuration has for it, and carries no field that is not listed
    in [handleSave]. *)
Theorem shown_rules_are_counted_and_saved (c : Config) :
  NoDup shownRules
  /\ (forall field, field ∈ shownRules <-> field ∈ booleanFields)
  /\ enabledByEnableAll = booleanFields
  /\ disabledByDisableAll = booleanFields
  /\ Forall (fun kv => category (snd kv) ∈ RULE_CATEGORIES) CHECKSTYLE_RULES
  /\ (forall field, field ∈ shownRules -> updateDto c !! field = c !! field)
  /\ (forall field, field ∉ updateDtoFields -> updateDto c !! field = None).
Proof.
  assert (Hshown : forall field, field ∈ shownRules <-> field ∈ booleanFields).
  { assert (H1 : Forall (fun field => field ∈ booleanFields) shownRules)
      by (apply (bool_decide_unpack _); vm_compute; exact I).
    assert (H2 : Forall (fun field => field ∈ shownRules) booleanFields)
      by (apply (bool_decide_unpack _); vm_compute; exact I).
    rewrite Forall_forall in H1, H2. intros field. split; auto. }
  assert (Hsent : Forall (fun field => field ∈ updateDtoFields) booleanFields)
    by (apply (bool_decide_unpack _); vm_compute; exact I).
  split; [apply (bool_decide_unpack _); vm_compute; exact I|].
  split; [exact Hshown|]. split; [reflexivity|]. split; [reflexivity|].
  split; [apply (bool_decide_unpack _); vm_compute; exact I|]. split.
  - intros field Hfield. rewrite updateDto_lookup.
    rewrite Forall_forall in Hsent.
    now rewrite decide_True by (apply Hsent, Hshown, Hfield).
  - intros field Hfield. rewrite updateDto_lookup.
    now rewrite decide_False by exact Hfield.
Qed.

(** ** The theme *)

Lemma savedTheme_themeName t : savedTheme (Some (themeName t)) = t.
Proof. now destruct t. Qed.

(** X25.  The theme survives a reload.  After the provider was mounted
    and the theme toggled any number of times, the stored item and the
    [data-theme] attribute are the name of the current theme, so a
    provider mounted later starts with the current theme.  An even number
    of toggles gives the theme the provider started with, an odd number
    the other one; the provider starts with the stored theme, or dark when
    the item is missing or is not the name of a theme. *)
Theorem theme_survives_reload (item : option string) (n : nat) :
  let p := Nat.iter n toggleTheme (mountTheme item) in
  themeItem p = Some (themeName (theme p))
  /\ dataTheme p = Some (themeName (theme p))
  /\ theme (mountTheme (themeItem p)) = theme p
  /\ theme p = (if Nat.even n then savedTheme item
                else match savedTheme item with dark => light | light => dark end)
  /\ (item <> Some "light" -> savedTheme item = dark).
Proof.
  cbv zeta.
  assert (Hstored : themeItem (Nat.iter n toggleTheme (mountTheme item))
                    = Some (themeName (theme (Nat.iter n toggleTheme (mountTheme item))))
                    /\ dataTheme (Nat.iter n toggleTheme (mountTheme item))
                       = Some (themeName (theme (Nat.iter n toggleTheme (mountTheme item))))).
  { destruct n as [|n]; [now split|]. cbn [Nat.iter nat_rect]. now split. }
  destruct Hstored as [Hitem Hattr].
  split; [exact Hitem|]. split; [exact Hattr|]. split.
  { rewrite Hitem. cbn [mountTheme themeEffect theme]. apply savedTheme_themeName. }
  split.
  - induction n as [|n IH]; [reflexivity|].
    assert (Hprev : themeItem (Nat.iter n toggleTheme (mountTheme item))
                    = Some (themeName (theme (Nat.iter n toggleTheme (mountTheme item))))
                    /\ dataTheme (Nat.iter n toggleTheme (mountTheme item))
                       = Some (themeName (theme (Nat.iter n toggleTheme (mountTheme item)))))
      by (destruct n; now split).
    destruct Hprev as [Hi Ha].
    cbn [Nat.iter nat_rect toggleTheme themeEffect theme].
    fold (Nat.iter n toggleTheme (mountTheme item)).
    rewrite (IH Hi Ha), Nat.even_succ, <- Nat.negb_even.
    destruct (Nat.even n), (savedTheme item); reflexivity.
  - intros Hitem'. unfold savedTheme. destruct item as [saved|]; [|reflexivity].
    destruct (String.eqb saved "light") eqn:Heq.
    + apply String.eqb_eq in Heq. congruence.
    + now destruct (String.eqb saved "dark").
Qed.

(** ** The history modal *)

(** X26.  [loadData] of the history modal ends the loading state in every
    case and never throws.  The history and the statistics are replaced
    together, when a token is stored and both responses are [ok]; in every
    other case both stay as they were and the user is shown no error.
    With a token stored both requests are sent, the statistics request
    also when the history request fails; without one, none is sent.  The
    stored token and user are unchanged. *)
Theorem history_and_statistics_load_together
  (historyAnswer : Reply unit (list AnalysisHistoryItem))
  (statsAnswer : Reply unit UserStatistics) (p : HistoryPage * Browser) :
  let p' := loadData historyAnswer statsAnswer p in
  historyLoading (fst p') = false
  /\ (history (fst p') = history (fst p) /\ stats (fst p') = stats (fst p)
      \/ exists historyData statsData,
           isAuthenticated (snd p) = true
           /\ historyAnswer = ReplyOk historyData /\ statsAnswer = ReplyOk statsData
           /\ history (fst p') = historyData /\ stats (fst p') = Some statsData)
  /\ (forall historyData statsData,
        isAuthenticated (snd p) = true ->
        historyAnswer = ReplyOk historyData -> statsAnswer = ReplyOk statsData ->
        history (fst p') = historyData /\ stats (fst p') = Some statsData)
  /\ sent (snd p')
     = sent (snd p) ++ match truthy (getToken (snd p)) with
                       | Some t => [GetHistory t; GetStatistics t]
                       | None => []
                       end
  /\ getToken (snd p') = getToken (snd p)
  /\ getUser (snd p') = getUser (snd p).
Proof.
  destruct p as [page b]. cbv zeta. unfold loadData, isAuthenticated.
  unfold getAnalysisHistory, getUserStatistics, getToken, getUser. cbn [fst snd].
  destruct (truthy (tokenItem b)) as [t|] eqn:Ht.
  - destruct historyAnswer as [e|[]|historyData]; cbn [fst snd send tokenItem];
      rewrite Ht;
      destruct statsAnswer as [e'|[]|statsData];
      cbn [fst snd send sent tokenItem userItem history stats historyLoading];
      rewrite <- ?app_assoc;
      (split; [reflexivity|]); (split; [first [now left | right; now eauto 10]|]);
      (split; [first [discriminate | now intros h s' _ [= <-] [= <-]
                     | intros h s' _ H1 H2; discriminate]|]);
      now repeat split.
  - cbn [fst snd]. rewrite Ht. cbn [fst snd history stats historyLoading].
    rewrite app_nil_r. split; [reflexivity|]. split; [now left|].
    split; [discriminate|]. now repeat split.
Qed.

(** ** The registration form *)

(** X27.  [handleRegister] validates before anything is sent.  If the
    password and its confirmation differ, or else if the password has
    fewer than six UTF-16 code units, one error toast is shown, the former
    case taking precedence, and nothing else happens: no request, the
    provider and the storage unchanged, the form kept.  Otherwise exactly
    one registration request is sent, with the name, the e-mail address
    and the password as typed, and [isSubmitting] is false again at the
    end.  On an [ok] response the provider holds the new user, the modal is
    closed once, the forms are emptied and a success toast is shown; on any
    other answer one error toast is shown, the form is kept, the modal
    stays open and the provider's user is unchanged. *)
Theorem registration_is_validated_before_sending
  (answer : Reply ErrorBody AuthResponse)
  (w : AuthModalState * (AuthState * Browser)) :
  let m := fst w in
  let w' := handleRegister answer w in
  (registerPassword m <> registerConfirmPassword m ->
     w' = (showToast (ToastError "Паролі не співпадають") m, snd w))
  /\ (registerPassword m = registerConfirmPassword m ->
      utf16Length (registerPassword m) < 6 ->
      w' = (showToast (ToastError "Пароль має бути не менше 6 символів") m, snd w))
  /\ (registerPassword m = registerConfirmPassword m ->
      6 <= utf16Length (registerPassword m) ->
      sent (snd (snd w'))
      = sent (snd (snd w))
        ++ [PostRegister {| reg_username := registerUsername m;
                            reg_email := registerEmail m;
                            reg_password := registerPassword m |}]
      /\ isSubmitting (fst w') = false
      /\ (forall response, answer = ReplyOk response ->
            user (fst (snd w')) = Some (userOf response)
            /\ getUser (snd (snd w')) = Some (userOf response)
            /\ closed (fst w') = S (closed m)
            /\ toasts (fst w') = toasts m ++ [ToastSuccess "Реєстрація успішна!"]
            /\ registerUsername (fst w') = "" /\ registerEmail (fst w') = ""
            /\ registerPassword (fst w') = ""
            /\ registerConfirmPassword (fst w') = "")
      /\ ((forall response, answer <> ReplyOk response) ->
            user (fst (snd w')) = user (fst (snd w))
            /\ getUser (snd (snd w')) = getUser (snd (snd w))
            /\ getToken (snd (snd w')) = getToken (snd (snd w))
            /\ closed (fst w') = closed m
            /\ (exists text, toasts (fst w') = toasts m ++ [ToastError text])
            /\ registerUsername (fst w') = registerUsername m
            /\ registerEmail (fst w') = registerEmail m
            /\ registerPassword (fst w') = registerPassword m
            /\ registerConfirmPassword (fst w') = registerConfirmPassword m)).
Proof.
  destruct w as [m p]. cbv zeta. cbn [fst snd]. unfold handleRegister. cbn [fst snd].
  split; [|split].
  - intros Hdiffer. apply String.eqb_neq in Hdiffer. now rewrite Hdiffer.
  - intros Hsame Hshort. apply String.eqb_eq in Hsame. rewrite Hsame. cbn [negb].
    apply Nat.ltb_lt in Hshort. now rewrite Hshort.
  - intros Hsame Hlong. apply String.eqb_eq in Hsame. rewrite Hsame. cbn [negb].
    apply Nat.ltb_ge in Hlong. rewrite Hlong.
    unfold providerRegister, register. cbv zeta.
    destruct answer as [e|error|response];
      cbn [fst snd setIsSubmitting showToast onClose resetForms send sent
           storeAuthData isSubmitting registerUsername registerEmail registerPassword
           registerConfirmPassword toasts closed user getUser getToken userItem
           tokenItem].
    + split; [reflexivity|]. split; [reflexivity|]. split; [discriminate|].
      intros _. repeat split. now eexists.
    + split; [reflexivity|]. split; [reflexivity|]. split; [discriminate|].
      intros _. repeat split. now eexists.
    + split; [reflexivity|]. split; [reflexivity|]. split.
      * intros response' [= <-]. now repeat split.
      * intros Hno. now destruct (Hno response).
Qed.

(** X27 for a password of six Cyrillic letters, which is twelve bytes
    long, and for the same form with another confirmation. *)
Lemma registration_is_validated_before_sending_witness :
  registerPassword filledRegistration = registerConfirmPassword filledRegistration
  /\ 6 <= utf16Length (registerPassword filledRegistration)
  /\ sent (snd (snd (handleRegister (ReplyOk sampleResponse)
                       (filledRegistration, (initialAuthState, emptyBrowser)))))
     = [PostRegister {| reg_username := "olena"; reg_email := "olena@example.com";
                        reg_password := "пароль" |}].
Proof.
  assert (Hlong : 6 <= utf16Length (registerPassword filledRegistration))
    by (vm_compute; apply le_n).
  split; [reflexivity|]. split; [exact Hlong|].
  destruct (registration_is_validated_before_sending (ReplyOk sampleResponse)
              (filledRegistration, (initialAuthState, emptyBrowser)))
    as (_ & _ & Hsend).
  exact (proj1 (Hsend eq_refl Hlong)).
Defined.

(** ** The dashboard's page *)

Lemma readResponses_reposOfHistory statsRes historyRes (d : DashboardPage) :
  reposOfHistory d -> reposOfHistory (fst (readResponses statsRes historyRes d)).
Proof.
  intros Hd. unfold readResponses, reposOfHistory in *.
  destruct statsRes as [e| |[stats|]], historyRes as [e'| |[historyData|]];
    cbn [fst savedRepos dashboardHistory setStatistics setHistoryAndRepos];
    first [exact Hd | reflexivity].
Qed.

Lemma dashboardStep_reposOfHistory a (p : DashboardPage * Browser) :
  reposOfHistory (fst p) -> reposOfHistory (fst (dashboardStep a p)).
Proof.
  intros Hp. destruct a as [statsRes historyRes|]; cbn [dashboardStep].
  - unfold dashboardLoadData. cbn [fst].
    exact (readResponses_reposOfHistory statsRes historyRes
             (setDashboardLoading true (fst p)) Hp).
  - unfold renderOverview, reposOfHistory, getTopRepositories.
    cbn [fst snd savedRepos dashboardHistory].
    now rewrite sortByCount_perm.
Qed.

Lemma sum_counts_perm (l l' : list SavedRepository) :
  l ≡ₚ l' -> sum_list (map analysisCount l) = sum_list (map analysisCount l').
Proof.
  induction 1 as [|x l l' _ IH|x y l|l l' l'' _ IH1 _ IH2]; cbn [map sum_list];
    [reflexivity | now rewrite IH | lia | congruence].
Qed.

Lemma collectRepositories_total historyData :
  sum_list (map analysisCount (collectRepositories historyData)) = length historyData.
Proof.
  destruct (forEachFrom_collected historyData [] [] collected_nil)
    as (_ & _ & _ & _ & _ & Htotal).
  unfold collectRepositories. now rewrite map_map.
Qed.

(** X28.  The repositories shown by the dashboard follow its history.
    Whatever sequence of loads, with whatever responses, and of renderings
    of the overview tab happens, the repositories of the state are those
    extracted from the history of the state, in some order (a rendering
    reorders them), and their counts add up to the length of that
    history: a load that fails in any way leaves both as they were, and
    one that succeeds replaces both. *)
Theorem saved_repositories_follow_the_history
  (actions : list DashboardAction) (p : DashboardPage * Browser) :
  reposOfHistory (fst p) ->
  savedRepos (fst (dashboardRun actions p))
  ≡ₚ collectRepositories (dashboardHistory (fst (dashboardRun actions p)))
  /\ sum_list (map analysisCount (savedRepos (fst (dashboardRun actions p))))
     = length (dashboardHistory (fst (dashboardRun actions p))).
Proof.
  intros Hp.
  assert (Hrun : reposOfHistory (fst (dashboardRun actions p))).
  { revert p Hp. induction actions as [|a actions IH]; intros p Hp; [exact Hp|].
    change (dashboardRun (a :: actions) p)
      with (dashboardRun actions (dashboardStep a p)).
    now apply IH, dashboardStep_reposOfHistory. }
  split; [exact Hrun|]. unfold reposOfHistory in Hrun.
  rewrite (sum_counts_perm _ _ Hrun).
  apply collectRepositories_total.
Qed.

(** X28 from the empty dashboard: a load, a rendering, and a load that
    fails. *)
Lemma saved_repositories_follow_the_history_witness :
  reposOfHistory initialDashboard
  /\ sum_list (map analysisCount
       (savedRepos (fst (dashboardRun
          [LoadData ResponseNotOk (ResponseOk (Some sampleHistory)); RenderOverview;
           LoadData (FetchRejected NonError) (ResponseOk (Some []))]
          (initialDashboard, emptyBrowser)))))
     = 3.
Proof.
  assert (H0 : reposOfHistory initialDashboard) by apply Permutation_refl.
  split; [exact H0|].
  exact (proj2 (saved_repositories_follow_the_history
                  [LoadData ResponseNotOk (ResponseOk (Some sampleHistory));
                   RenderOverview;
                   LoadData (FetchRejected NonError) (ResponseOk (Some []))]
                  (initialDashboard, emptyBrowser) H0)).
Defined.

(** X29.  The dashboard's [loadData] has no guard of its own: it always
    sends both requests, statistics first, with the [Authorization] header
    when a non-empty token is stored and without it otherwise, and always
    ends the loading state.  The two responses are used independently and
    in order.  If either request rejects, nothing is set.  Otherwise
    statistics that can be read are set even when the history response is
    not [ok] or cannot be read; a history that can be read is set,
    together with its repositories, when the statistics response is not
    [ok]; but when the statistics response is [ok] and cannot be read, the
    history is not set although its response is [ok]. *)
Theorem dashboard_responses_are_used_independently
  (statsRes : Fetched UserStatistics)
  (historyRes : Fetched (list AnalysisHistoryItem)) (p : DashboardPage * Browser) :
  let p' := dashboardLoadData statsRes historyRes p in
  dashboardLoading (fst p') = false
  /\ sent (snd p')
     = sent (snd p) ++ [FetchStatistics (getAuthHeaders (snd p));
                        FetchHistory (getAuthHeaders (snd p))]
  /\ (isAuthenticated (snd p) = false -> getAuthHeaders (snd p) = None)
  /\ ((exists e, statsRes = FetchRejected e) \/ (exists e, historyRes = FetchRejected e) ->
      statistics (fst p') = statistics (fst p)
      /\ dashboardHistory (fst p') = dashboardHistory (fst p)
      /\ savedRepos (fst p') = savedRepos (fst p))
  /\ (forall stats, statsRes = ResponseOk (Some stats) ->
        (forall e, historyRes <> FetchRejected e) ->
        statistics (fst p') = Some stats)
  /\ (forall historyData, historyRes = ResponseOk (Some historyData) ->
        statsRes = ResponseNotOk \/ (exists stats, statsRes = ResponseOk (Some stats)) ->
        dashboardHistory (fst p') = historyData
        /\ savedRepos (fst p') = collectRepositories historyData)
  /\ (statsRes = ResponseOk None ->
      statistics (fst p') = statistics (fst p)
      /\ dashboardHistory (fst p') = dashboardHistory (fst p)
      /\ savedRepos (fst p') = savedRepos (fst p)).
Proof.
  cbv zeta. unfold dashboardLoadData. cbn [fst snd send sent].
  split; [reflexivity|]. split; [now rewrite <- app_assoc|]. split.
  { unfold isAuthenticated, getAuthHeaders. now destruct (truthy (getToken (snd p))). }
  split.
  { intros [[e ->]|[e ->]]; [now repeat split|].
    destruct statsRes as [e'| |[stats|]]; now repeat split. }
  split.
  { intros stats -> Hhistory.
    destruct historyRes as [e| |[historyData|]]; [now destruct (Hhistory e) | | |];
      reflexivity. }
  split.
  { intros historyData -> [->|[stats ->]]; now split. }
  intros ->. destruct historyRes as [e| |[historyData|]]; now repeat split.
Qed.
